(** * GeminiWatermarkTool: the watermark engine and its callers

    A shallow embedding of the engine facade (core/watermark_engine.cpp):
    size classification and the margin rule, the construction of the alpha
    maps, the three-stage detector [detect_watermark], the standard and
    custom removal paths, the guided multi-scale search [guided_detect] and
    the file-level [process_image]; and of its callers: the legacy detection
    interface (core/watermark_detector.cpp), the GUI controller
    (gui/app/app_controller.cpp over gui/app/app_state.hpp) and the command
    line (cli/cli_app.cpp).

    Conventions.
    - C++ [int] is [Z].  Image dimensions are non-negative [int]s and the
      margins and logo sides are at most 96, so no subtraction or addition of
      the detector's geometry leaves the [int] range; in the guided search
      the scales stay below the image dimensions, and the corners of the
      caller's search rectangle are taken to be representable.  Nothing
      wraps.
    - C++ [double] is [R] with exact arithmetic; the narrowing
      [static_cast<float>] is kept as an explicit operator [to_float].
    - OpenCV (cvtColor, matchTemplate, Sobel, resize, ...) and the blend
      kernels of core/blend_modes.hpp are outside the engine: they are
      interfaces the engine is parameterised by.
    - The file system is an explicit state passed through the functions
      that read or write files; [size_t] counters are [nat].
    - Logging (spdlog) and the wall-clock measurements have no effect on the
      results and are left out. *)

From Stdlib Require Import ZArith List Bool String Reals Lra Lia Sorted.
Import ListNotations.

Local Open Scope Z_scope.

(* ===================================================================== *)
(** * Part I: the model *)
(* ===================================================================== *)

(** ** OpenCV value types and the operations the engine calls *)

Module Cv.

(** [cv::Point] *)
Record Point : Type := mkPoint { x : Z; y : Z }.

(** [cv::Mat]: a [rows] x [cols] grid of [channels] samples of type [A]
    (8-bit samples are [Z], CV_32F samples are [R]); [at_ m r c ch] is the
    sample of channel [ch] at row [r] and column [c]. *)
Record Mat (A : Type) : Type := mkMat {
  rows : Z;
  cols : Z;
  channels : Z;
  at_ : Z -> Z -> Z -> A
}.
Arguments mkMat {A} _ _ _ _.
Arguments rows {A} _.
Arguments cols {A} _.
Arguments channels {A} _.
Arguments at_ {A} _ _ _ _.

(** [cv::Mat::total()] of a two-dimensional matrix. *)
Definition total {A} (m : Mat A) : Z := rows m * cols m.

(** [cv::Mat::empty()]: no element (a matrix without a buffer has no rows
    and no columns). *)
Definition empty {A} (m : Mat A) : bool := total m =? 0.

Inductive ColorConversionCode : Type :=
| COLOR_BGRA2BGR | COLOR_GRAY2BGR | COLOR_BGR2GRAY.

Inductive InterpolationFlags : Type := INTER_LINEAR | INTER_AREA.

End Cv.

(** [cv::Rect]; [Rect.intersect] is [operator&]: the common part of two
    rectangles, or the null rectangle when they have none. *)
Module Rect.

Record t : Type := make { x : Z; y : Z; width : Z; height : Z }.

Definition intersect (a b : t) : t :=
  let x1 := Z.max (x a) (x b) in
  let y1 := Z.max (y a) (y b) in
  let w := Z.min (x a + width a) (x b + width b) - x1 in
  let h := Z.min (y a + height a) (y b + height b) - y1 in
  if (w <=? 0) || (h <=? 0) then make 0 0 0 0 else make x1 y1 w h.

End Rect.

(** The OpenCV entry points used by the engine.  [minMaxLoc] returns
    (min_val, max_val, min_loc, max_loc); [meanStdDev] returns the first
    components of the mean and of the standard deviation. *)
Record OpenCV : Type := {
  cvtColor : Cv.Mat Z -> Cv.ColorConversionCode -> Cv.Mat Z;
  cvtColor_size : forall m code,
      Cv.rows (cvtColor m code) = Cv.rows m /\
      Cv.cols (cvtColor m code) = Cv.cols m;
  submat : forall A : Type, Cv.Mat A -> Rect.t -> Cv.Mat A;
  convertTo_32F : Cv.Mat Z -> R -> Cv.Mat R;
  matchTemplate_CCOEFF_NORMED : Cv.Mat R -> Cv.Mat R -> Cv.Mat R;
  minMaxLoc : Cv.Mat R -> R * R * Cv.Point * Cv.Point;
  Sobel_32F : Cv.Mat R -> Z -> Z -> Z -> Cv.Mat R;
  magnitude : Cv.Mat R -> Cv.Mat R -> Cv.Mat R;
  meanStdDev : Cv.Mat Z -> R * R;
  resize : Cv.Mat R -> Z -> Z -> Cv.InterpolationFlags -> Cv.Mat R
}.
Arguments submat _ {A} _ _.

Definition max_val (r : R * R * Cv.Point * Cv.Point) : R :=
  let '(_, mx, _, _) := r in mx.

Definition max_loc (r : R * R * Cv.Point * Cv.Point) : Cv.Point :=
  let '(_, _, _, loc) := r in loc.

(** core/blend_modes.hpp: the two pixel kernels.  Each takes the image, the
    alpha map, the top-left position and the logo value, and returns the
    image it leaves in the buffer. *)
Record BlendModes : Type := {
  remove_watermark_alpha_blend :
    Cv.Mat Z -> Cv.Mat R -> Cv.Point -> R -> Cv.Mat Z;
  add_watermark_alpha_blend :
    Cv.Mat Z -> Cv.Mat R -> Cv.Point -> R -> Cv.Mat Z
}.

(** A call either returns or throws [std::runtime_error] with a message. *)
Inductive Exc (A : Type) : Type :=
| Returns (a : A)
| Throws (what : string).
Arguments Returns {A} _.
Arguments Throws {A} _.

Definition throws {A} (r : Exc A) : bool :=
  match r with Throws _ => true | Returns _ => false end.

(** [std::clamp(v, lo, hi)] on doubles. *)
Definition clamp (v lo hi : R) : R :=
  if Rlt_dec v lo then lo else if Rlt_dec hi v then hi else v.

(** ** core/watermark_engine.hpp *)

Inductive WatermarkSize : Type := Small | Large.

Record WatermarkPosition : Type := mkWatermarkPosition {
  margin_right : Z;
  margin_bottom : Z;
  logo_size : Z
}.

(** [WatermarkPosition::get_position] *)
Definition get_position (c : WatermarkPosition) (image_width image_height : Z)
  : Cv.Point :=
  Cv.mkPoint (image_width - margin_right c - logo_size c)
             (image_height - margin_bottom c - logo_size c).

Module DetectionResult.

Record t : Type := make {
  detected : bool;
  confidence : R;
  region : Rect.t;
  size : WatermarkSize;
  spatial_score : R;
  gradient_score : R;
  variance_score : R
}.

(** [DetectionResult result{}] followed by the five explicit resets. *)
Definition zero : t := make false 0%R (Rect.make 0 0 0 0) Small 0%R 0%R 0%R.

Definition with_detected (r : t) (v : bool) : t :=
  make v (confidence r) (region r) (size r)
       (spatial_score r) (gradient_score r) (variance_score r).
Definition with_confidence (r : t) (v : R) : t :=
  make (detected r) v (region r) (size r)
       (spatial_score r) (gradient_score r) (variance_score r).
Definition with_region (r : t) (v : Rect.t) : t :=
  make (detected r) (confidence r) v (size r)
       (spatial_score r) (gradient_score r) (variance_score r).
Definition with_size (r : t) (v : WatermarkSize) : t :=
  make (detected r) (confidence r) (region r) v
       (spatial_score r) (gradient_score r) (variance_score r).
Definition with_spatial_score (r : t) (v : R) : t :=
  make (detected r) (confidence r) (region r) (size r)
       v (gradient_score r) (variance_score r).
Definition with_gradient_score (r : t) (v : R) : t :=
  make (detected r) (confidence r) (region r) (size r)
       (spatial_score r) v (variance_score r).
Definition with_variance_score (r : t) (v : R) : t :=
  make (detected r) (confidence r) (region r) (size r)
       (spatial_score r) (gradient_score r) v.

End DetectionResult.

Module GuidedDetectionResult.

(** Modelled from the spec: the declaration of [GuidedDetectionResult] is
    not among the sources.  The fields are those of the spec's data model
    under the names [guided_detect] uses, and [GuidedDetectionResult
    result{}] starts every field at zero / false. *)
Record t : Type := make {
  found : bool;
  confidence : R;
  raw_ncc : R;
  match_rect : Rect.t;
  detected_size : Z;
  scales_searched : Z;
  total_scales : Z;
  was_cancelled : bool
}.

Definition zero : t :=
  make false 0%R 0%R (Rect.make 0 0 0 0) 0 0 0 false.

End GuidedDetectionResult.

(** The private members of [WatermarkEngine]. *)
Record WatermarkEngine : Type := {
  alpha_map_small_ : Cv.Mat R;
  alpha_map_large_ : Cv.Mat R;
  logo_value_ : R
}.

(** [get_watermark_config] *)
Definition get_watermark_config (image_width image_height : Z)
  : WatermarkPosition :=
  if (image_width >? 1024) && (image_height >? 1024)
  then mkWatermarkPosition 64 64 96
  else mkWatermarkPosition 32 32 48.

(** [get_watermark_size] *)
Definition get_watermark_size (image_width image_height : Z) : WatermarkSize :=
  if (image_width >? 1024) && (image_height >? 1024) then Large else Small.

(** [std::optional<T>::value_or] *)
Definition value_or {A} (o : option A) (d : A) : A :=
  match o with Some v => v | None => d end.

(** [WatermarkEngine::get_alpha_map] *)
Definition get_alpha_map (self : WatermarkEngine) (size : WatermarkSize)
  : Cv.Mat R :=
  match size with
  | Small => alpha_map_small_ self
  | Large => alpha_map_large_ self
  end.

(* ===================================================================== *)
(** ** The engine's removal, addition and detection paths *)
(* ===================================================================== *)

Section Engine.

Variable cv : OpenCV.
Variable blend : BlendModes.
Variable self : WatermarkEngine.

(** "Ensure BGR format": the channel normalisation that opens every removal
    and addition path. *)
Definition ensure_bgr (image : Cv.Mat Z) : Cv.Mat Z :=
  if Cv.channels image =? 4 then cvtColor cv image Cv.COLOR_BGRA2BGR
  else if Cv.channels image =? 1 then cvtColor cv image Cv.COLOR_GRAY2BGR
  else image.

(** "Get position config based on actual size used" in [remove_watermark]
    and [add_watermark]. *)
Definition config_of_size (size : WatermarkSize) : WatermarkPosition :=
  match size with
  | Small => mkWatermarkPosition 32 32 48
  | Large => mkWatermarkPosition 64 64 96
  end.

(** [WatermarkEngine::remove_watermark]; the result is the image left in the
    caller's buffer. *)
Definition remove_watermark (image : Cv.Mat Z)
    (force_size : option WatermarkSize) : Exc (Cv.Mat Z) :=
  if Cv.empty image then Throws "Empty image provided"
  else
    let image := ensure_bgr image in
    let size :=
      value_or force_size
               (get_watermark_size (Cv.cols image) (Cv.rows image)) in
    let config := config_of_size size in
    let pos := get_position config (Cv.cols image) (Cv.rows image) in
    let alpha_map := get_alpha_map self size in
    Returns (remove_watermark_alpha_blend blend image alpha_map pos
                                          (logo_value_ self)).

(** [WatermarkEngine::add_watermark] *)
Definition add_watermark (image : Cv.Mat Z)
    (force_size : option WatermarkSize) : Exc (Cv.Mat Z) :=
  if Cv.empty image then Throws "Empty image provided"
  else
    let image := ensure_bgr image in
    let size :=
      value_or force_size
               (get_watermark_size (Cv.cols image) (Cv.rows image)) in
    let config := config_of_size size in
    let pos := get_position config (Cv.cols image) (Cv.rows image) in
    let alpha_map := get_alpha_map self size in
    Returns (add_watermark_alpha_blend blend image alpha_map pos
                                       (logo_value_ self)).

(** [WatermarkEngine::create_interpolated_alpha] *)
Definition create_interpolated_alpha (target_width target_height : Z)
  : Cv.Mat R :=
  let source := alpha_map_large_ self in
  if (target_width =? Cv.cols source) && (target_height =? Cv.rows source)
  then source
  else
    let interp_method :=
      if (target_width >? Cv.cols source) || (target_height >? Cv.rows source)
      then Cv.INTER_LINEAR else Cv.INTER_AREA in
    resize cv source target_width target_height interp_method.

(** [WatermarkEngine::remove_watermark_custom] *)
Definition remove_watermark_custom (image : Cv.Mat Z) (region : Rect.t)
  : Exc (Cv.Mat Z) :=
  if Cv.empty image then Throws "Empty image provided"
  else
    let image := ensure_bgr image in
    if (Rect.width region =? 48) && (Rect.height region =? 48) then
      let pos := Cv.mkPoint (Rect.x region) (Rect.y region) in
      Returns (remove_watermark_alpha_blend blend image
                 (alpha_map_small_ self) pos (logo_value_ self))
    else if (Rect.width region =? 96) && (Rect.height region =? 96) then
      let pos := Cv.mkPoint (Rect.x region) (Rect.y region) in
      Returns (remove_watermark_alpha_blend blend image
                 (alpha_map_large_ self) pos (logo_value_ self))
    else
      let custom_alpha :=
        create_interpolated_alpha (Rect.width region) (Rect.height region) in
      let pos := Cv.mkPoint (Rect.x region) (Rect.y region) in
      Returns (remove_watermark_alpha_blend blend image custom_alpha pos
                                            (logo_value_ self)).

(** [WatermarkEngine::add_watermark_custom] *)
Definition add_watermark_custom (image : Cv.Mat Z) (region : Rect.t)
  : Exc (Cv.Mat Z) :=
  if Cv.empty image then Throws "Empty image provided"
  else
    let image := ensure_bgr image in
    if (Rect.width region =? 48) && (Rect.height region =? 48) then
      let pos := Cv.mkPoint (Rect.x region) (Rect.y region) in
      Returns (add_watermark_alpha_blend blend image
                 (alpha_map_small_ self) pos (logo_value_ self))
    else if (Rect.width region =? 96) && (Rect.height region =? 96) then
      let pos := Cv.mkPoint (Rect.x region) (Rect.y region) in
      Returns (add_watermark_alpha_blend blend image
                 (alpha_map_large_ self) pos (logo_value_ self))
    else
      let custom_alpha :=
        create_interpolated_alpha (Rect.width region) (Rect.height region) in
      let pos := Cv.mkPoint (Rect.x region) (Rect.y region) in
      Returns (add_watermark_alpha_blend blend image custom_alpha pos
                                         (logo_value_ self)).

End Engine.

(* ===================================================================== *)
(** ** The three-stage detector *)
(* ===================================================================== *)

Definition kSpatialThreshold : R := (25 / 100)%R.

Section Detector.

Variable cv : OpenCV.

(** [static_cast<float>] on a double. *)
Variable to_float : R -> R.
Variable self : WatermarkEngine.

(** [constexpr float kDetectionThreshold = 0.35f] *)
Definition kDetectionThreshold : R := to_float (35 / 100)%R.

Section Candidate_region.

Variable image : Cv.Mat Z.
Variable force_size : option WatermarkSize.

(** "Determine watermark size and position" *)
Definition detect_size : WatermarkSize :=
  value_or force_size (get_watermark_size (Cv.cols image) (Cv.rows image)).

Definition detect_config : WatermarkPosition :=
  get_watermark_config (Cv.cols image) (Cv.rows image).

Definition detect_pos : Cv.Point :=
  get_position detect_config (Cv.cols image) (Cv.rows image).

Definition detect_alpha_map : Cv.Mat R := get_alpha_map self detect_size.

(** [result.region] *)
Definition detect_region : Rect.t :=
  Rect.make (Cv.x detect_pos) (Cv.y detect_pos)
            (Cv.cols detect_alpha_map) (Cv.rows detect_alpha_map).

(** "Calculate ROI (clamp to image bounds)" *)
Definition roi_x1 : Z := Z.max 0 (Cv.x detect_pos).
Definition roi_y1 : Z := Z.max 0 (Cv.y detect_pos).
Definition roi_x2 : Z :=
  Z.min (Cv.cols image) (Cv.x detect_pos + Cv.cols detect_alpha_map).
Definition roi_y2 : Z :=
  Z.min (Cv.rows image) (Cv.y detect_pos + Cv.rows detect_alpha_map).

Definition roi_out_of_bounds : bool :=
  (roi_x1 >=? roi_x2) || (roi_y1 >=? roi_y2).

(** "Extract region and convert to grayscale" *)
Definition image_roi : Rect.t :=
  Rect.make roi_x1 roi_y1 (roi_x2 - roi_x1) (roi_y2 - roi_y1).

Definition to_gray (region : Cv.Mat Z) : Cv.Mat Z :=
  if Cv.channels region >=? 3 then cvtColor cv region Cv.COLOR_BGR2GRAY
  else region.

Definition gray_region : Cv.Mat Z := to_gray (submat cv image image_roi).

(** "Convert to float [0, 1]" *)
Definition gray_f : Cv.Mat R := convertTo_32F cv gray_region (1 / 255)%R.

(** "Get corresponding alpha region" *)
Definition alpha_roi : Rect.t :=
  Rect.make (roi_x1 - Cv.x detect_pos) (roi_y1 - Cv.y detect_pos)
            (roi_x2 - roi_x1) (roi_y2 - roi_y1).

Definition alpha_region : Cv.Mat R := submat cv detect_alpha_map alpha_roi.

(** Stage 1: spatial NCC *)
Definition spatial_score : R :=
  max_val (minMaxLoc cv (matchTemplate_CCOEFF_NORMED cv gray_f alpha_region)).

(** Stage 2: gradient-domain NCC *)
Definition gradient_magnitude (m : Cv.Mat R) : Cv.Mat R :=
  magnitude cv (Sobel_32F cv m 1 0 3) (Sobel_32F cv m 0 1 3).

Definition grad_score : R :=
  max_val (minMaxLoc cv
             (matchTemplate_CCOEFF_NORMED cv (gradient_magnitude gray_f)
                                          (gradient_magnitude alpha_region))).

(** Stage 3: variance analysis *)
Definition ref_h : Z := Z.min roi_y1 (logo_size detect_config).

Definition ref_roi : Rect.t :=
  Rect.make roi_x1 (roi_y1 - ref_h) (roi_x2 - roi_x1) ref_h.

Definition gray_ref : Cv.Mat Z := to_gray (submat cv image ref_roi).

Definition s_wm : R := snd (meanStdDev cv gray_region).
Definition s_ref : R := snd (meanStdDev cv gray_ref).

Definition var_score : R :=
  if ref_h >? 8 then
    if Rgt_dec s_ref 5 then clamp (1 - s_wm / s_ref) 0 1 else 0%R
  else 0%R.

(** "Heuristic Fusion: Weighted Ensemble" *)
Definition fused_confidence : R :=
  (spatial_score * (50 / 100) + grad_score * (30 / 100)
   + var_score * (20 / 100))%R.

(** [WatermarkEngine::detect_watermark] *)
Definition detect_watermark : DetectionResult.t :=
  let result := DetectionResult.zero in
  if Cv.empty image then result
  else
    let result := DetectionResult.with_size result detect_size in
    let result := DetectionResult.with_region result detect_region in
    if roi_out_of_bounds then result
    else
      let result :=
        DetectionResult.with_spatial_score result (to_float spatial_score) in
      if Rlt_dec spatial_score kSpatialThreshold then
        DetectionResult.with_confidence
          result (to_float (spatial_score * (5 / 10))%R)
      else
        let result :=
          DetectionResult.with_gradient_score result (to_float grad_score) in
        let result :=
          DetectionResult.with_variance_score result (to_float var_score) in
        let result :=
          DetectionResult.with_confidence
            result (to_float (clamp fused_confidence 0 1)) in
        DetectionResult.with_detected
          result
          (if Rge_dec (DetectionResult.confidence result) kDetectionThreshold
           then true else false).

End Candidate_region.

End Detector.

(* ===================================================================== *)
(** ** Guided multi-scale detection *)
(* ===================================================================== *)

(** [struct Candidate] local to [guided_detect]. *)
Record Candidate : Type := mkCandidate {
  position : Cv.Point;
  scale : Z;
  raw_score : R;
  adjusted_score : R
}.

Definition kReferenceSize : R := 96%R.
Definition kCoarseScaleStep : Z := 8.
Definition kTopK : Z := 5.
Definition kFineScaleStep : Z := 2.
Definition kFineScaleRange : Z := 10.

(** The lambda [size_adjusted_score]. *)
Definition size_adjusted_score (raw_ncc : R) (scale : Z) : R :=
  let weight := sqrt (IZR scale / kReferenceSize) in
  let weight := Rmin weight 1 in
  (raw_ncc * weight)%R.

(** [for (int s = lo; s <= hi; s += step)]: the values [s] takes.  The loop
    runs at most [hi - lo + 1] times when [step] is positive, which is the
    fuel [for_range] supplies. *)
Fixpoint count_up (fuel : nat) (s hi step : Z) : list Z :=
  match fuel with
  | O => []
  | S fuel' => if s <=? hi then s :: count_up fuel' (s + step) hi step else []
  end.

Definition for_range (lo hi step : Z) : list Z :=
  count_up (Z.to_nat (hi - lo + 1)) lo hi step.

(** [std::sort] on the scale list (ascending). *)
Fixpoint insert_scale (s : Z) (l : list Z) : list Z :=
  match l with
  | [] => [s]
  | h :: t => if s <=? h then s :: l else h :: insert_scale s t
  end.

Definition sort_scales (l : list Z) : list Z :=
  fold_right insert_scale [] l.

(** "Always include the exact standard sizes if in range" *)
Definition add_standard_size (min_size max_size : Z) (coarse_scales : list Z)
    (std_size : Z) : list Z :=
  if (std_size >=? min_size) && (std_size <=? max_size) then
    let already_present :=
      existsb (fun s => Z.abs (s - std_size) <=? 2) coarse_scales in
    if already_present then coarse_scales else coarse_scales ++ [std_size]
  else coarse_scales.

(** "Generate scale list" *)
Definition coarse_scale_list (min_size max_size : Z) : list Z :=
  sort_scales
    (fold_left (add_standard_size min_size max_size) [48; 96]
               (for_range min_size max_size kCoarseScaleStep)).

(** [std::sort] of the candidates with the comparator
    [a.adjusted_score > b.adjusted_score] (descending). *)
Fixpoint insert_candidate (c : Candidate) (l : list Candidate)
  : list Candidate :=
  match l with
  | [] => [c]
  | h :: t =>
      if Rgt_dec (adjusted_score h) (adjusted_score c)
      then h :: insert_candidate c t
      else c :: l
  end.

Definition sort_candidates (l : list Candidate) : list Candidate :=
  fold_right insert_candidate [] l.

(** [v.back() = c] *)
Definition set_back (l : list Candidate) (c : Candidate) : list Candidate :=
  removelast l ++ [c].

(** "Insert into sorted top-K by adjusted score" *)
Definition insert_top_k (c : Candidate) (coarse_candidates : list Candidate)
  : list Candidate :=
  if Z.of_nat (List.length coarse_candidates) <? kTopK then
    sort_candidates (coarse_candidates ++ [c])
  else if Rgt_dec (adjusted_score c)
                  (adjusted_score (last coarse_candidates c))
  then sort_candidates (set_back coarse_candidates c)
  else coarse_candidates.

(** The [std::atomic<bool>*] cancellation flag.  The flag is written by
    another thread, so each [load] may see a different value: [Some f] is a
    non-null pointer whose [n]-th load during the call returns [f n]; [None]
    is the null pointer, which is never loaded. *)
Definition CancelFlag : Type := option (nat -> bool).

Definition cancel_requested (cancel_flag : CancelFlag) (n : nat) : bool :=
  match cancel_flag with
  | Some f => f n
  | None => false
  end.

(** State carried through the coarse loop. *)
Record CoarseState : Type := mkCoarseState {
  coarse_cancelled : bool;
  coarse_searched : Z;
  coarse_candidates : list Candidate;
  coarse_loads : nat
}.

(** [Candidate best{cv::Point(0, 0), 0, -1.0, -1.0}] *)
Definition no_best : Candidate :=
  mkCandidate (Cv.mkPoint 0 0) 0 (-1)%R (-1)%R.

Section Guided.

Variable cv : OpenCV.
Variable to_float : R -> R.
Variable self : WatermarkEngine.

(** Resize the alpha template to [s], match it, and take the best position:
    the body shared by the coarse and the fine loop. *)
Definition match_at_scale (gray_f : Cv.Mat R) (s : Z) : Candidate :=
  let source_alpha := alpha_map_large_ self in
  let tmpl :=
    resize cv source_alpha s s
           (if s >? Cv.cols source_alpha
            then Cv.INTER_LINEAR else Cv.INTER_AREA) in
  let match_result := matchTemplate_CCOEFF_NORMED cv gray_f tmpl in
  let mm := minMaxLoc cv match_result in
  mkCandidate (max_loc mm) s (max_val mm) (size_adjusted_score (max_val mm) s).

Section Loops.

Variable gray_f : Cv.Mat R.
Variable cancel_flag : CancelFlag.

(** Phase 1: [for (int scale : coarse_scales)]; [n] counts the loads of the
    cancellation flag made so far. *)
Fixpoint coarse_loop (scales : list Z) (n : nat) (searched : Z)
    (candidates : list Candidate) : CoarseState :=
  match scales with
  | [] => mkCoarseState false searched candidates n
  | scale :: rest =>
      if cancel_requested cancel_flag n then
        mkCoarseState true searched candidates (S n)
      else if (scale >? Cv.cols gray_f) || (scale >? Cv.rows gray_f) then
        coarse_loop rest (S n) (searched + 1) candidates
      else
        let c := match_at_scale gray_f scale in
        coarse_loop rest (S n) (searched + 1)
          (if Rgt_dec (adjusted_score c) (8 / 100)
           then insert_top_k c candidates else candidates)
  end.

(** Phase 2, inner loop: [for (int s = scale_lo; s <= scale_hi; s += 2)]. *)
Definition fine_step (best : Candidate) (s : Z) : Candidate :=
  if (s >? Cv.cols gray_f) || (s >? Cv.rows gray_f) then best
  else
    let c := match_at_scale gray_f s in
    if Rgt_dec (adjusted_score c) (adjusted_score best) then c else best.

Definition refine (min_size max_size : Z) (best candidate : Candidate)
  : Candidate :=
  let scale_lo := Z.max min_size (scale candidate - kFineScaleRange) in
  let scale_hi := Z.min max_size (scale candidate + kFineScaleRange) in
  fold_left fine_step (for_range scale_lo scale_hi kFineScaleStep) best.

(** Phase 2, outer loop: [for (const auto& candidate : coarse_candidates)];
    returns (was_cancelled, best). *)
Fixpoint fine_loop (min_size max_size : Z) (candidates : list Candidate)
    (n : nat) (cancelled : bool) (best : Candidate) : bool * Candidate :=
  match candidates with
  | [] => (cancelled, best)
  | candidate :: rest =>
      if cancel_requested cancel_flag n then (true, best)
      else
        fine_loop min_size max_size rest (S n) cancelled
                  (refine min_size max_size best candidate)
  end.

End Loops.

(** "Extract grayscale search region" *)
Definition search_gray_f (image : Cv.Mat Z) (search : Rect.t) : Cv.Mat R :=
  let search_region := submat cv image search in
  let gray_region :=
    if Cv.channels search_region >=? 3
    then cvtColor cv search_region Cv.COLOR_BGR2GRAY
    else search_region in
  convertTo_32F cv gray_region (1 / 255)%R.

(** [WatermarkEngine::guided_detect] *)
Definition guided_detect (image : Cv.Mat Z) (search_rect : Rect.t)
    (cancel_flag : CancelFlag) (min_size max_size : Z)
  : GuidedDetectionResult.t :=
  let result := GuidedDetectionResult.zero in
  if Cv.empty image || (Rect.width search_rect <? 8)
     || (Rect.height search_rect <? 8) then result
  else
    let search :=
      Rect.intersect search_rect (Rect.make 0 0 (Cv.cols image) (Cv.rows image)) in
    if (Rect.width search <? 8) || (Rect.height search <? 8) then result
    else
      let min_size := Z.max min_size 16 in
      let max_size :=
        Z.min max_size (Z.min (Rect.width search) (Rect.height search)) in
      if min_size >? max_size then result
      else
        let gray_f := search_gray_f image search in
        let coarse_scales := coarse_scale_list min_size max_size in
        let total := Z.of_nat (List.length coarse_scales) in
        let st := coarse_loop gray_f cancel_flag coarse_scales 0 0 [] in
        match coarse_candidates st with
        | [] =>
            GuidedDetectionResult.make
              false 0%R 0%R (Rect.make 0 0 0 0) 0
              (coarse_searched st) total (coarse_cancelled st)
        | _ :: _ =>
            let '(cancelled, best) :=
              fine_loop gray_f cancel_flag min_size max_size
                        (coarse_candidates st) (coarse_loads st)
                        (coarse_cancelled st) no_best in
            if Rgt_dec (adjusted_score best) (8 / 100) then
              GuidedDetectionResult.make
                true (to_float (adjusted_score best))
                (to_float (raw_score best))
                (Rect.make (Rect.x search + Cv.x (position best))
                           (Rect.y search + Cv.y (position best))
                           (scale best) (scale best))
                (scale best)
                (coarse_searched st) total cancelled
            else
              GuidedDetectionResult.make
                false 0%R 0%R (Rect.make 0 0 0 0) 0
                (coarse_searched st) total cancelled
        end.

End Guided.

(** ** Predicates on candidates used to state the ranking properties *)

(** The adjusted score of [c] is the size-adjusted value of its own raw
    score at its own scale. *)
Definition size_adjusted (c : Candidate) : Prop :=
  adjusted_score c = size_adjusted_score (raw_score c) (scale c).

(** [c] passed the coarse-phase floor, applied to the adjusted score. *)
Definition above_floor (c : Candidate) : Prop :=
  (adjusted_score c > 8 / 100)%R.

(** [a] is ranked no lower than [b]. *)
Definition outranks (a b : Candidate) : Prop :=
  (adjusted_score a >= adjusted_score b)%R.

(** The template of side [s] fits the search region; both loops pass over
    a scale that does not. *)
Definition template_fits (gray_f : Cv.Mat R) (s : Z) : Prop :=
  s <= Cv.cols gray_f /\ s <= Cv.rows gray_f.

(** The scales the fine phase tries around [candidate]: the values its inner
    loop runs through. *)
Definition fine_scales (min_size max_size : Z) (candidate : Candidate)
  : list Z :=
  for_range (Z.max min_size (scale candidate - kFineScaleRange))
            (Z.min max_size (scale candidate + kFineScaleRange))
            kFineScaleStep.

(** [l] holds the best of the candidates [seen], at most five of them: it is
    ranked, it holds only candidates that were seen, and a candidate that was
    seen and is not in [l] is outranked by every member of [l], which is then
    full. *)
Definition top_k_of (seen : Candidate -> Prop) (l : list Candidate) : Prop :=
  Sorted outranks l /\
  Z.of_nat (List.length l) <= kTopK /\
  (forall c, In c l -> seen c) /\
  (forall x, seen x ->
             In x l \/
             (Z.of_nat (List.length l) = kTopK /\
              Forall (fun c => outranks c x) l)).

(** The candidates the coarse phase has to rank after the scales [examined]:
    the matches at those of the scales that fit, when they pass the floor. *)
Definition coarse_seen (cv : OpenCV) (self : WatermarkEngine)
    (gray_f : Cv.Mat R) (examined : list Z) (c : Candidate) : Prop :=
  above_floor c /\
  exists s, In s examined /\ template_fits gray_f s /\
            c = match_at_scale cv self gray_f s.

(* ===================================================================== *)
(** ** Fixtures: test doubles and sample inputs *)
(* ===================================================================== *)

Module Fixture.

(** A stand-in for OpenCV.  Geometry is exact: conversions keep the size, a
    sub-matrix is the window of its rectangle, a resize has the size asked
    for.  Every template match scores [ncc], and the standard deviation of a
    matrix is [stddev] of it. *)
Definition mock_cvtColor (m : Cv.Mat Z) (code : Cv.ColorConversionCode)
  : Cv.Mat Z :=
  match code with
  | Cv.COLOR_BGR2GRAY =>
      Cv.mkMat (Cv.rows m) (Cv.cols m) 1 (fun r c _ => Cv.at_ m r c 1)
  | Cv.COLOR_GRAY2BGR =>
      Cv.mkMat (Cv.rows m) (Cv.cols m) 3 (fun r c _ => Cv.at_ m r c 0)
  | Cv.COLOR_BGRA2BGR =>
      Cv.mkMat (Cv.rows m) (Cv.cols m) 3 (Cv.at_ m)
  end.

Definition mock_submat (A : Type) (m : Cv.Mat A) (r : Rect.t) : Cv.Mat A :=
  Cv.mkMat (Rect.height r) (Rect.width r) (Cv.channels m)
           (fun row col ch => Cv.at_ m (Rect.y r + row) (Rect.x r + col) ch).

Definition mock_cv (ncc : R) (stddev : Cv.Mat Z -> R) : OpenCV :=
  {| cvtColor := mock_cvtColor;
     cvtColor_size := fun m code =>
       match code with
       | Cv.COLOR_BGR2GRAY => conj eq_refl eq_refl
       | Cv.COLOR_GRAY2BGR => conj eq_refl eq_refl
       | Cv.COLOR_BGRA2BGR => conj eq_refl eq_refl
       end;
     submat := mock_submat;
     convertTo_32F := fun m alpha =>
       Cv.mkMat (Cv.rows m) (Cv.cols m) (Cv.channels m)
                (fun r c ch => (IZR (Cv.at_ m r c ch) * alpha)%R);
     matchTemplate_CCOEFF_NORMED := fun img tmpl =>
       Cv.mkMat (Cv.rows img - Cv.rows tmpl + 1)
                (Cv.cols img - Cv.cols tmpl + 1) 1 (fun _ _ _ => ncc);
     minMaxLoc := fun m =>
       (Cv.at_ m 0 0 0, Cv.at_ m 0 0 0, Cv.mkPoint 0 0, Cv.mkPoint 0 0);
     Sobel_32F := fun m dx dy ksize => m;
     magnitude := fun gx gy => gx;
     meanStdDev := fun m => (0%R, stddev m);
     resize := fun m w h interp =>
       Cv.mkMat h w (Cv.channels m) (fun _ _ ch => Cv.at_ m 0 0 ch) |}.

(** The same stand-in with a template-match score that depends on the side
    of the template. *)
Definition mock_cv_by_scale (ncc : Z -> R) : OpenCV :=
  {| cvtColor := mock_cvtColor;
     cvtColor_size := fun m code =>
       match code with
       | Cv.COLOR_BGR2GRAY => conj eq_refl eq_refl
       | Cv.COLOR_GRAY2BGR => conj eq_refl eq_refl
       | Cv.COLOR_BGRA2BGR => conj eq_refl eq_refl
       end;
     submat := mock_submat;
     convertTo_32F := fun m alpha =>
       Cv.mkMat (Cv.rows m) (Cv.cols m) (Cv.channels m)
                (fun r c ch => (IZR (Cv.at_ m r c ch) * alpha)%R);
     matchTemplate_CCOEFF_NORMED := fun img tmpl =>
       Cv.mkMat (Cv.rows img - Cv.rows tmpl + 1)
                (Cv.cols img - Cv.cols tmpl + 1) 1
                (fun _ _ _ => ncc (Cv.cols tmpl));
     minMaxLoc := fun m =>
       (Cv.at_ m 0 0 0, Cv.at_ m 0 0 0, Cv.mkPoint 0 0, Cv.mkPoint 0 0);
     Sobel_32F := fun m dx dy ksize => m;
     magnitude := fun gx gy => gx;
     meanStdDev := fun m => (0%R, 0%R);
     resize := fun m w h interp =>
       Cv.mkMat h w (Cv.channels m) (fun _ _ ch => Cv.at_ m 0 0 ch) |}.

(** Raw score 0.30 with the 96 x 96 template, 0.58 with the 24 x 24 one,
    none with any other. *)
Definition ncc_96_vs_24 (s : Z) : R :=
  if s =? 96 then (30 / 100)%R
  else if s =? 24 then (58 / 100)%R else 0%R.

(** Blend kernels that leave a mark on every pixel of the box the alpha map
    covers at [pos]: the removal lowers the samples by one, the addition
    raises them by one. *)
Definition in_box (alpha_map : Cv.Mat R) (pos : Cv.Point) (r c : Z) : bool :=
  (Cv.y pos <=? r) && (r <? Cv.y pos + Cv.rows alpha_map)
  && (Cv.x pos <=? c) && (c <? Cv.x pos + Cv.cols alpha_map).

Definition mock_blend : BlendModes :=
  {| remove_watermark_alpha_blend := fun image alpha_map pos logo_value =>
       Cv.mkMat (Cv.rows image) (Cv.cols image) (Cv.channels image)
                (fun r c ch =>
                   if in_box alpha_map pos r c
                   then Cv.at_ image r c ch - 1 else Cv.at_ image r c ch);
     add_watermark_alpha_blend := fun image alpha_map pos logo_value =>
       Cv.mkMat (Cv.rows image) (Cv.cols image) (Cv.channels image)
                (fun r c ch =>
                   if in_box alpha_map pos r c
                   then Cv.at_ image r c ch + 1 else Cv.at_ image r c ch) |}.

(** An engine with a 48x48 and a 96x96 alpha map of constant opacity 1/2
    and a white logo. *)
Definition engine : WatermarkEngine :=
  {| alpha_map_small_ := Cv.mkMat 48 48 1 (fun _ _ _ => (1 / 2)%R);
     alpha_map_large_ := Cv.mkMat 96 96 1 (fun _ _ _ => (1 / 2)%R);
     logo_value_ := 255%R |}.

(** A [w] x [h] three-channel image of uniform gray. *)
Definition bgr_image (w h : Z) : Cv.Mat Z :=
  Cv.mkMat h w 3 (fun _ _ _ => 128).

(** A default-constructed [cv::Mat]. *)
Definition empty_image : Cv.Mat Z := Cv.mkMat 0 0 0 (fun _ _ _ => 0).

(** Float narrowing taken as exact. *)
Definition exact_float (v : R) : R := v.

(** Standard deviation 20 on strips eight rows tall, 10 elsewhere. *)
Definition textured_strip (m : Cv.Mat Z) : R :=
  if Cv.rows m =? 8 then 20%R else 10%R.

End Fixture.

From Stdlib Require Import Ascii.

(* ===================================================================== *)
(** ** Building the engine: alpha maps from the background captures *)
(* ===================================================================== *)

(** What the constructors take from outside the engine: the PNG decoder
    ([cv::imdecode] with IMREAD_COLOR), [cv::resize] on an 8-bit capture,
    and [calculate_alpha_map] of core/blend_modes.hpp. *)
Record AlphaSource : Type := {
  imdecode_color : list Z -> Cv.Mat Z;
  resize_8U : Cv.Mat Z -> Z -> Z -> Cv.InterpolationFlags -> Cv.Mat Z;
  calculate_alpha_map : Cv.Mat Z -> Cv.Mat R
}.

Section Construction.

Variable src : AlphaSource.

(** "Resize if needed" in [init_alpha_maps]. *)
Definition resize_capture (capture : Cv.Mat Z) (side : Z) : Cv.Mat Z :=
  if negb (Cv.cols capture =? side) || negb (Cv.rows capture =? side)
  then resize_8U src capture side side Cv.INTER_AREA
  else capture.

(** [WatermarkEngine::init_alpha_maps]: the two members it assigns. *)
Definition init_alpha_maps (bg_small bg_large : Cv.Mat Z)
  : Cv.Mat R * Cv.Mat R :=
  let small_resized := resize_capture bg_small 48 in
  let large_resized := resize_capture bg_large 96 in
  (calculate_alpha_map src small_resized,
   calculate_alpha_map src large_resized).

(** [WatermarkEngine::WatermarkEngine(png_data_small, png_size_small,
    png_data_large, png_size_large, logo_value)] *)
Definition WatermarkEngine_embedded (png_small png_large : list Z)
    (logo_value : R) : Exc WatermarkEngine :=
  let bg_small := imdecode_color src png_small in
  if Cv.empty bg_small then
    Throws "Failed to decode embedded small background capture"
  else
    let bg_large := imdecode_color src png_large in
    if Cv.empty bg_large then
      Throws "Failed to decode embedded large background capture"
    else
      let maps := init_alpha_maps bg_small bg_large in
      Returns {| alpha_map_small_ := fst maps;
                 alpha_map_large_ := snd maps;
                 logo_value_ := logo_value |}.

End Construction.

(** The sizes every other member function counts on. *)
Definition standard_alpha_maps (self : WatermarkEngine) : Prop :=
  Cv.cols (alpha_map_small_ self) = 48 /\
  Cv.rows (alpha_map_small_ self) = 48 /\
  Cv.cols (alpha_map_large_ self) = 96 /\
  Cv.rows (alpha_map_large_ self) = 96.

(** [r] lies inside a [cols] x [rows] matrix. *)
Definition rect_inside (r : Rect.t) (cols rows : Z) : Prop :=
  0 <= Rect.x r /\ 0 <= Rect.y r /\
  Rect.x r + Rect.width r <= cols /\ Rect.y r + Rect.height r <= rows.

(** [inner] lies inside [outer]. *)
Definition rect_within (inner outer : Rect.t) : Prop :=
  Rect.x outer <= Rect.x inner /\ Rect.y outer <= Rect.y inner /\
  Rect.x inner + Rect.width inner <= Rect.x outer + Rect.width outer /\
  Rect.y inner + Rect.height inner <= Rect.y outer + Rect.height outer.

(** The sizes OpenCV documents for the operations of the guided search: a
    sub-matrix has the size of its rectangle, [convertTo] keeps the size,
    [resize] yields the size asked for, the result of [matchTemplate] has one
    entry per placement of the template, and [minMaxLoc] locates the maximum
    inside the matrix it is given. *)
Definition exact_geometry (cv : OpenCV) : Prop :=
  (forall (m : Cv.Mat Z) r,
      Cv.cols (submat cv m r) = Rect.width r /\
      Cv.rows (submat cv m r) = Rect.height r) /\
  (forall m alpha,
      Cv.cols (convertTo_32F cv m alpha) = Cv.cols m /\
      Cv.rows (convertTo_32F cv m alpha) = Cv.rows m) /\
  (forall m w h interp,
      Cv.cols (resize cv m w h interp) = w /\
      Cv.rows (resize cv m w h interp) = h) /\
  (forall img tmpl,
      Cv.cols (matchTemplate_CCOEFF_NORMED cv img tmpl)
      = Cv.cols img - Cv.cols tmpl + 1 /\
      Cv.rows (matchTemplate_CCOEFF_NORMED cv img tmpl)
      = Cv.rows img - Cv.rows tmpl + 1) /\
  (forall m,
      0 < Cv.cols m -> 0 < Cv.rows m ->
      0 <= Cv.x (max_loc (minMaxLoc cv m)) < Cv.cols m /\
      0 <= Cv.y (max_loc (minMaxLoc cv m)) < Cv.rows m).

(** A candidate matched at a scale between [lo] and [hi] whose square lies
    inside a [cols] x [rows] search region. *)
Definition fits_region (lo hi cols rows : Z) (c : Candidate) : Prop :=
  lo <= scale c <= hi /\
  0 <= Cv.x (position c) /\ 0 <= Cv.y (position c) /\
  Cv.x (position c) + scale c <= cols /\
  Cv.y (position c) + scale c <= rows.

(* ===================================================================== *)
(** ** core/watermark_detector.cpp: the legacy detection interface *)
(* ===================================================================== *)

(** [get_fallback_watermark_region] *)
Definition get_fallback_watermark_region (image_width image_height : Z)
  : Rect.t :=
  let config := get_watermark_config image_width image_height in
  let pos := get_position config image_width image_height in
  Rect.make (Cv.x pos) (Cv.y pos) (logo_size config) (logo_size config).

Section Legacy_detector.

Variable cv : OpenCV.
Variable to_float : R -> R.
Variable src : AlphaSource.

(** The embedded assets [embedded::bg_48_png] and [embedded::bg_96_png]. *)
Variable bg_48_png : list Z.
Variable bg_96_png : list Z.

(** [get_detection_engine]: the engine is built on first use and kept in
    the file-level [g_detection_engine], which the call may update.  The
    default logo value of the constructor is 255. *)
Definition get_detection_engine (g_detection_engine : option WatermarkEngine)
  : Exc (WatermarkEngine * option WatermarkEngine) :=
  match g_detection_engine with
  | Some engine => Returns (engine, g_detection_engine)
  | None =>
      match WatermarkEngine_embedded src bg_48_png bg_96_png 255 with
      | Throws what => Throws what
      | Returns engine => Returns (engine, Some engine)
      end
  end.

(** [detect_watermark_region]: the result and the singleton it leaves. *)
Definition detect_watermark_region
    (g_detection_engine : option WatermarkEngine)
    (image : Cv.Mat Z) (hint_rect : option Rect.t)
  : Exc (option DetectionResult.t * option WatermarkEngine) :=
  if Cv.empty image then Returns (None, g_detection_engine)
  else
    match get_detection_engine g_detection_engine with
    | Throws what => Throws what
    | Returns (engine, g) =>
        Returns (Some (detect_watermark cv to_float engine image None), g)
    end.

End Legacy_detector.

Module Fixture2.

(** A capture decoder that reads the side length from the first byte, a
    resize that yields the size asked for, and an alpha map that divides
    the first channel by 255. *)
Definition source : AlphaSource :=
  {| imdecode_color := fun bytes =>
       Cv.mkMat (hd 0 bytes) (hd 0 bytes) 3 (fun _ _ _ => 255);
     resize_8U := fun m w h interp =>
       Cv.mkMat h w (Cv.channels m) (fun _ _ ch => Cv.at_ m 0 0 ch);
     calculate_alpha_map := fun m =>
       Cv.mkMat (Cv.rows m) (Cv.cols m) 1
                (fun r c _ => (IZR (Cv.at_ m r c 0) / 255)%R) |}.

End Fixture2.

(* ===================================================================== *)
(** ** Files: [process_image] *)
(* ===================================================================== *)

(** [::tolower] in the "C" locale. *)
Definition tolower (c : Ascii.ascii) : Ascii.ascii :=
  let n := Ascii.nat_of_ascii c in
  if (65 <=? n)%nat && (n <=? 90)%nat then Ascii.ascii_of_nat (n + 32) else c.

(** [std::transform(ext.begin(), ext.end(), ext.begin(), ::tolower)] *)
Fixpoint transform_tolower (s : string) : string :=
  match s with
  | EmptyString => EmptyString
  | String c rest => String (tolower c) (transform_tolower rest)
  end.

(** The [cv::imwrite] parameter keys the code uses. *)
Inductive ImwriteFlags : Type :=
| IMWRITE_JPEG_QUALITY | IMWRITE_PNG_COMPRESSION | IMWRITE_WEBP_QUALITY.

(** [std::filesystem], [cv::imread] and [cv::imwrite] over paths of type
    [Path] and file-system states of type [World].  [imread_color] returns
    an empty matrix for a file it cannot read.  [imwrite] and
    [create_directories] may throw, and a call that throws leaves the file
    system as it found it; the queries ([exists], [is_directory],
    [is_regular_file], the directory listing) are taken not to throw. *)
Record Files (Path World : Type) : Type := {
  path_string : Path -> string;
  path_extension : Path -> string;
  path_filename : Path -> Path;
  parent_path : Path -> Path;
  path_empty : Path -> bool;
  path_append : Path -> Path -> Path;
  fs_exists : World -> Path -> bool;
  fs_is_directory : World -> Path -> bool;
  fs_is_regular_file : World -> Path -> bool;
  fs_directory_iterator : World -> Path -> list Path;
  fs_create_directories : World -> Path -> Exc World;
  imread_color : World -> Path -> Cv.Mat Z;
  imwrite :
    World -> Path -> Cv.Mat Z -> list (ImwriteFlags * Z) -> Exc (bool * World)
}.
Arguments path_string {Path World} _ _.
Arguments path_extension {Path World} _ _.
Arguments path_filename {Path World} _ _.
Arguments parent_path {Path World} _ _.
Arguments path_empty {Path World} _ _.
Arguments path_append {Path World} _ _ _.
Arguments fs_exists {Path World} _ _ _.
Arguments fs_is_directory {Path World} _ _ _.
Arguments fs_is_regular_file {Path World} _ _ _.
Arguments fs_directory_iterator {Path World} _ _ _.
Arguments fs_create_directories {Path World} _ _ _.
Arguments imread_color {Path World} _ _ _.
Arguments imwrite {Path World} _ _ _ _ _.

Module ProcessResult.

Record t : Type := make {
  success : bool;
  skipped : bool;
  confidence : R;
  message : string
}.

Definition with_success (r : t) (v : bool) : t :=
  make v (skipped r) (confidence r) (message r).
Definition with_skipped (r : t) (v : bool) : t :=
  make (success r) v (confidence r) (message r).
Definition with_confidence (r : t) (v : R) : t :=
  make (success r) (skipped r) v (message r).
Definition with_message (r : t) (v : string) : t :=
  make (success r) (skipped r) (confidence r) v.

End ProcessResult.

(** "Determine output format and quality" *)
Definition output_params (ext : string) : list (ImwriteFlags * Z) :=
  if String.eqb ext ".jpg" || String.eqb ext ".jpeg" then
    [(IMWRITE_JPEG_QUALITY, 100)]
  else if String.eqb ext ".png" then [(IMWRITE_PNG_COMPRESSION, 6)]
  else if String.eqb ext ".webp" then [(IMWRITE_WEBP_QUALITY, 101)]
  else [].

Section Process_image.

Variable cv : OpenCV.
Variable blend : BlendModes.
Variable to_float : R -> R.

Variables Path World : Type.
Variable files : Files Path World.

(** [fmt::format("{:.0f}", v)] *)
Variable format_0f : R -> string.

(** The work inside the [try] block once the image is loaded and not
    skipped: process, create the output directory, write. *)
Definition process_and_write (engine : WatermarkEngine) (w : World)
    (image : Cv.Mat Z) (output_path : Path) (remove : bool)
    (force_size : option WatermarkSize) (result : ProcessResult.t)
  : ProcessResult.t * World :=
  match (if remove then remove_watermark cv blend engine image force_size
         else add_watermark cv blend engine image force_size) with
  | Throws what =>
      (ProcessResult.with_message result ("Error: " ++ what), w)
  | Returns image =>
      let output_dir := parent_path files output_path in
      match (if negb (path_empty files output_dir)
                && negb (fs_exists files w output_dir)
             then fs_create_directories files w output_dir
             else Returns w) with
      | Throws what =>
          (ProcessResult.with_message result ("Error: " ++ what), w)
      | Returns w1 =>
          let ext := transform_tolower (path_extension files output_path) in
          let params := output_params ext in
          match imwrite files w1 output_path image params with
          | Throws what =>
              (ProcessResult.with_message result ("Error: " ++ what), w1)
          | Returns (write_success, w2) =>
              if negb write_success then
                (ProcessResult.with_message result "Failed to write image",
                 w2)
              else
                (ProcessResult.with_message
                   (ProcessResult.with_success result true)
                   (if remove then "Watermark removed"
                    else "Watermark added"),
                 w2)
          end
      end
  end.

(** [process_image]: the result and the file system it leaves. *)
Definition process_image (w : World) (input_path output_path : Path)
    (remove : bool) (engine : WatermarkEngine)
    (force_size : option WatermarkSize) (use_detection : bool)
    (detection_threshold : R) : ProcessResult.t * World :=
  let result := ProcessResult.make false false 0%R "" in
  let image := imread_color files w input_path in
  if Cv.empty image then
    (ProcessResult.with_message result "Failed to load image", w)
  else if use_detection && remove then
    let detection := detect_watermark cv to_float engine image force_size in
    let result :=
      ProcessResult.with_confidence
        result (DetectionResult.confidence detection) in
    if negb (DetectionResult.detected detection)
       && (if Rlt_dec (DetectionResult.confidence detection)
                      detection_threshold then true else false)
    then
      (ProcessResult.with_message
         (ProcessResult.with_success
            (ProcessResult.with_skipped result true) true)
         ("No watermark detected ("
            ++ format_0f
                 (to_float (DetectionResult.confidence detection * 100)%R)
            ++ "%), skipped"),
       w)
    else process_and_write engine w image output_path remove force_size result
  else process_and_write engine w image output_path remove force_size result.

End Process_image.

Module Fixture3.

(** The extension of a file name: from its last dot on. *)
Fixpoint extension_of (s : string) : string :=
  match s with
  | EmptyString => EmptyString
  | String c rest =>
      match extension_of rest with
      | EmptyString => if Ascii.eqb c "."%char then s else EmptyString
      | e => e
      end
  end.

(** A flat file system: the files written so far, newest first, under
    their names; nothing is a directory, nothing throws, every write
    succeeds. *)
Definition World : Type := list (string * Cv.Mat Z).

Definition lookup (w : World) (p : string) : option (Cv.Mat Z) :=
  match find (fun e => String.eqb (fst e) p) w with
  | Some e => Some (snd e)
  | None => None
  end.

Definition files : Files string World :=
  {| path_string := fun p => p;
     path_extension := extension_of;
     path_filename := fun p => p;
     parent_path := fun _ => EmptyString;
     path_empty := fun p => String.eqb p EmptyString;
     path_append := fun a b => (a ++ "/" ++ b)%string;
     fs_exists := fun w p =>
       match lookup w p with Some _ => true | None => false end;
     fs_is_directory := fun _ _ => false;
     fs_is_regular_file := fun w p =>
       match lookup w p with Some _ => true | None => false end;
     fs_directory_iterator := fun w _ => map fst w;
     fs_create_directories := fun w _ => Returns w;
     imread_color := fun w p =>
       match lookup w p with
       | Some m => m
       | None => Cv.mkMat 0 0 0 (fun _ _ _ => 0)
       end;
     imwrite := fun w p image params => Returns (true, (p, image) :: w) |}.

(** One 200 x 200 photo on disk. *)
Definition one_photo : World := [("a.jpg"%string, Fixture.bgr_image 200 200)].

Definition format_0f (v : R) : string := "?"%string.

End Fixture3.

(* ===================================================================== *)
(** ** gui/app/app_state.hpp *)
(* ===================================================================== *)

Inductive ProcessState : Type := Idle | Loaded | Processing | Completed | Error.

Definition ProcessState_eqb (a b : ProcessState) : bool :=
  match a, b with
  | Idle, Idle | Loaded, Loaded | Processing, Processing
  | Completed, Completed | Error, Error => true
  | _, _ => false
  end.

Module TextureHandle.

Record t : Type := make { id : Z }.

Definition valid (h : t) : bool := negb (id h =? 0).

End TextureHandle.

Module WatermarkInfo.

Record t : Type := make {
  size : WatermarkSize;
  position : Cv.Point;
  region : Rect.t
}.

Definition width (i : t) : Z :=
  match size i with Small => 48 | Large => 96 end.

Definition height (i : t) : Z := width i.

End WatermarkInfo.

Module ImageState.

Record t (Path : Type) : Type := make {
  file_path : option Path;
  original : Cv.Mat Z;
  processed : Cv.Mat Z;
  display : Cv.Mat Z;
  width : Z;
  height : Z;
  channels : Z
}.
Arguments make {Path} _ _ _ _ _ _ _.
Arguments file_path {Path} _.
Arguments original {Path} _.
Arguments processed {Path} _.
Arguments display {Path} _.
Arguments width {Path} _.
Arguments height {Path} _.
Arguments channels {Path} _.

(** [cv::Mat::release()] leaves the default-constructed matrix. *)
Definition released : Cv.Mat Z := Cv.mkMat 0 0 0 (fun _ _ _ => 0).

Definition has_image {Path} (s : t Path) : bool := negb (Cv.empty (original s)).
Definition has_processed {Path} (s : t Path) : bool :=
  negb (Cv.empty (processed s)).

Definition clear {Path} (s : t Path) : t Path :=
  make None released released released 0 0 0.

Definition with_processed {Path} (s : t Path) (m : Cv.Mat Z) : t Path :=
  make (file_path s) (original s) m (display s)
       (width s) (height s) (channels s).
Definition with_display {Path} (s : t Path) (m : Cv.Mat Z) : t Path :=
  make (file_path s) (original s) (processed s) m
       (width s) (height s) (channels s).

End ImageState.

Module ProcessOptions.

Record t : Type := make {
  remove_mode : bool;
  force_size : option WatermarkSize
}.

End ProcessOptions.

Module PreviewOptions.

Record t : Type := make {
  show_processed : bool;
  highlight_watermark : bool;
  split_view : bool;
  zoom : R;
  pan_x : R;
  pan_y : R
}.

Definition reset_view (o : t) : t :=
  make (show_processed o) (highlight_watermark o) (split_view o) 1%R 0%R 0%R.

Definition with_show_processed (o : t) (v : bool) : t :=
  make v (highlight_watermark o) (split_view o) (zoom o) (pan_x o) (pan_y o).

End PreviewOptions.

Module BatchState.

(** [size_t] counters are [nat]. *)
Record t (Path : Type) : Type := make {
  files : list Path;
  output_dir : option Path;
  current_index : nat;
  success_count : nat;
  fail_count : nat;
  in_progress : bool;
  cancel_requested : bool
}.
Arguments make {Path} _ _ _ _ _ _ _.
Arguments files {Path} _.
Arguments output_dir {Path} _.
Arguments current_index {Path} _.
Arguments success_count {Path} _.
Arguments fail_count {Path} _.
Arguments in_progress {Path} _.
Arguments cancel_requested {Path} _.

Definition clear {Path} (b : t Path) : t Path :=
  make [] None 0%nat 0%nat 0%nat false false.

Definition total {Path} (b : t Path) : nat := List.length (files b).

End BatchState.

Module AppState.

Record t (Path : Type) : Type := make {
  state : ProcessState;
  status_message : string;
  error_message : string;
  image : ImageState.t Path;
  watermark_info : option WatermarkInfo.t;
  process_options : ProcessOptions.t;
  preview_options : PreviewOptions.t;
  batch : BatchState.t Path;
  preview_texture : TextureHandle.t;
  texture_needs_update : bool;
  show_about_dialog : bool;
  show_settings_dialog : bool;
  dpi_scale : R
}.
Arguments make {Path} _ _ _ _ _ _ _ _ _ _ _ _ _.
Arguments state {Path} _.
Arguments status_message {Path} _.
Arguments error_message {Path} _.
Arguments image {Path} _.
Arguments watermark_info {Path} _.
Arguments process_options {Path} _.
Arguments preview_options {Path} _.
Arguments batch {Path} _.
Arguments preview_texture {Path} _.
Arguments texture_needs_update {Path} _.
Arguments show_about_dialog {Path} _.
Arguments show_settings_dialog {Path} _.
Arguments dpi_scale {Path} _.

(** The member initialisers. *)
Definition initial (Path : Type) : t Path :=
  make Idle "Ready" ""
       (ImageState.make None ImageState.released ImageState.released
                        ImageState.released 0 0 0)
       None
       (ProcessOptions.make true None)
       (PreviewOptions.make false true false 1%R 0%R 0%R)
       (BatchState.make [] None 0%nat 0%nat 0%nat false false)
       (TextureHandle.make 0) false false false 1%R.

Definition with_state {Path} (s : t Path) (v : ProcessState) : t Path :=
  make v (status_message s) (error_message s) (image s) (watermark_info s)
       (process_options s) (preview_options s) (batch s) (preview_texture s)
       (texture_needs_update s) (show_about_dialog s)
       (show_settings_dialog s) (dpi_scale s).
Definition with_status_message {Path} (s : t Path) (v : string) : t Path :=
  make (state s) v (error_message s) (image s) (watermark_info s)
       (process_options s) (preview_options s) (batch s) (preview_texture s)
       (texture_needs_update s) (show_about_dialog s)
       (show_settings_dialog s) (dpi_scale s).
Definition with_error_message {Path} (s : t Path) (v : string) : t Path :=
  make (state s) (status_message s) v (image s) (watermark_info s)
       (process_options s) (preview_options s) (batch s) (preview_texture s)
       (texture_needs_update s) (show_about_dialog s)
       (show_settings_dialog s) (dpi_scale s).
Definition with_image {Path} (s : t Path) (v : ImageState.t Path) : t Path :=
  make (state s) (status_message s) (error_message s) v (watermark_info s)
       (process_options s) (preview_options s) (batch s) (preview_texture s)
       (texture_needs_update s) (show_about_dialog s)
       (show_settings_dialog s) (dpi_scale s).
Definition with_watermark_info {Path} (s : t Path)
    (v : option WatermarkInfo.t) : t Path :=
  make (state s) (status_message s) (error_message s) (image s) v
       (process_options s) (preview_options s) (batch s) (preview_texture s)
       (texture_needs_update s) (show_about_dialog s)
       (show_settings_dialog s) (dpi_scale s).
Definition with_process_options {Path} (s : t Path)
    (v : ProcessOptions.t) : t Path :=
  make (state s) (status_message s) (error_message s) (image s)
       (watermark_info s) v (preview_options s) (batch s) (preview_texture s)
       (texture_needs_update s) (show_about_dialog s)
       (show_settings_dialog s) (dpi_scale s).
Definition with_preview_options {Path} (s : t Path)
    (v : PreviewOptions.t) : t Path :=
  make (state s) (status_message s) (error_message s) (image s)
       (watermark_info s) (process_options s) v (batch s) (preview_texture s)
       (texture_needs_update s) (show_about_dialog s)
       (show_settings_dialog s) (dpi_scale s).
Definition with_batch {Path} (s : t Path) (v : BatchState.t Path) : t Path :=
  make (state s) (status_message s) (error_message s) (image s)
       (watermark_info s) (process_options s) (preview_options s) v
       (preview_texture s) (texture_needs_update s) (show_about_dialog s)
       (show_settings_dialog s) (dpi_scale s).
Definition with_preview_texture {Path} (s : t Path)
    (v : TextureHandle.t) : t Path :=
  make (state s) (status_message s) (error_message s) (image s)
       (watermark_info s) (process_options s) (preview_options s) (batch s)
       v (texture_needs_update s) (show_about_dialog s)
       (show_settings_dialog s) (dpi_scale s).
Definition with_texture_needs_update {Path} (s : t Path) (v : bool)
  : t Path :=
  make (state s) (status_message s) (error_message s) (image s)
       (watermark_info s) (process_options s) (preview_options s) (batch s)
       (preview_texture s) v (show_about_dialog s)
       (show_settings_dialog s) (dpi_scale s).

(** [AppState::reset]; [dpi_scale] is not reset. *)
Definition reset {Path} (s : t Path) : t Path :=
  make Idle "Ready" "" (ImageState.clear (image s)) None
       (process_options s)
       (PreviewOptions.with_show_processed
          (PreviewOptions.reset_view (preview_options s)) false)
       (BatchState.clear (batch s))
       (preview_texture s) true (show_about_dialog s)
       (show_settings_dialog s) (dpi_scale s).

Definition can_process {Path} (s : t Path) : bool :=
  ProcessState_eqb (state s) Loaded || ProcessState_eqb (state s) Completed.

Definition can_save {Path} (s : t Path) : bool :=
  ProcessState_eqb (state s) Completed
  && ImageState.has_processed (image s).

End AppState.

(* ===================================================================== *)
(** ** gui/app/app_controller.cpp *)
(* ===================================================================== *)

(** [AppController::supported_extensions] *)
Definition supported_extensions : list string :=
  [".jpg"; ".jpeg"; ".png"; ".webp"; ".bmp"]%string.

(** The extension test of [AppController::is_supported_extension], on the
    extension string of the path. *)
Definition is_supported_extension_string (extension : string) : bool :=
  let ext := transform_tolower extension in
  existsb (String.eqb ext) supported_extensions.

Section Controller.

Variable cv : OpenCV.
Variable blend : BlendModes.

Variables Path World Backend : Type.
Variable files : Files Path World.

(** [IRenderBackend::destroy_texture] *)
Variable destroy_texture : Backend -> TextureHandle.t -> Backend.

(** [fmt::format("{}", n)] on an integer. *)
Variable format_int : Z -> string.

(** [process_image] as the controller calls it: its boolean outcome and
    the file system it leaves. *)
Variable process_image_ok :
  World -> Path -> Path -> bool -> WatermarkEngine -> option WatermarkSize ->
  bool * World.

(** The member [m_engine]. *)
Variable m_engine : WatermarkEngine.

(** [AppController::is_supported_extension] *)
Definition is_supported_extension (path : Path) : bool :=
  is_supported_extension_string (path_extension files path).

(** [AppController::update_watermark_info] *)
Definition update_watermark_info (m_state : AppState.t Path)
  : AppState.t Path :=
  if negb (ImageState.has_image (AppState.image m_state)) then
    AppState.with_watermark_info m_state None
  else
    let w := ImageState.width (AppState.image m_state) in
    let h := ImageState.height (AppState.image m_state) in
    let force_size :=
      ProcessOptions.force_size (AppState.process_options m_state) in
    let size := value_or force_size (get_watermark_size w h) in
    let config := get_watermark_config w h in
    let config :=
      match force_size with
      | Some _ =>
          match size with
          | Small => mkWatermarkPosition 32 32 48
          | Large => mkWatermarkPosition 64 64 96
          end
      | None => config
      end in
    let pos := get_position config w h in
    let info :=
      WatermarkInfo.make
        size pos
        (Rect.make (Cv.x pos) (Cv.y pos)
                   (logo_size config) (logo_size config)) in
    AppState.with_watermark_info m_state (Some info).

(** [AppController::update_display_image] *)
Definition update_display_image (m_state : AppState.t Path)
  : AppState.t Path :=
  let image := AppState.image m_state in
  if negb (ImageState.has_image image) then
    AppState.with_texture_needs_update
      (AppState.with_image
         m_state (ImageState.with_display image ImageState.released))
      true
  else
    let display :=
      if PreviewOptions.show_processed (AppState.preview_options m_state)
         && ImageState.has_processed image
      then ImageState.processed image
      else ImageState.original image in
    AppState.with_texture_needs_update
      (AppState.with_image m_state (ImageState.with_display image display))
      true.

(** [AppController::load_image]: the outcome, the state and the backend. *)
Definition load_image (m_state : AppState.t Path) (m_backend : Backend)
    (w : World) (path : Path) : bool * AppState.t Path * Backend :=
  let image := imread_color files w path in
  if Cv.empty image then
    let m_state := AppState.with_state m_state Error in
    let m_state :=
      AppState.with_error_message
        m_state ("Failed to load image: " ++ path_string files path) in
    let m_state := AppState.with_status_message m_state "Load failed" in
    (false, m_state, m_backend)
  else
    let '(m_state, m_backend) :=
      if TextureHandle.valid (AppState.preview_texture m_state) then
        (AppState.with_preview_texture m_state (TextureHandle.make 0),
         destroy_texture m_backend (AppState.preview_texture m_state))
      else (m_state, m_backend) in
    let m_state := AppState.reset m_state in
    let m_state :=
      AppState.with_image
        m_state
        (ImageState.make (Some path) image
           (ImageState.processed (AppState.image m_state))
           (ImageState.display (AppState.image m_state))
           (Cv.cols image) (Cv.rows image) (Cv.channels image)) in
    let m_state := update_watermark_info m_state in
    let m_state := update_display_image m_state in
    let m_state := AppState.with_state m_state Loaded in
    let m_state :=
      AppState.with_status_message
        m_state
        ("Loaded: " ++ format_int (Cv.cols image) ++ "x"
           ++ format_int (Cv.rows image)) in
    let m_state := AppState.with_error_message m_state "" in
    (true, m_state, m_backend).

(** [AppController::save_image]: the return value, the state and the file
    system.  The function has no [try] block: what [create_directories] or
    [cv::imwrite] throws leaves it. *)
Definition save_image (m_state : AppState.t Path) (w : World) (path : Path)
  : Exc (bool * AppState.t Path * World) :=
  if negb (AppState.can_save m_state) then Returns (false, m_state, w)
  else
    let ext := transform_tolower (path_extension files path) in
    let params := output_params ext in
    let output_dir := parent_path files path in
    match (if negb (path_empty files output_dir)
              && negb (fs_exists files w output_dir)
           then fs_create_directories files w output_dir
           else Returns w) with
    | Throws what => Throws what
    | Returns w1 =>
        match imwrite files w1 path
                      (ImageState.processed (AppState.image m_state))
                      params with
        | Throws what => Throws what
        | Returns (success, w2) =>
            if success then
              Returns
                (true,
                 AppState.with_status_message
                   m_state
                   ("Saved: "
                      ++ path_string files (path_filename files path)),
                 w2)
            else
              Returns
                (false,
                 AppState.with_status_message
                   (AppState.with_error_message
                      m_state ("Failed to save: " ++ path_string files path))
                   "Save failed",
                 w2)
        end
    end.

(** [AppController::close_image] *)
Definition close_image (m_state : AppState.t Path) (m_backend : Backend)
  : AppState.t Path * Backend :=
  let '(m_state, m_backend) :=
    if TextureHandle.valid (AppState.preview_texture m_state) then
      (AppState.with_preview_texture m_state (TextureHandle.make 0),
       destroy_texture m_backend (AppState.preview_texture m_state))
    else (m_state, m_backend) in
  (AppState.reset m_state, m_backend).

(** [AppController::process_current] *)
Definition process_current (m_state : AppState.t Path) : AppState.t Path :=
  if negb (ImageState.has_image (AppState.image m_state)) then m_state
  else
    let m_state := AppState.with_state m_state Processing in
    let m_state := AppState.with_status_message m_state "Processing..." in
    let m_state :=
      AppState.with_image
        m_state
        (ImageState.with_processed
           (AppState.image m_state)
           (ImageState.original (AppState.image m_state))) in
    let options := AppState.process_options m_state in
    match (if ProcessOptions.remove_mode options then
             remove_watermark cv blend m_engine
               (ImageState.processed (AppState.image m_state))
               (ProcessOptions.force_size options)
           else
             add_watermark cv blend m_engine
               (ImageState.processed (AppState.image m_state))
               (ProcessOptions.force_size options)) with
    | Returns processed =>
        let m_state :=
          AppState.with_image
            m_state
            (ImageState.with_processed (AppState.image m_state) processed) in
        let m_state :=
          AppState.with_preview_options
            m_state
            (PreviewOptions.with_show_processed
               (AppState.preview_options m_state) true) in
        let m_state := update_display_image m_state in
        let m_state := AppState.with_state m_state Completed in
        let m_state :=
          AppState.with_status_message
            m_state
            (if ProcessOptions.remove_mode options
             then "Watermark removed" else "Watermark added") in
        AppState.with_error_message m_state ""
    | Throws what =>
        let m_state := AppState.with_state m_state Error in
        let m_state := AppState.with_error_message m_state what in
        AppState.with_status_message m_state "Processing failed"
    end.

(** [AppController::revert_to_original] *)
Definition revert_to_original (m_state : AppState.t Path) : AppState.t Path :=
  if negb (ImageState.has_image (AppState.image m_state)) then m_state
  else
    let m_state :=
      AppState.with_preview_options
        m_state
        (PreviewOptions.with_show_processed
           (AppState.preview_options m_state) false) in
    let m_state := update_display_image m_state in
    AppState.with_status_message m_state "Reverted to original".

(** [AppController::set_remove_mode] *)
Definition set_remove_mode (m_state : AppState.t Path) (remove : bool)
  : AppState.t Path :=
  AppState.with_process_options
    m_state
    (ProcessOptions.make
       remove (ProcessOptions.force_size (AppState.process_options m_state))).

(** [AppController::set_force_size] *)
Definition set_force_size (m_state : AppState.t Path)
    (size : option WatermarkSize) : AppState.t Path :=
  let m_state :=
    AppState.with_process_options
      m_state
      (ProcessOptions.make
         (ProcessOptions.remove_mode (AppState.process_options m_state))
         size) in
  if ImageState.has_image (AppState.image m_state)
  then update_watermark_info m_state
  else m_state.

(** [AppController::toggle_preview] *)
Definition toggle_preview (m_state : AppState.t Path) : AppState.t Path :=
  if negb (ImageState.has_image (AppState.image m_state)) then m_state
  else if ImageState.has_processed (AppState.image m_state) then
    let m_state :=
      AppState.with_preview_options
        m_state
        (PreviewOptions.with_show_processed
           (AppState.preview_options m_state)
           (negb (PreviewOptions.show_processed
                    (AppState.preview_options m_state)))) in
    update_display_image m_state
  else m_state.

(** [AppController::add_batch_files] *)
Definition add_batch_files (m_state : AppState.t Path) (w : World)
    (new_files : list Path) : AppState.t Path :=
  let batch := AppState.batch m_state in
  let accepted :=
    filter (fun file =>
              is_supported_extension file && fs_is_regular_file files w file)
           new_files in
  AppState.with_batch
    m_state
    (BatchState.make
       (BatchState.files batch ++ accepted) (BatchState.output_dir batch)
       (BatchState.current_index batch) (BatchState.success_count batch)
       (BatchState.fail_count batch) (BatchState.in_progress batch)
       (BatchState.cancel_requested batch)).

(** [AppController::set_batch_output_dir] *)
Definition set_batch_output_dir (m_state : AppState.t Path) (dir : Path)
  : AppState.t Path :=
  let batch := AppState.batch m_state in
  AppState.with_batch
    m_state
    (BatchState.make
       (BatchState.files batch) (Some dir)
       (BatchState.current_index batch) (BatchState.success_count batch)
       (BatchState.fail_count batch) (BatchState.in_progress batch)
       (BatchState.cancel_requested batch)).

(** [AppController::start_batch_processing] *)
Definition start_batch_processing (m_state : AppState.t Path)
  : AppState.t Path :=
  let batch := AppState.batch m_state in
  match BatchState.files batch with
  | [] => m_state
  | _ :: _ =>
      AppState.with_batch
        m_state
        (BatchState.make
           (BatchState.files batch) (BatchState.output_dir batch)
           0%nat 0%nat 0%nat true false)
  end.

(** [AppController::process_batch_next]: the return value, the state and
    the file system. *)
Definition process_batch_next (m_state : AppState.t Path) (w : World)
  : bool * AppState.t Path * World :=
  let batch := AppState.batch m_state in
  if negb (BatchState.in_progress batch) then (false, m_state, w)
  else if BatchState.cancel_requested batch then
    let batch :=
      BatchState.make
        (BatchState.files batch) (BatchState.output_dir batch)
        (BatchState.current_index batch) (BatchState.success_count batch)
        (BatchState.fail_count batch) false
        (BatchState.cancel_requested batch) in
    (false,
     AppState.with_status_message
       (AppState.with_batch m_state batch) "Batch cancelled",
     w)
  else
    match nth_error (BatchState.files batch)
                    (BatchState.current_index batch) with
    | None =>
        (* current_index >= files.size() *)
        let done :=
          BatchState.make
            (BatchState.files batch) (BatchState.output_dir batch)
            (BatchState.current_index batch) (BatchState.success_count batch)
            (BatchState.fail_count batch) false
            (BatchState.cancel_requested batch) in
        (false,
         AppState.with_status_message
           (AppState.with_batch m_state done)
           ("Batch complete: "
              ++ format_int (Z.of_nat (BatchState.success_count batch))
              ++ " ok, "
              ++ format_int (Z.of_nat (BatchState.fail_count batch))
              ++ " failed"),
         w)
    | Some input =>
        let output :=
          match BatchState.output_dir batch with
          | Some dir => path_append files dir (path_filename files input)
          | None => input
          end in
        let '(success, w) :=
          process_image_ok
            w input output
            (ProcessOptions.remove_mode (AppState.process_options m_state))
            m_engine
            (ProcessOptions.force_size (AppState.process_options m_state)) in
        let batch :=
          BatchState.make
            (BatchState.files batch) (BatchState.output_dir batch)
            (S (BatchState.current_index batch))
            (if success then S (BatchState.success_count batch)
             else BatchState.success_count batch)
            (if success then BatchState.fail_count batch
             else S (BatchState.fail_count batch))
            (BatchState.in_progress batch)
            (BatchState.cancel_requested batch) in
        (Nat.ltb (BatchState.current_index batch)
                 (List.length (BatchState.files batch)),
         AppState.with_status_message
           (AppState.with_batch m_state batch)
           ("Batch: "
              ++ format_int (Z.of_nat (BatchState.current_index batch))
              ++ "/"
              ++ format_int
                   (Z.of_nat (List.length (BatchState.files batch)))),
         w)
    end.

(** [AppController::cancel_batch] *)
Definition cancel_batch (m_state : AppState.t Path) : AppState.t Path :=
  let batch := AppState.batch m_state in
  AppState.with_batch
    m_state
    (BatchState.make
       (BatchState.files batch) (BatchState.output_dir batch)
       (BatchState.current_index batch) (BatchState.success_count batch)
       (BatchState.fail_count batch) (BatchState.in_progress batch) true).

(** [AppController::clear_batch] *)
Definition clear_batch (m_state : AppState.t Path) : AppState.t Path :=
  AppState.with_batch m_state (BatchState.clear (AppState.batch m_state)).


End Controller.

(** The counters of a batch add up to its position, which stays within the
    queue. *)
Definition batch_counters_consistent {Path} (b : BatchState.t Path) : Prop :=
  (BatchState.success_count b + BatchState.fail_count b
   = BatchState.current_index b)%nat /\
  (BatchState.current_index b <= List.length (BatchState.files b))%nat.

(** The recorded dimensions are those of the loaded image. *)
Definition dimensions_recorded {Path} (s : AppState.t Path) : Prop :=
  ImageState.width (AppState.image s)
  = Cv.cols (ImageState.original (AppState.image s)) /\
  ImageState.height (AppState.image s)
  = Cv.rows (ImageState.original (AppState.image s)).

(* ===================================================================== *)
(** ** cli/cli_app.cpp *)
(* ===================================================================== *)

Module Cli.

(** [struct ProcessResult] of the anonymous namespace: the two [int]
    counters, each incremented at most once per argument or directory
    entry. *)
Record ProcessResult : Type := mkProcessResult { success : Z; fail : Z }.

(** [!arg.empty() && arg[0] == '-'] *)
Definition is_flag (arg : string) : bool :=
  match arg with
  | EmptyString => false
  | String c _ => Ascii.eqb c "-"%char
  end.

(** The loop of [is_simple_mode] over [argv[1]], [argv[2]], ... *)
Fixpoint no_flag_among (args : list string) : bool :=
  match args with
  | [] => true
  | arg :: rest => if is_flag arg then false else no_flag_among rest
  end.

(** [is_simple_mode(argc, argv)], with [argc] the length of [argv]. *)
Definition is_simple_mode (argv : list string) : bool :=
  if Z.of_nat (List.length argv) <? 2 then false
  else no_flag_among (tl argv).

(** The extension filter of the directory loop in [run]: an entry is
    processed unless its lower-cased extension differs from all five. *)
Definition batch_accepts (ext : string) : bool :=
  negb (negb (String.eqb ext ".jpg") && negb (String.eqb ext ".jpeg")
        && negb (String.eqb ext ".png") && negb (String.eqb ext ".webp")
        && negb (String.eqb ext ".bmp")).

Section App.

Variables Path World : Type.
Variable files : Files Path World.

(** [fs::path] built from an argument string. *)
Variable path_of : string -> Path.

(** [process_image] as this file calls it: its boolean outcome and the
    file system it leaves. *)
Variable process_image_ok :
  World -> Path -> Path -> bool -> WatermarkEngine -> option WatermarkSize ->
  bool * World.

Variable src : AlphaSource.
Variable bg_48_png : list Z.
Variable bg_96_png : list Z.

(** [process_single] *)
Definition process_single (w : World) (input output : Path) (remove : bool)
    (engine : WatermarkEngine) (force_size : option WatermarkSize)
    (result : ProcessResult) : ProcessResult * World :=
  let '(ok, w) := process_image_ok w input output remove engine force_size in
  if ok then (mkProcessResult (success result + 1) (fail result), w)
  else (mkProcessResult (success result) (fail result + 1), w).



(** The body of the directory loop of [run]. *)
Definition batch_step (engine : WatermarkEngine) (output : Path)
    (remove_mode : bool) (force_size : option WatermarkSize)
    (acc : ProcessResult * World) (entry : Path) : ProcessResult * World :=
  let '(result, w) := acc in
  if negb (fs_is_regular_file files w entry) then acc
  else
    let ext := transform_tolower (path_extension files entry) in
    if negb (batch_accepts ext) then acc
    else
      let out_file := path_append files output (path_filename files entry) in
      process_single w entry out_file remove_mode engine force_size result.

(** [run] from the point where the command line has been parsed into the
    input and output paths and the two force flags: the exit code, the
    counters and the file system.  The directory listing is taken when the
    loop starts. *)
Definition run_with_options (input_path output_path : string)
    (force_small force_large : bool) (w : World)
  : Z * ProcessResult * World :=
  let remove_mode := true in
  let result := mkProcessResult 0 0 in
  if force_small && force_large then (1, result, w)
  else
    let force_size :=
      if force_small then Some Small
      else if force_large then Some Large else None in
    match WatermarkEngine_embedded src bg_48_png bg_96_png 255 with
    | Throws what => (1, result, w)
    | Returns engine =>
        let input := path_of input_path in
        let output := path_of output_path in
        if fs_is_directory files w input then
          match (if negb (fs_exists files w output)
                 then fs_create_directories files w output
                 else Returns w) with
          | Throws what => (1, result, w)
          | Returns w =>
              let '(result, w) :=
                fold_left (batch_step engine output remove_mode force_size)
                          (fs_directory_iterator files w input) (result, w) in
              (if fail result >? 0 then 1 else 0, result, w)
          end
        else
          let '(result, w) :=
            process_single w input output remove_mode engine force_size
                           result in
          (if fail result >? 0 then 1 else 0, result, w)
    end.

End App.

End Cli.

Module Fixture4.

(** The controller's collaborators on the flat file system: a backend that
    logs the textures it destroys, and [process_image] without detection. *)
Definition Backend : Type := list Z.

Definition destroy_texture (b : Backend) (h : TextureHandle.t) : Backend :=
  TextureHandle.id h :: b.

Definition format_int (n : Z) : string := "?"%string.

Definition process_image_ok (w : Fixture3.World) (input output : string)
    (remove : bool) (engine : WatermarkEngine)
    (force_size : option WatermarkSize) : bool * Fixture3.World :=
  let out :=
    process_image (Fixture.mock_cv (1 / 2) (fun _ => 0%R)) Fixture.mock_blend
                  Fixture.exact_float string Fixture3.World Fixture3.files
                  Fixture3.format_0f w input output remove engine force_size
                  false (25 / 100) in
  (ProcessResult.success (fst out), snd out).

(** A controller state with the 200 x 200 photo loaded. *)
Definition loaded : AppState.t string :=
  AppState.with_image
    (AppState.initial string)
    (ImageState.make (Some "a.jpg"%string) (Fixture.bgr_image 200 200)
                     ImageState.released ImageState.released 200 200 3).

(** A controller state with two files queued, the second of them missing
    from the file system. *)
Definition queued : AppState.t string :=
  AppState.with_batch
    (AppState.initial string)
    (BatchState.make ["a.jpg"; "b.png"]%string None
                     0%nat 0%nat 0%nat false false).

End Fixture4.

(* ===================================================================== *)
(** * Part II: properties *)
(* ===================================================================== *)

(** ** Size classification *)

Lemma gtb_1024 (n : Z) : (n >? 1024) = true <-> n > 1024.
Proof. rewrite Z.gtb_lt. lia. Qed.

Lemma classifier_cases (w h : Z) :
  (w > 1024 /\ h > 1024 /\ get_watermark_size w h = Large) \/
  (~ (w > 1024 /\ h > 1024) /\ get_watermark_size w h = Small).
Proof.
  unfold get_watermark_size.
  destruct (w >? 1024) eqn:Hw; destruct (h >? 1024) eqn:Hh; cbn;
    try (apply gtb_1024 in Hw); try (apply gtb_1024 in Hh);
    try (left; repeat split; (lia || reflexivity));
    right; split; try reflexivity; intros [Hw' Hh'];
    try (apply gtb_1024 in Hw'; congruence);
    try (apply gtb_1024 in Hh'; congruence).
Qed.

(** C2: the size classifier returns Large if and only if both the width and
    the height are strictly greater than 1024 and Small in every other case;
    the configuration record follows the same test (96-pixel logo with 64px
    margins against 48-pixel logo with 32px margins); a 1024x1024 image is
    Small. *)
Theorem get_watermark_size_large_iff :
  forall w h : Z,
    (get_watermark_size w h = Large <-> (w > 1024 /\ h > 1024)) /\
    (get_watermark_size w h = Small <-> ~ (w > 1024 /\ h > 1024)) /\
    (get_watermark_config w h =
       match get_watermark_size w h with
       | Large => mkWatermarkPosition 64 64 96
       | Small => mkWatermarkPosition 32 32 48
       end) /\
    get_watermark_size 1024 1024 = Small.
Proof.
  intros w h.
  assert (Hcfg : get_watermark_config w h =
                 match get_watermark_size w h with
                 | Large => mkWatermarkPosition 64 64 96
                 | Small => mkWatermarkPosition 32 32 48
                 end).
  { unfold get_watermark_config, get_watermark_size.
    destruct ((w >? 1024) && (h >? 1024)); reflexivity. }
  destruct (classifier_cases w h) as [(Hw & Hh & E) | (Hn & E)].
  - split; [| split; [| split]].
    + split; intros _; [split; assumption | exact E].
    + split.
      * intros E'. rewrite E in E'. discriminate.
      * intros Hc. exfalso. apply Hc. split; assumption.
    + exact Hcfg.
    + reflexivity.
  - split; [| split; [| split]].
    + split.
      * intros E'. rewrite E in E'. discriminate.
      * intros Hc. exfalso. exact (Hn Hc).
    + split; intros _; [exact Hn | exact E].
    + exact Hcfg.
    + reflexivity.
Qed.

(** C9 as stated does not hold: its fourth example asks for Small at
    1025 x 2000, where both sides exceed 1024 and the classifier answers
    Large. *)
Lemma get_watermark_size_boundaries_as_stated_fail :
  ~ (get_watermark_size 1024 1024 = Small /\
     get_watermark_size 1025 1025 = Large /\
     get_watermark_size 2000 500 = Small /\
     get_watermark_size 1025 2000 = Small).
Proof. intros (_ & _ & _ & H). cbv in H. discriminate H. Qed.

(** C9 (amended): the boundary examples of the size classifier are
    classify(1024, 1024) = Small, classify(1025, 1025) = Large,
    classify(2000, 500) = Small, and classify(1025, 2000) = Large since both
    sides exceed 1024. *)
Theorem get_watermark_size_boundaries :
  get_watermark_size 1024 1024 = Small /\
  get_watermark_size 1025 1025 = Large /\
  get_watermark_size 2000 500 = Small /\
  get_watermark_size 1025 2000 = Large.
Proof. repeat split; reflexivity. Qed.

(** ** The detector *)

Section Detector_properties.

Variable cv : OpenCV.
Variable to_float : R -> R.
Variable self : WatermarkEngine.

Lemma roi_in_bounds image force_size :
  roi_x1 image < roi_x2 self image force_size ->
  roi_y1 image < roi_y2 self image force_size ->
  roi_out_of_bounds self image force_size = false.
Proof.
  intros Hx Hy. unfold roi_out_of_bounds.
  apply orb_false_iff. split; rewrite Z.geb_leb; apply Z.leb_gt; assumption.
Qed.

Lemma roi_degenerate image force_size :
  roi_x1 image >= roi_x2 self image force_size \/
  roi_y1 image >= roi_y2 self image force_size ->
  roi_out_of_bounds self image force_size = true.
Proof.
  intros H. unfold roi_out_of_bounds. apply orb_true_iff.
  destruct H as [H | H]; [left | right]; rewrite Z.geb_leb; apply Z.leb_le; lia.
Qed.

(** The result on the early exit of the circuit breaker. *)
Lemma detect_watermark_rejected image force_size :
  Cv.empty image = false ->
  roi_out_of_bounds self image force_size = false ->
  (spatial_score cv self image force_size < kSpatialThreshold)%R ->
  detect_watermark cv to_float self image force_size =
  DetectionResult.make
    false
    (to_float (spatial_score cv self image force_size * (5 / 10))%R)
    (detect_region self image force_size)
    (detect_size image force_size)
    (to_float (spatial_score cv self image force_size)) 0%R 0%R.
Proof.
  intros He Hr Hs. unfold detect_watermark. rewrite He, Hr.
  destruct (Rlt_dec _ kSpatialThreshold) as [_ | Hn]; [reflexivity | ].
  contradiction.
Qed.

(** The result when all three stages run. *)
Lemma detect_watermark_fused image force_size :
  Cv.empty image = false ->
  roi_out_of_bounds self image force_size = false ->
  ~ (spatial_score cv self image force_size < kSpatialThreshold)%R ->
  detect_watermark cv to_float self image force_size =
  DetectionResult.make
    (if Rge_dec
          (to_float (clamp (fused_confidence cv self image force_size) 0 1))
          (kDetectionThreshold to_float)
     then true else false)
    (to_float (clamp (fused_confidence cv self image force_size) 0 1))
    (detect_region self image force_size)
    (detect_size image force_size)
    (to_float (spatial_score cv self image force_size))
    (to_float (grad_score cv self image force_size))
    (to_float (var_score cv self image force_size)).
Proof.
  intros He Hr Hs. unfold detect_watermark. rewrite He, Hr.
  destruct (Rlt_dec _ kSpatialThreshold) as [Hlt | _]; [contradiction | ].
  reflexivity.
Qed.

(** C1: on a non-empty image whose clamped candidate region is non-empty,
    a stage-1 score below 0.25 ends the detection at once with confidence
    spatial_score * 0.5, the gradient and variance scores still at zero and
    nothing detected; otherwise the confidence is the weighted sum
    0.50 * spatial + 0.30 * gradient + 0.20 * variance clamped to [0, 1] and
    the detected flag is set exactly when that confidence reaches 0.35. *)
Theorem detect_watermark_confidence image force_size :
  Cv.empty image = false ->
  roi_x1 image < roi_x2 self image force_size ->
  roi_y1 image < roi_y2 self image force_size ->
  let r := detect_watermark cv to_float self image force_size in
  let s := spatial_score cv self image force_size in
  let g := grad_score cv self image force_size in
  let v := var_score cv self image force_size in
  ((s < 25 / 100)%R ->
     DetectionResult.confidence r = to_float (s * (5 / 10))%R /\
     DetectionResult.gradient_score r = 0%R /\
     DetectionResult.variance_score r = 0%R /\
     DetectionResult.detected r = false) /\
  (~ (s < 25 / 100)%R ->
     DetectionResult.confidence r =
       to_float (clamp (50 / 100 * s + 30 / 100 * g + 20 / 100 * v) 0 1)%R /\
     (DetectionResult.detected r = true <->
      (DetectionResult.confidence r >= to_float (35 / 100))%R)).
Proof.
  intros He Hx Hy r s g v.
  pose proof (roi_in_bounds image force_size Hx Hy) as Hr.
  split; intros Hs.
  - subst r. rewrite (detect_watermark_rejected image force_size He Hr Hs).
    cbn. repeat split; reflexivity.
  - subst r. rewrite (detect_watermark_fused image force_size He Hr Hs).
    cbn.
    assert (Hf : fused_confidence cv self image force_size
                 = (50 / 100 * s + 30 / 100 * g + 20 / 100 * v)%R).
    { unfold fused_confidence. subst s g v. lra. }
    rewrite Hf. split; [reflexivity | ].
    unfold kDetectionThreshold.
    destruct (Rge_dec _ _) as [Hge | Hnge]; split; intros H;
      try reflexivity; try assumption; try discriminate; contradiction.
Qed.

(** On a non-empty image the size and the region are assigned before any
    clamping and survive every exit. *)
Lemma detect_reports_region image force_size :
  Cv.empty image = false ->
  DetectionResult.region (detect_watermark cv to_float self image force_size)
  = detect_region self image force_size /\
  DetectionResult.size (detect_watermark cv to_float self image force_size)
  = detect_size image force_size.
Proof.
  intros He. unfold detect_watermark. rewrite He.
  destruct (roi_out_of_bounds self image force_size); [split; reflexivity | ].
  destruct (Rlt_dec _ kSpatialThreshold); split; reflexivity.
Qed.

(** C10: on a non-empty image the reported region is the unclamped standard
    box: its top-left corner comes from the margin rule of the image's
    configuration and its width and height are the columns and rows of the
    selected alpha map, whatever the image bounds are; when the clamped
    region is empty the same region is reported with confidence 0. *)
Theorem detect_watermark_region_unclamped image force_size :
  Cv.empty image = false ->
  let r := detect_watermark cv to_float self image force_size in
  let config := get_watermark_config (Cv.cols image) (Cv.rows image) in
  let alpha_map :=
    get_alpha_map self
      (value_or force_size
                (get_watermark_size (Cv.cols image) (Cv.rows image))) in
  let box :=
    Rect.make (Cv.cols image - margin_right config - logo_size config)
              (Cv.rows image - margin_bottom config - logo_size config)
              (Cv.cols alpha_map) (Cv.rows alpha_map) in
  DetectionResult.region r = box /\
  (roi_out_of_bounds self image force_size = true ->
   DetectionResult.region r = box /\ DetectionResult.confidence r = 0%R).
Proof.
  intros He r config alpha_map box.
  destruct (detect_reports_region image force_size He) as [Hreg _].
  split; [exact Hreg | ].
  intros Hout. split; [exact Hreg | ].
  subst r. unfold detect_watermark. rewrite He, Hout. reflexivity.
Qed.

(** C7 (amended): when stage 3 is reached, the reference strip has height
    min(top of the clamped region, logo side of the image's configuration);
    the stage is skipped, with variance score 0, exactly when that height is
    at most 8, and when the strip is taller than 8 pixels and its standard
    deviation exceeds 5.0 the variance score is clamp(1 - s_wm/s_ref, 0, 1). *)
Theorem variance_stage_guard image force_size :
  Cv.empty image = false ->
  roi_x1 image < roi_x2 self image force_size ->
  roi_y1 image < roi_y2 self image force_size ->
  ~ (spatial_score cv self image force_size < 25 / 100)%R ->
  let r := detect_watermark cv to_float self image force_size in
  let sw := s_wm cv self image force_size in
  let sr := s_ref cv self image force_size in
  ref_h image =
    Z.min (roi_y1 image)
          (logo_size (get_watermark_config (Cv.cols image) (Cv.rows image)))
  /\
  (ref_h image <= 8 ->
     var_score cv self image force_size = 0%R /\
     DetectionResult.variance_score r = to_float 0) /\
  (8 < ref_h image -> (sr > 5)%R ->
     var_score cv self image force_size = clamp (1 - sw / sr) 0 1 /\
     DetectionResult.variance_score r = to_float (clamp (1 - sw / sr) 0 1)).
Proof.
  intros He Hx Hy Hs r sw sr.
  pose proof (roi_in_bounds image force_size Hx Hy) as Hr.
  subst r. rewrite (detect_watermark_fused image force_size He Hr Hs). cbn.
  split; [reflexivity | ]. unfold var_score.
  split.
  - intros Hle.
    assert (E : (ref_h image >? 8) = false) by (rewrite Z.gtb_ltb; apply Z.ltb_ge; lia).
    rewrite E. split; reflexivity.
  - intros Hgt Hsr.
    assert (E : (ref_h image >? 8) = true) by (rewrite Z.gtb_ltb; apply Z.ltb_lt; lia).
    rewrite E. fold sr. fold sw.
    destruct (Rgt_dec sr 5) as [_ | Hn]; [split; reflexivity | contradiction].
Qed.

End Detector_properties.

(** A 200 x 200 image whose candidate region scores 0.5 at both NCC
    stages: the three hypotheses of C1 hold and the full fusion runs. *)
Lemma detect_watermark_confidence_witness :
  let cv := Fixture.mock_cv (1 / 2) (fun _ => 0%R) in
  let image := Fixture.bgr_image 200 200 in
  let r := detect_watermark cv Fixture.exact_float Fixture.engine image None in
  Cv.empty image = false /\
  roi_x1 image < roi_x2 Fixture.engine image None /\
  roi_y1 image < roi_y2 Fixture.engine image None /\
  DetectionResult.confidence r =
    clamp (50 / 100 * spatial_score cv Fixture.engine image None
           + 30 / 100 * grad_score cv Fixture.engine image None
           + 20 / 100 * var_score cv Fixture.engine image None) 0 1.
Proof.
  intros cv image r.
  assert (He : Cv.empty image = false) by reflexivity.
  assert (Hx : roi_x1 image < roi_x2 Fixture.engine image None)
    by reflexivity.
  assert (Hy : roi_y1 image < roi_y2 Fixture.engine image None)
    by reflexivity.
  repeat split; try assumption.
  apply (detect_watermark_confidence cv Fixture.exact_float Fixture.engine
           image None He Hx Hy).
  unfold spatial_score. cbn. lra.
Defined.

(** A 10 x 10 image: the standard box starts at (-70, -70), lies wholly
    outside the image, and is reported as it is. *)
Lemma detect_watermark_region_unclamped_witness :
  let cv := Fixture.mock_cv (1 / 2) (fun _ => 0%R) in
  let image := Fixture.bgr_image 10 10 in
  let r := detect_watermark cv Fixture.exact_float Fixture.engine image None in
  Cv.empty image = false /\
  DetectionResult.region r = Rect.make (-70) (-70) 48 48 /\
  DetectionResult.confidence r = 0%R.
Proof.
  intros cv image r.
  assert (He : Cv.empty image = false) by reflexivity.
  split; [exact He | ].
  apply (detect_watermark_region_unclamped cv Fixture.exact_float
           Fixture.engine image None He).
  reflexivity.
Defined.

(** A 100 x 89 image: the candidate region starts at row 9, the strip above
    it is 9 rows tall, its deviation is 20 against 10 in the region, and the
    variance score is the clamped value 1 - 10/20. *)
Lemma variance_stage_guard_witness :
  let cv := Fixture.mock_cv (1 / 2) (fun m => if Cv.rows m =? 9 then 20 else 10)%R in
  let image := Fixture.bgr_image 100 89 in
  let r := detect_watermark cv Fixture.exact_float Fixture.engine image None in
  ref_h image = 9 /\
  var_score cv Fixture.engine image None
  = clamp (1 - s_wm cv Fixture.engine image None
               / s_ref cv Fixture.engine image None) 0 1.
Proof.
  intros cv image r.
  assert (He : Cv.empty image = false) by reflexivity.
  assert (Hx : roi_x1 image < roi_x2 Fixture.engine image None)
    by reflexivity.
  assert (Hy : roi_y1 image < roi_y2 Fixture.engine image None)
    by reflexivity.
  assert (Hs : ~ (spatial_score cv Fixture.engine image None < 25 / 100)%R).
  { unfold spatial_score. cbn. lra. }
  destruct (variance_stage_guard cv Fixture.exact_float Fixture.engine
              image None He Hx Hy Hs) as (Hh & _ & Hrun).
  split; [reflexivity | ].
  apply Hrun.
  - reflexivity.
  - unfold s_ref. cbn. lra.
Defined.

(** C7 as stated fails on a strip exactly 8 rows tall.  On a 100 x 88 image
    the candidate region starts at row 8, so the strip is 8 rows tall; with
    deviation 20 in the strip and 10 in the region the claim asks for the
    variance score clamp(1 - 10/20, 0, 1) = 0.5, and the detector, which ran
    all its stages, reports 0. *)
Lemma variance_stage_skipped_at_eight_rows :
  let cv := Fixture.mock_cv (1 / 2) Fixture.textured_strip in
  let image := Fixture.bgr_image 100 88 in
  let r := detect_watermark cv Fixture.exact_float Fixture.engine image None in
  ref_h image = 8 /\
  (s_ref cv Fixture.engine image None > 5)%R /\
  clamp (1 - s_wm cv Fixture.engine image None
             / s_ref cv Fixture.engine image None) 0 1 = (1 / 2)%R /\
  DetectionResult.gradient_score r = (1 / 2)%R /\
  DetectionResult.variance_score r = 0%R /\
  DetectionResult.variance_score r <>
    clamp (1 - s_wm cv Fixture.engine image None
               / s_ref cv Fixture.engine image None) 0 1.
Proof.
  intros cv image r.
  assert (Hsr : s_ref cv Fixture.engine image None = 20%R) by reflexivity.
  assert (Hsw : s_wm cv Fixture.engine image None = 10%R) by reflexivity.
  assert (Hc : clamp (1 - 10 / 20) 0 1 = (1 / 2)%R).
  { unfold clamp.
    destruct (Rlt_dec (1 - 10 / 20) 0); [lra | ].
    destruct (Rlt_dec 1 (1 - 10 / 20)); lra. }
  assert (Hr : r = DetectionResult.make
                     (if Rge_dec (clamp (fused_confidence cv Fixture.engine image None) 0 1)
                                 (kDetectionThreshold Fixture.exact_float)
                      then true else false)
                     (clamp (fused_confidence cv Fixture.engine image None) 0 1)
                     (Rect.make 20 8 48 48) Small
                     (1 / 2)%R (1 / 2)%R 0%R).
  { subst r.
    rewrite (detect_watermark_fused cv Fixture.exact_float Fixture.engine
               image None eq_refl eq_refl).
    - reflexivity.
    - unfold spatial_score, kSpatialThreshold. cbn. lra. }
  rewrite Hsr, Hsw, Hc, Hr. cbn.
  repeat split; try reflexivity; lra.
Qed.

(** ** Removal, addition and the empty image *)

Section Engine_properties.

Variable cv : OpenCV.
Variable blend : BlendModes.
Variable to_float : R -> R.
Variable self : WatermarkEngine.

Lemma ensure_bgr_size image :
  Cv.cols (ensure_bgr cv image) = Cv.cols image /\
  Cv.rows (ensure_bgr cv image) = Cv.rows image.
Proof.
  unfold ensure_bgr.
  destruct (Cv.channels image =? 4).
  - destruct (cvtColor_size cv image Cv.COLOR_BGRA2BGR); split; assumption.
  - destruct (Cv.channels image =? 1).
    + destruct (cvtColor_size cv image Cv.COLOR_GRAY2BGR); split; assumption.
    + split; reflexivity.
Qed.

(** What [remove_watermark] does to a non-empty image. *)
Lemma remove_watermark_returns image force_size :
  Cv.empty image = false ->
  remove_watermark cv blend self image force_size =
  let size :=
    value_or force_size (get_watermark_size (Cv.cols image) (Cv.rows image)) in
  Returns (remove_watermark_alpha_blend blend (ensure_bgr cv image)
             (get_alpha_map self size)
             (get_position (config_of_size size)
                           (Cv.cols image) (Cv.rows image))
             (logo_value_ self)).
Proof.
  intros He. unfold remove_watermark. rewrite He. cbv zeta.
  destruct (ensure_bgr_size image) as [Hc Hr]. rewrite Hc, Hr. reflexivity.
Qed.

(** C5: [remove_watermark] and [add_watermark] throw exactly on an empty
    image buffer; [detect_watermark] has no throwing path: on an empty image
    it returns the zero-initialised result, and on a non-empty image whose
    clamped candidate region is empty it returns confidence 0, nothing
    detected and all stage scores 0. *)
Theorem empty_image_handling image force_size :
  throws (remove_watermark cv blend self image force_size) = Cv.empty image /\
  throws (add_watermark cv blend self image force_size) = Cv.empty image /\
  (Cv.empty image = true ->
     remove_watermark cv blend self image force_size
       = Throws "Empty image provided" /\
     add_watermark cv blend self image force_size
       = Throws "Empty image provided" /\
     detect_watermark cv to_float self image force_size
       = DetectionResult.zero) /\
  (Cv.empty image = false ->
     roi_x1 image >= roi_x2 self image force_size \/
     roi_y1 image >= roi_y2 self image force_size ->
     let r := detect_watermark cv to_float self image force_size in
     DetectionResult.detected r = false /\
     DetectionResult.confidence r = 0%R /\
     DetectionResult.spatial_score r = 0%R /\
     DetectionResult.gradient_score r = 0%R /\
     DetectionResult.variance_score r = 0%R).
Proof.
  unfold remove_watermark, add_watermark, detect_watermark.
  destruct (Cv.empty image) eqn:He.
  - repeat split; try reflexivity; intros; discriminate.
  - split; [reflexivity | ]. split; [reflexivity | ].
    split; [intros; discriminate | ].
    intros _ Hdeg. rewrite (roi_degenerate self image force_size Hdeg).
    cbn. repeat split; reflexivity.
Qed.

(** C4: a custom region of exactly 48x48 placed where the Small margin rule
    puts the watermark is removed exactly as [remove_watermark] with Small
    forced removes it, and a 96x96 region placed by the Large margin rule
    exactly as [remove_watermark] with Large forced; this includes the
    error on an empty image. *)
Theorem remove_watermark_custom_standard_sizes image px py qx qy :
  get_position (mkWatermarkPosition 32 32 48) (Cv.cols image) (Cv.rows image)
    = Cv.mkPoint px py ->
  get_position (mkWatermarkPosition 64 64 96) (Cv.cols image) (Cv.rows image)
    = Cv.mkPoint qx qy ->
  remove_watermark_custom cv blend self image (Rect.make px py 48 48)
    = remove_watermark cv blend self image (Some Small) /\
  remove_watermark_custom cv blend self image (Rect.make qx qy 96 96)
    = remove_watermark cv blend self image (Some Large).
Proof.
  intros Hp Hq.
  destruct (Cv.empty image) eqn:He.
  - unfold remove_watermark_custom, remove_watermark. rewrite He.
    split; reflexivity.
  - rewrite !(remove_watermark_returns image _ He).
    unfold remove_watermark_custom. rewrite He. cbn.
    unfold config_of_size. rewrite Hp, Hq. split; reflexivity.
Qed.

End Engine_properties.

(** An 800 x 600 image: the Small rule gives (720, 520), the Large rule
    (640, 440), and both custom removals agree with the forced ones. *)
Lemma remove_watermark_custom_standard_sizes_witness :
  let cv := Fixture.mock_cv (1 / 2) (fun _ => 0%R) in
  let image := Fixture.bgr_image 800 600 in
  remove_watermark_custom cv Fixture.mock_blend Fixture.engine image
                          (Rect.make 720 520 48 48)
    = remove_watermark cv Fixture.mock_blend Fixture.engine image (Some Small)
  /\
  remove_watermark_custom cv Fixture.mock_blend Fixture.engine image
                          (Rect.make 640 440 96 96)
    = remove_watermark cv Fixture.mock_blend Fixture.engine image (Some Large).
Proof.
  intros cv image.
  apply (remove_watermark_custom_standard_sizes
           cv Fixture.mock_blend Fixture.engine image 720 520 640 440);
    reflexivity.
Defined.

(** The default-constructed matrix is empty: removal and addition throw and
    detection returns the zero result; a 10 x 10 image is not empty and its
    candidate region is: detection returns confidence 0. *)
Lemma empty_image_handling_witness :
  let cv := Fixture.mock_cv (1 / 2) (fun _ => 0%R) in
  (remove_watermark cv Fixture.mock_blend Fixture.engine
                    Fixture.empty_image None
     = Throws "Empty image provided" /\
   add_watermark cv Fixture.mock_blend Fixture.engine
                 Fixture.empty_image None
     = Throws "Empty image provided" /\
   detect_watermark cv Fixture.exact_float Fixture.engine
                    Fixture.empty_image None
     = DetectionResult.zero) /\
  DetectionResult.confidence
    (detect_watermark cv Fixture.exact_float Fixture.engine
                      (Fixture.bgr_image 10 10) None) = 0%R.
Proof.
  intros cv. split.
  - apply (empty_image_handling cv Fixture.mock_blend Fixture.exact_float
             Fixture.engine Fixture.empty_image None).
    reflexivity.
  - apply (empty_image_handling cv Fixture.mock_blend Fixture.exact_float
             Fixture.engine (Fixture.bgr_image 10 10) None).
    + reflexivity.
    + left. cbv. discriminate.
Defined.

(** C8 fails on the code: with Small forced on a 2000 x 2000 image the
    detector takes the alpha map of the forced size (48 x 48) and the
    position from the configuration of the image dimensions (Large, 64px
    margins, 96px logo): it scores and reports the box at (1840, 1840).  The
    claim, and [remove_watermark] on the same arguments, place the Small box
    by the Small rule at (1920, 1920). *)
Theorem detect_watermark_forced_size_position :
  forall (cv : OpenCV) (blend : BlendModes) (to_float : R -> R),
    let image := Fixture.bgr_image 2000 2000 in
    let r := detect_watermark cv to_float Fixture.engine image (Some Small) in
    DetectionResult.size r = Small /\
    DetectionResult.region r = Rect.make 1840 1840 48 48 /\
    image_roi Fixture.engine image (Some Small) = Rect.make 1840 1840 48 48 /\
    get_position (mkWatermarkPosition 32 32 48) 2000 2000
      = Cv.mkPoint 1920 1920 /\
    remove_watermark cv blend Fixture.engine image (Some Small)
      = Returns (remove_watermark_alpha_blend blend image
                   (alpha_map_small_ Fixture.engine)
                   (Cv.mkPoint 1920 1920) 255%R).
Proof.
  intros cv blend to_float image r.
  destruct (detect_reports_region cv to_float Fixture.engine image
              (Some Small) eq_refl) as [Hreg Hsize].
  subst r. rewrite Hreg, Hsize.
  repeat split; reflexivity.
Qed.

(** ** Guided detection: the scale list *)

Lemma insert_scale_length s l :
  List.length (insert_scale s l) = S (List.length l).
Proof.
  induction l as [| h t IH]; cbn; [reflexivity | ].
  destruct (s <=? h); cbn; [reflexivity | rewrite IH; reflexivity].
Qed.

Lemma sort_scales_length l : List.length (sort_scales l) = List.length l.
Proof.
  unfold sort_scales.
  induction l as [| h t IH]; cbn; [reflexivity | ].
  rewrite insert_scale_length, IH. reflexivity.
Qed.

Lemma add_standard_size_length lo hi l std_size :
  (List.length l <= List.length (add_standard_size lo hi l std_size))%nat.
Proof.
  unfold add_standard_size.
  destruct ((std_size >=? lo) && (std_size <=? hi)); [| lia].
  destruct (existsb _ l); [lia | ].
  rewrite length_app. cbn. lia.
Qed.

Lemma add_standard_sizes_length lo hi stds l :
  (List.length l
   <= List.length (fold_left (add_standard_size lo hi) stds l))%nat.
Proof.
  revert l. induction stds as [| s stds IH]; intros l; cbn; [lia | ].
  pose proof (add_standard_size_length lo hi l s).
  pose proof (IH (add_standard_size lo hi l s)). lia.
Qed.

(** The [for] loop of the scale list is never cut short by its fuel: every
    value [lo + k * step] up to [hi] is produced. *)
Lemma count_up_complete step : 0 < step ->
  forall fuel s hi k,
    hi - s + 1 <= Z.of_nat fuel -> 0 <= k -> s + k * step <= hi ->
    In (s + k * step) (count_up fuel s hi step).
Proof.
  intros Hstep fuel. induction fuel as [| fuel IH]; intros s hi k Hf Hk Hle.
  - nia.
  - cbn. assert (Hs : (s <=? hi) = true) by (apply Z.leb_le; nia).
    rewrite Hs. destruct (Z.eq_dec k 0) as [-> | Hk0].
    + left. lia.
    + right. replace (s + k * step) with ((s + step) + (k - 1) * step) by lia.
      apply IH; nia.
Qed.

Lemma for_range_complete lo hi step k :
  0 < step -> 0 <= k -> lo + k * step <= hi ->
  In (lo + k * step) (for_range lo hi step).
Proof.
  intros Hstep Hk Hle. unfold for_range.
  apply count_up_complete; try assumption. nia.
Qed.

(** A non-degenerate size range yields at least one coarse scale. *)
Lemma coarse_scale_list_nonempty lo hi :
  lo <= hi -> (0 < List.length (coarse_scale_list lo hi))%nat.
Proof.
  intros Hle. unfold coarse_scale_list. rewrite sort_scales_length.
  pose proof (add_standard_sizes_length lo hi [48; 96]
                (for_range lo hi kCoarseScaleStep)) as Hlen.
  assert (Hin : In lo (for_range lo hi kCoarseScaleStep)).
  { replace lo with (lo + 0 * kCoarseScaleStep) at 1 by lia.
    apply for_range_complete; unfold kCoarseScaleStep; lia. }
  assert (Hpos : (0 < List.length (for_range lo hi kCoarseScaleStep))%nat).
  { destruct (for_range lo hi kCoarseScaleStep); [destruct Hin | cbn; lia]. }
  lia.
Qed.

(** ** Guided detection: cancellation *)

Section Cancellation.

Variable cv : OpenCV.
Variable to_float : R -> R.
Variable self : WatermarkEngine.
Variable gray_f : Cv.Mat R.

(** The flag is loaded once at the head of every coarse iteration: if its
    first [k] loads see it clear and load [k] sees it set, the loop leaves
    after exactly [k] scales with the cancelled mark. *)
Lemma coarse_loop_cancelled_at f :
  forall scales n searched candidates k,
    (k < List.length scales)%nat ->
    f (n + k)%nat = true ->
    (forall i, (i < k)%nat -> f (n + i)%nat = false) ->
    let st :=
      coarse_loop cv self gray_f (Some f) scales n searched candidates in
    coarse_cancelled st = true /\
    coarse_searched st = searched + Z.of_nat k.
Proof.
  intros scales.
  induction scales as [| scale rest IH];
    intros n searched candidates k Hk Hset Hclear; cbn in Hk; [lia | ].
  destruct k as [| k].
  - cbn. rewrite Nat.add_0_r in Hset. rewrite Hset. cbn. split; [reflexivity | lia].
  - cbn -[Z.of_nat].
    assert (Hn : f n = false).
    { specialize (Hclear 0%nat). rewrite Nat.add_0_r in Hclear.
      apply Hclear. lia. }
    rewrite Hn.
    assert (Hset' : f (S n + k)%nat = true).
    { replace (S n + k)%nat with (n + S k)%nat by lia. exact Hset. }
    assert (Hclear' : forall i, (i < k)%nat -> f (S n + i)%nat = false).
    { intros i Hi. replace (S n + i)%nat with (n + S i)%nat by lia.
      apply Hclear. lia. }
    assert (Hk' : (k < List.length rest)%nat) by lia.
    destruct ((scale >? Cv.cols gray_f) || (scale >? Cv.rows gray_f)).
    + destruct (IH (S n) (searched + 1) candidates k Hk' Hset' Hclear')
        as [Hc Hs].
      split; [exact Hc | rewrite Hs; lia].
    + match goal with
      | |- context [coarse_loop _ _ _ _ rest (S n) (searched + 1) ?c] =>
          destruct (IH (S n) (searched + 1) c k Hk' Hset' Hclear') as [Hc Hs]
      end.
      split; [exact Hc | rewrite Hs; lia].
Qed.

(** A cancelled mark set in the coarse phase survives the fine phase. *)
Lemma fine_loop_keeps_cancelled flag lo hi :
  forall candidates n cancelled best,
    cancelled = true ->
    fst (fine_loop cv self gray_f flag lo hi candidates n cancelled best)
    = true.
Proof.
  intros candidates.
  induction candidates as [| c rest IH]; intros n cancelled best Hc; cbn;
    [exact Hc | ].
  destruct (cancel_requested flag n); [reflexivity | apply IH; exact Hc].
Qed.

End Cancellation.

Section Guided_properties.

Variable cv : OpenCV.
Variable to_float : R -> R.
Variable self : WatermarkEngine.

(** A clamped search rectangle of 8 x 8 or more lies in a non-empty image. *)
Lemma clamped_search_in_nonempty_image (image : Cv.Mat Z) search_rect :
  let search :=
    Rect.intersect search_rect
                   (Rect.make 0 0 (Cv.cols image) (Cv.rows image)) in
  8 <= Rect.width search ->
  8 <= Rect.height search ->
  Cv.empty image = false.
Proof.
  unfold Rect.intersect. cbn.
  destruct (_ || _) eqn:E; cbn; [lia | ].
  intros Hw Hh. unfold Cv.empty, Cv.total. apply Z.eqb_neq. nia.
Qed.

(** [guided_detect] once its three guards are passed. *)
Lemma guided_detect_searching image search_rect flag min_size max_size :
  Cv.empty image = false ->
  8 <= Rect.width search_rect ->
  8 <= Rect.height search_rect ->
  let search :=
    Rect.intersect search_rect (Rect.make 0 0 (Cv.cols image) (Cv.rows image)) in
  let lo := Z.max min_size 16 in
  let hi := Z.min max_size (Z.min (Rect.width search) (Rect.height search)) in
  8 <= Rect.width search ->
  8 <= Rect.height search ->
  lo <= hi ->
  guided_detect cv to_float self image search_rect flag min_size max_size =
  let gray_f := search_gray_f cv image search in
  let total := Z.of_nat (List.length (coarse_scale_list lo hi)) in
  let st := coarse_loop cv self gray_f flag (coarse_scale_list lo hi) 0 0 [] in
  match coarse_candidates st with
  | [] =>
      GuidedDetectionResult.make
        false 0%R 0%R (Rect.make 0 0 0 0) 0
        (coarse_searched st) total (coarse_cancelled st)
  | _ :: _ =>
      let '(cancelled, best) :=
        fine_loop cv self gray_f flag lo hi (coarse_candidates st)
                  (coarse_loads st) (coarse_cancelled st) no_best in
      if Rgt_dec (adjusted_score best) (8 / 100) then
        GuidedDetectionResult.make
          true (to_float (adjusted_score best)) (to_float (raw_score best))
          (Rect.make (Rect.x search + Cv.x (position best))
                     (Rect.y search + Cv.y (position best))
                     (scale best) (scale best))
          (scale best) (coarse_searched st) total cancelled
      else
        GuidedDetectionResult.make
          false 0%R 0%R (Rect.make 0 0 0 0) 0
          (coarse_searched st) total cancelled
  end.
Proof.
  intros He Hw Hh search lo hi Hsw Hsh Hlh.
  unfold guided_detect. rewrite He.
  assert (E1 : (Rect.width search_rect <? 8) = false) by (apply Z.ltb_ge; lia).
  assert (E2 : (Rect.height search_rect <? 8) = false) by (apply Z.ltb_ge; lia).
  rewrite E1, E2. cbn [orb].
  fold search.
  assert (E3 : (Rect.width search <? 8) = false) by (apply Z.ltb_ge; lia).
  assert (E4 : (Rect.height search <? 8) = false) by (apply Z.ltb_ge; lia).
  rewrite E3, E4. cbn [orb].
  fold lo. fold hi.
  assert (E5 : (lo >? hi) = false) by (rewrite Z.gtb_ltb; apply Z.ltb_ge; lia).
  rewrite E5. reflexivity.
Qed.

(** C6: [guided_detect] loads the cancellation flag at the head of every
    coarse-phase scale iteration.  On every image, with a search rectangle
    and a size range that pass the guards, a flag already set at
    the first load gives was_cancelled = true, found = false and
    scales_searched = 0 < total_scales; more generally a flag first seen set
    at the head of iteration k stops the sweep after exactly k scales. *)
Theorem guided_detect_cancellation image search_rect f min_size max_size :
  8 <= Rect.width search_rect ->
  8 <= Rect.height search_rect ->
  let search :=
    Rect.intersect search_rect (Rect.make 0 0 (Cv.cols image) (Cv.rows image)) in
  8 <= Rect.width search ->
  8 <= Rect.height search ->
  Z.max min_size 16
    <= Z.min max_size (Z.min (Rect.width search) (Rect.height search)) ->
  let r :=
    guided_detect cv to_float self image search_rect (Some f)
                  min_size max_size in
  (f 0%nat = true ->
     GuidedDetectionResult.was_cancelled r = true /\
     GuidedDetectionResult.found r = false /\
     GuidedDetectionResult.scales_searched r = 0 /\
     GuidedDetectionResult.scales_searched r
       < GuidedDetectionResult.total_scales r) /\
  (forall k : nat,
     Z.of_nat k < GuidedDetectionResult.total_scales r ->
     f k = true ->
     (forall i, (i < k)%nat -> f i = false) ->
     GuidedDetectionResult.was_cancelled r = true /\
     GuidedDetectionResult.scales_searched r = Z.of_nat k /\
     GuidedDetectionResult.scales_searched r
       < GuidedDetectionResult.total_scales r).
Proof.
  intros Hw Hh search Hsw Hsh Hlh r.
  pose proof (clamped_search_in_nonempty_image image search_rect Hsw Hsh)
    as He.
  pose proof (guided_detect_searching image search_rect (Some f)
                min_size max_size He Hw Hh Hsw Hsh Hlh) as Hr.
  fold search in Hr. fold r in Hr. cbv zeta in Hr.
  set (lo := Z.max min_size 16) in *.
  set (hi := Z.min max_size (Z.min (Rect.width search) (Rect.height search)))
    in *.
  set (scales := coarse_scale_list lo hi) in *.
  set (gray_f := search_gray_f cv image search) in *.
  pose proof (coarse_scale_list_nonempty lo hi Hlh) as Hne. fold scales in Hne.
  set (st := coarse_loop cv self gray_f (Some f) scales 0 0 []) in *.
  assert (Htotal : GuidedDetectionResult.total_scales r
                   = Z.of_nat (List.length scales)).
  { rewrite Hr. destruct (coarse_candidates st); [reflexivity | ].
    destruct (fine_loop _ _ _ _ _ _ _ _ _ _) as [cancelled best].
    destruct (Rgt_dec _ _); reflexivity. }
  assert (Hsearched : GuidedDetectionResult.scales_searched r
                      = coarse_searched st).
  { rewrite Hr. destruct (coarse_candidates st); [reflexivity | ].
    destruct (fine_loop _ _ _ _ _ _ _ _ _ _) as [cancelled best].
    destruct (Rgt_dec _ _); reflexivity. }
  assert (Hcancel : coarse_cancelled st = true ->
                    GuidedDetectionResult.was_cancelled r = true).
  { intros Hc. rewrite Hr. destruct (coarse_candidates st); [exact Hc | ].
    pose proof (fine_loop_keeps_cancelled cv self gray_f (Some f) lo hi
                  (c :: l) (coarse_loads st) (coarse_cancelled st) no_best Hc)
      as Hfine.
    destruct (fine_loop _ _ _ _ _ _ _ _ _ _) as [cancelled best] eqn:Efine.
    cbn in Hfine. rewrite Hfine.
    destruct (Rgt_dec _ _); reflexivity. }
  assert (Hgen : forall k : nat,
             Z.of_nat k < GuidedDetectionResult.total_scales r ->
             f k = true ->
             (forall i, (i < k)%nat -> f i = false) ->
             GuidedDetectionResult.was_cancelled r = true /\
             GuidedDetectionResult.scales_searched r = Z.of_nat k /\
             GuidedDetectionResult.scales_searched r
               < GuidedDetectionResult.total_scales r).
  { intros k Hk Hset Hclear. rewrite Htotal in Hk.
    destruct (coarse_loop_cancelled_at cv self gray_f f scales 0 0 [] k)
      as [Hc Hs]; try assumption; try lia.
    fold st in Hc, Hs.
    split; [exact (Hcancel Hc) | ].
    rewrite Hsearched, Hs, Htotal. lia. }
  split; [| exact Hgen].
  intros H0.
  destruct (Hgen 0%nat) as (Hc & Hs & Hlt); try assumption.
  - rewrite Htotal. lia.
  - intros i Hi. lia.
  - repeat split; try assumption.
    rewrite Hr. subst st. destruct scales as [| s0 rest]; [cbn in Hne; lia | ].
    cbn. rewrite H0. reflexivity.
Qed.

End Guided_properties.

(** A 200 x 200 image, a 100 x 100 search rectangle, sizes 16..100, and a
    flag that is set from the first load on. *)
Lemma guided_detect_cancellation_witness :
  let cv := Fixture.mock_cv (1 / 2) (fun _ => 0%R) in
  let r :=
    guided_detect cv Fixture.exact_float Fixture.engine
                  (Fixture.bgr_image 200 200) (Rect.make 10 10 100 100)
                  (Some (fun _ => true)) 16 100 in
  GuidedDetectionResult.was_cancelled r = true /\
  GuidedDetectionResult.found r = false /\
  GuidedDetectionResult.scales_searched r = 0 /\
  GuidedDetectionResult.scales_searched r
    < GuidedDetectionResult.total_scales r.
Proof.
  intros cv r.
  apply (guided_detect_cancellation cv Fixture.exact_float Fixture.engine
           (Fixture.bgr_image 200 200) (Rect.make 10 10 100 100)
           (fun _ => true) 16 100);
    try reflexivity; cbn; lia.
Defined.

(** ** Guided detection: size-adjusted ranking *)

Lemma size_adjusted_score_96 raw : size_adjusted_score raw 96 = raw.
Proof.
  unfold size_adjusted_score, kReferenceSize.
  replace (96 / 96)%R with 1%R by lra.
  rewrite sqrt_1. unfold Rmin. destruct (Rle_dec 1 1); lra.
Qed.

Lemma size_adjusted_score_24 raw : size_adjusted_score raw 24 = (raw / 2)%R.
Proof.
  unfold size_adjusted_score, kReferenceSize.
  replace (24 / 96)%R with ((1 / 2) * (1 / 2))%R by lra.
  rewrite sqrt_square by lra.
  unfold Rmin. destruct (Rle_dec (1 / 2) 1); lra.
Qed.

Lemma insert_candidate_Forall (P : Candidate -> Prop) c l :
  P c -> Forall P l -> Forall P (insert_candidate c l).
Proof.
  intros Hc Hl. induction Hl as [| h t Hh Ht IH]; cbn.
  - constructor; [exact Hc | constructor].
  - destruct (Rgt_dec (adjusted_score h) (adjusted_score c)).
    + constructor; assumption.
    + constructor; [exact Hc | constructor; assumption].
Qed.

Lemma sort_candidates_Forall (P : Candidate -> Prop) l :
  Forall P l -> Forall P (sort_candidates l).
Proof.
  unfold sort_candidates. intros Hl.
  induction Hl as [| h t Hh Ht IH]; cbn; [constructor | ].
  apply insert_candidate_Forall; assumption.
Qed.

Lemma removelast_Forall (P : Candidate -> Prop) l :
  Forall P l -> Forall P (removelast l).
Proof.
  intros Hl. induction Hl as [| h t Hh Ht IH]; cbn; [constructor | ].
  destruct t; [constructor | constructor; assumption].
Qed.

Lemma insert_top_k_Forall (P : Candidate -> Prop) c l :
  P c -> Forall P l -> Forall P (insert_top_k c l).
Proof.
  intros Hc Hl. unfold insert_top_k.
  destruct (Z.of_nat (List.length l) <? kTopK).
  - apply sort_candidates_Forall. apply Forall_app. split; [exact Hl | ].
    constructor; [exact Hc | constructor].
  - destruct (Rgt_dec _ _); [| exact Hl].
    apply sort_candidates_Forall. unfold set_back. apply Forall_app.
    split; [apply removelast_Forall; exact Hl | ].
    constructor; [exact Hc | constructor].
Qed.

Lemma insert_candidate_HdRel h c t :
  outranks h c -> HdRel outranks h t ->
  HdRel outranks h (insert_candidate c t).
Proof.
  intros Hhc Hht. destruct t as [| h' t']; cbn.
  - constructor. exact Hhc.
  - destruct (Rgt_dec (adjusted_score h') (adjusted_score c)).
    + constructor. inversion Hht; assumption.
    + constructor. exact Hhc.
Qed.

Lemma insert_candidate_Sorted c l :
  Sorted outranks l -> Sorted outranks (insert_candidate c l).
Proof.
  intros Hl. induction Hl as [| h t Ht IH Hh]; cbn.
  - constructor; constructor.
  - destruct (Rgt_dec (adjusted_score h) (adjusted_score c)) as [Hgt | Hngt].
    + constructor; [exact IH | ].
      apply insert_candidate_HdRel; [unfold outranks; lra | exact Hh].
    + constructor; [constructor; assumption | ].
      constructor. unfold outranks. lra.
Qed.

Lemma sort_candidates_Sorted l : Sorted outranks (sort_candidates l).
Proof.
  unfold sort_candidates. induction l as [| h t IH]; cbn; [constructor | ].
  apply insert_candidate_Sorted. exact IH.
Qed.

Lemma insert_top_k_Sorted c l :
  Sorted outranks l -> Sorted outranks (insert_top_k c l).
Proof.
  intros Hl. unfold insert_top_k.
  destruct (Z.of_nat (List.length l) <? kTopK);
    [apply sort_candidates_Sorted | ].
  destruct (Rgt_dec _ _); [apply sort_candidates_Sorted | exact Hl].
Qed.

Lemma insert_candidate_length c l :
  List.length (insert_candidate c l) = S (List.length l).
Proof.
  induction l as [| h t IH]; cbn; [reflexivity | ].
  destruct (Rgt_dec _ _); cbn; [rewrite IH | ]; reflexivity.
Qed.

Lemma sort_candidates_length l :
  List.length (sort_candidates l) = List.length l.
Proof.
  unfold sort_candidates. induction l as [| h t IH]; cbn; [reflexivity | ].
  rewrite insert_candidate_length, IH. reflexivity.
Qed.

Lemma set_back_length l c :
  l <> [] -> List.length (set_back l c) = List.length l.
Proof.
  intros Hne. unfold set_back.
  destruct (exists_last Hne) as (l' & a & ->).
  rewrite removelast_last, !length_app. reflexivity.
Qed.

Lemma insert_top_k_length c l :
  Z.of_nat (List.length l) <= kTopK ->
  Z.of_nat (List.length (insert_top_k c l)) <= kTopK.
Proof.
  intros Hl. unfold insert_top_k.
  destruct (Z.of_nat (List.length l) <? kTopK) eqn:E.
  - apply Z.ltb_lt in E. rewrite sort_candidates_length, length_app.
    cbn. lia.
  - destruct (Rgt_dec _ _); [| exact Hl].
    rewrite sort_candidates_length, set_back_length; [exact Hl | ].
    apply Z.ltb_ge in E. unfold kTopK in E.
    destruct l; [cbn in E; lia | discriminate].
Qed.

Section Ranking.

Variable cv : OpenCV.
Variable to_float : R -> R.
Variable self : WatermarkEngine.

(** Every candidate either loop builds carries the size-adjusted value of
    the raw score it was matched with, at the scale it was matched at. *)
Lemma match_at_scale_size_adjusted gray_f s :
  size_adjusted (match_at_scale cv self gray_f s) /\
  scale (match_at_scale cv self gray_f s) = s.
Proof. split; reflexivity. Qed.

Section Coarse_invariant.

Variable gray_f : Cv.Mat R.
Variable flag : CancelFlag.
Variable P : Candidate -> Prop.
Hypothesis P_match :
  forall s, above_floor (match_at_scale cv self gray_f s) ->
            P (match_at_scale cv self gray_f s).

Lemma coarse_loop_Forall :
  forall scales n searched candidates,
    Forall P candidates ->
    Forall P (coarse_candidates
                (coarse_loop cv self gray_f flag scales n searched
                             candidates)).
Proof.
  intros scales.
  induction scales as [| s rest IH]; intros n searched candidates Hc; cbn;
    [exact Hc | ].
  destruct (cancel_requested flag n); [exact Hc | ].
  destruct ((s >? Cv.cols gray_f) || (s >? Cv.rows gray_f));
    [apply IH; exact Hc | ].
  apply IH. destruct (Rgt_dec _ _) as [Hgt | _]; [| exact Hc].
  apply insert_top_k_Forall; [| exact Hc]. apply P_match. exact Hgt.
Qed.

End Coarse_invariant.

Lemma coarse_loop_Sorted gray_f flag :
  forall scales n searched candidates,
    Sorted outranks candidates ->
    Sorted outranks
      (coarse_candidates
         (coarse_loop cv self gray_f flag scales n searched candidates)).
Proof.
  intros scales.
  induction scales as [| s rest IH]; intros n searched candidates Hc; cbn;
    [exact Hc | ].
  destruct (cancel_requested flag n); [exact Hc | ].
  destruct ((s >? Cv.cols gray_f) || (s >? Cv.rows gray_f));
    [apply IH; exact Hc | ].
  apply IH. destruct (Rgt_dec _ _); [| exact Hc].
  apply insert_top_k_Sorted. exact Hc.
Qed.

Lemma coarse_loop_top_k gray_f flag :
  forall scales n searched candidates,
    Z.of_nat (List.length candidates) <= kTopK ->
    Z.of_nat
      (List.length
         (coarse_candidates
            (coarse_loop cv self gray_f flag scales n searched candidates)))
    <= kTopK.
Proof.
  intros scales.
  induction scales as [| s rest IH]; intros n searched candidates Hc; cbn;
    [exact Hc | ].
  destruct (cancel_requested flag n); [exact Hc | ].
  destruct ((s >? Cv.cols gray_f) || (s >? Cv.rows gray_f));
    [apply IH; exact Hc | ].
  apply IH. destruct (Rgt_dec _ _); [| exact Hc].
  apply insert_top_k_length. exact Hc.
Qed.

(** The fine phase replaces [best] only by a size-adjusted candidate. *)
Lemma fine_step_best gray_f best s :
  best = no_best \/ size_adjusted best ->
  fine_step cv self gray_f best s = no_best \/
  size_adjusted (fine_step cv self gray_f best s).
Proof.
  intros Hb. unfold fine_step.
  destruct ((s >? Cv.cols gray_f) || (s >? Cv.rows gray_f)); [exact Hb | ].
  destruct (Rgt_dec _ _); [| exact Hb].
  right. apply match_at_scale_size_adjusted.
Qed.

Lemma refine_best gray_f lo hi best candidate :
  best = no_best \/ size_adjusted best ->
  refine cv self gray_f lo hi best candidate = no_best \/
  size_adjusted (refine cv self gray_f lo hi best candidate).
Proof.
  unfold refine. generalize (for_range
    (Z.max lo (scale candidate - kFineScaleRange))
    (Z.min hi (scale candidate + kFineScaleRange)) kFineScaleStep).
  intros l. revert best.
  induction l as [| s rest IH]; intros best Hb; cbn; [exact Hb | ].
  apply IH. apply fine_step_best. exact Hb.
Qed.

Lemma fine_loop_best gray_f flag lo hi :
  forall candidates n cancelled best,
    best = no_best \/ size_adjusted best ->
    snd (fine_loop cv self gray_f flag lo hi candidates n cancelled best)
      = no_best \/
    size_adjusted
      (snd (fine_loop cv self gray_f flag lo hi candidates n cancelled best)).
Proof.
  intros candidates.
  induction candidates as [| c rest IH]; intros n cancelled best Hb; cbn;
    [exact Hb | ].
  destruct (cancel_requested flag n); [exact Hb | ].
  apply IH. apply refine_best. exact Hb.
Qed.

(** What [guided_detect] reports: either nothing found, or a best candidate
    that is size-adjusted and above the floor on its adjusted score. *)
Lemma guided_detect_reports image search_rect flag min_size max_size :
  let r :=
    guided_detect cv to_float self image search_rect flag
                  min_size max_size in
  GuidedDetectionResult.found r = false \/
  exists best : Candidate,
    size_adjusted best /\ above_floor best /\
    GuidedDetectionResult.found r = true /\
    GuidedDetectionResult.confidence r = to_float (adjusted_score best) /\
    GuidedDetectionResult.raw_ncc r = to_float (raw_score best) /\
    GuidedDetectionResult.detected_size r = scale best.
Proof.
  unfold guided_detect.
  destruct (Cv.empty image || (Rect.width search_rect <? 8)
            || (Rect.height search_rect <? 8)); [left; reflexivity | ].
  set (search := Rect.intersect search_rect _).
  destruct ((Rect.width search <? 8) || (Rect.height search <? 8));
    [left; reflexivity | ].
  set (lo := Z.max min_size 16).
  set (hi := Z.min max_size _).
  destruct (lo >? hi); [left; reflexivity | ].
  cbv zeta.
  set (gray_f := search_gray_f cv image search).
  set (st := coarse_loop cv self gray_f flag _ 0 0 []).
  destruct (coarse_candidates st) as [| c l]; [left; reflexivity | ].
  pose proof (fine_loop_best gray_f flag lo hi (c :: l) (coarse_loads st)
                (coarse_cancelled st) no_best (or_introl eq_refl)) as Hbest.
  destruct (fine_loop _ _ _ _ _ _ _ _ _ _) as [cancelled best] eqn:Efine.
  cbn in Hbest.
  destruct (Rgt_dec (adjusted_score best) (8 / 100)) as [Hgt | _];
    [| left; reflexivity].
  right. exists best. destruct Hbest as [-> | Hsa].
  - cbn in Hgt. lra.
  - repeat split; try reflexivity; assumption.
Qed.

End Ranking.

(* ===================================================================== *)
(** ** Building the engine *)
(* ===================================================================== *)

Section Construction_properties.

Variable src : AlphaSource.

Lemma resize_capture_side capture side :
  (forall m w h interp,
      Cv.cols (resize_8U src m w h interp) = w /\
      Cv.rows (resize_8U src m w h interp) = h) ->
  Cv.cols (resize_capture src capture side) = side /\
  Cv.rows (resize_capture src capture side) = side.
Proof.
  intros Hresize. unfold resize_capture.
  destruct (Cv.cols capture =? side) eqn:Ec;
    destruct (Cv.rows capture =? side) eqn:Er; cbn;
    try apply Hresize.
  apply Z.eqb_eq in Ec. apply Z.eqb_eq in Er. split; assumption.
Qed.

(** X1: the embedded-asset constructor throws exactly when one of the two
    captures decodes to an empty matrix, naming the small capture when both
    do; otherwise it returns an engine with the given logo value whose
    alpha maps are computed from the captures, a capture that already has
    its expected side (48 or 96) being used without resampling. *)
Theorem WatermarkEngine_embedded_outcome png_small png_large logo_value :
  let bg_small := imdecode_color src png_small in
  let bg_large := imdecode_color src png_large in
  (throws (WatermarkEngine_embedded src png_small png_large logo_value)
   = Cv.empty bg_small || Cv.empty bg_large) /\
  (Cv.empty bg_small = true ->
   WatermarkEngine_embedded src png_small png_large logo_value
   = Throws "Failed to decode embedded small background capture") /\
  (Cv.empty bg_small = false -> Cv.empty bg_large = true ->
   WatermarkEngine_embedded src png_small png_large logo_value
   = Throws "Failed to decode embedded large background capture") /\
  (Cv.empty bg_small = false -> Cv.empty bg_large = false ->
   exists self,
     WatermarkEngine_embedded src png_small png_large logo_value
     = Returns self /\
     logo_value_ self = logo_value /\
     (Cv.cols bg_small = 48 -> Cv.rows bg_small = 48 ->
      alpha_map_small_ self = calculate_alpha_map src bg_small) /\
     (Cv.cols bg_large = 96 -> Cv.rows bg_large = 96 ->
      alpha_map_large_ self = calculate_alpha_map src bg_large)).
Proof.
  intros bg_small bg_large. unfold WatermarkEngine_embedded.
  fold bg_small. fold bg_large.
  destruct (Cv.empty bg_small) eqn:Es.
  - repeat split; try reflexivity; intros; discriminate.
  - destruct (Cv.empty bg_large) eqn:El.
    + repeat split; try reflexivity; intros; discriminate.
    + split; [reflexivity | ]. split; [intros; discriminate | ].
      split; [intros; discriminate | ]. intros _ _.
      eexists. split; [reflexivity | ]. cbn.
      split; [reflexivity | ].
      split; intros Hc Hr; unfold resize_capture;
        rewrite Hc, Hr; reflexivity.
Qed.

(** X2: when [cv::resize] yields the size it is asked for and
    [calculate_alpha_map] keeps the size of its input, every engine the
    constructor returns has a 48x48 small and a 96x96 large alpha map,
    whatever the sizes of the captures. *)
Theorem WatermarkEngine_embedded_standard png_small png_large logo_value self :
  (forall m w h interp,
      Cv.cols (resize_8U src m w h interp) = w /\
      Cv.rows (resize_8U src m w h interp) = h) ->
  (forall m,
      Cv.cols (calculate_alpha_map src m) = Cv.cols m /\
      Cv.rows (calculate_alpha_map src m) = Cv.rows m) ->
  WatermarkEngine_embedded src png_small png_large logo_value = Returns self ->
  standard_alpha_maps self.
Proof.
  intros Hresize Halpha. unfold WatermarkEngine_embedded.
  destruct (Cv.empty _); [discriminate | ].
  destruct (Cv.empty _); [discriminate | ].
  intros H. injection H as <-. unfold standard_alpha_maps. cbn.
  destruct (Halpha (resize_capture src (imdecode_color src png_small) 48))
    as [-> ->].
  destruct (Halpha (resize_capture src (imdecode_color src png_large) 96))
    as [-> ->].
  destruct (resize_capture_side (imdecode_color src png_small) 48 Hresize)
    as [-> ->].
  destruct (resize_capture_side (imdecode_color src png_large) 96 Hresize)
    as [-> ->].
  repeat split; reflexivity.
Qed.

End Construction_properties.

(** Captures of 50 x 50 and 96 x 96 pixels: the first is resampled, the
    second is not, and the engine has the standard sizes. *)
Lemma WatermarkEngine_embedded_standard_witness :
  exists self,
    WatermarkEngine_embedded Fixture2.source [50] [96] 255 = Returns self /\
    standard_alpha_maps self.
Proof.
  eexists. split; [reflexivity | ].
  apply (WatermarkEngine_embedded_standard Fixture2.source [50] [96] 255%R).
  - intros m w h interp. split; reflexivity.
  - intros m. split; reflexivity.
  - reflexivity.
Defined.

(** The small capture fails to decode. *)
Lemma WatermarkEngine_embedded_outcome_witness :
  WatermarkEngine_embedded Fixture2.source [0] [96] 255
  = Throws "Failed to decode embedded small background capture".
Proof.
  apply (WatermarkEngine_embedded_outcome Fixture2.source [0] [96] 255%R).
  reflexivity.
Defined.

(* ===================================================================== *)
(** ** Addition, custom regions and how the paths agree *)
(* ===================================================================== *)

(** X3: the fallback region lies inside the image exactly when the image is
    at least 80 pixels wide and 80 pixels high. *)
Theorem fallback_region_inside_iff (image_width image_height : Z) :
  rect_inside (get_fallback_watermark_region image_width image_height)
              image_width image_height
  <-> 80 <= image_width /\ 80 <= image_height.
Proof.
  unfold rect_inside, get_fallback_watermark_region, get_watermark_config,
    get_position.
  destruct (image_width >? 1024) eqn:Hw; destruct (image_height >? 1024) eqn:Hh;
    cbn; try (apply gtb_1024 in Hw); try (apply gtb_1024 in Hh); lia.
Qed.

Lemma config_of_size_auto (w h : Z) :
  config_of_size (get_watermark_size w h) = get_watermark_config w h.
Proof.
  unfold get_watermark_size, get_watermark_config.
  destruct ((w >? 1024) && (h >? 1024)); reflexivity.
Qed.

Lemma standard_alpha_map_side self size :
  standard_alpha_maps self ->
  Cv.cols (get_alpha_map self size) = logo_size (config_of_size size) /\
  Cv.rows (get_alpha_map self size) = logo_size (config_of_size size).
Proof.
  intros (Hsc & Hsr & Hlc & Hlr). destruct size; cbn; split; assumption.
Qed.

Section Agreement.

Variable cv : OpenCV.
Variable blend : BlendModes.
Variable to_float : R -> R.
Variable self : WatermarkEngine.

(** What [add_watermark] does to a non-empty image. *)
Lemma add_watermark_returns image force_size :
  Cv.empty image = false ->
  add_watermark cv blend self image force_size =
  let size :=
    value_or force_size (get_watermark_size (Cv.cols image) (Cv.rows image)) in
  Returns (add_watermark_alpha_blend blend (ensure_bgr cv image)
             (get_alpha_map self size)
             (get_position (config_of_size size)
                           (Cv.cols image) (Cv.rows image))
             (logo_value_ self)).
Proof.
  intros He. unfold add_watermark. rewrite He. cbv zeta.
  destruct (ensure_bgr_size cv image) as [Hc Hr]. rewrite Hc, Hr. reflexivity.
Qed.

(** X4: [add_watermark_custom] with a 48x48 region placed by the Small
    margin rule adds exactly what [add_watermark] with Small forced adds,
    and with a 96x96 region placed by the Large rule exactly what
    [add_watermark] with Large forced adds, the error on an empty image
    included. *)
Theorem add_watermark_custom_standard_sizes image px py qx qy :
  get_position (mkWatermarkPosition 32 32 48) (Cv.cols image) (Cv.rows image)
    = Cv.mkPoint px py ->
  get_position (mkWatermarkPosition 64 64 96) (Cv.cols image) (Cv.rows image)
    = Cv.mkPoint qx qy ->
  add_watermark_custom cv blend self image (Rect.make px py 48 48)
    = add_watermark cv blend self image (Some Small) /\
  add_watermark_custom cv blend self image (Rect.make qx qy 96 96)
    = add_watermark cv blend self image (Some Large).
Proof.
  intros Hp Hq.
  destruct (Cv.empty image) eqn:He.
  - unfold add_watermark_custom, add_watermark. rewrite He.
    split; reflexivity.
  - rewrite !(add_watermark_returns image _ He).
    unfold add_watermark_custom. rewrite He. cbn.
    unfold config_of_size. rewrite Hp, Hq. split; reflexivity.
Qed.

Lemma create_interpolated_alpha_size w h :
  (forall m w h interp,
      Cv.cols (resize cv m w h interp) = w /\
      Cv.rows (resize cv m w h interp) = h) ->
  Cv.cols (create_interpolated_alpha cv self w h) = w /\
  Cv.rows (create_interpolated_alpha cv self w h) = h.
Proof.
  intros Hresize. unfold create_interpolated_alpha.
  destruct (w =? Cv.cols (alpha_map_large_ self)) eqn:Ew;
    destruct (h =? Cv.rows (alpha_map_large_ self)) eqn:Eh; cbn;
    try apply Hresize.
  apply Z.eqb_eq in Ew. apply Z.eqb_eq in Eh. split; congruence.
Qed.

(** X5: on a non-empty image, with standard alpha maps and a [cv::resize]
    that yields the size asked for, the custom removal and the custom
    addition blend at the region's top-left corner with an alpha map that
    has exactly the region's width and height, whichever of the three
    branches (48x48, 96x96, interpolated) is taken. *)
Theorem custom_alpha_map_fits_region image region :
  standard_alpha_maps self ->
  (forall m w h interp,
      Cv.cols (resize cv m w h interp) = w /\
      Cv.rows (resize cv m w h interp) = h) ->
  Cv.empty image = false ->
  exists alpha_map : Cv.Mat R,
    Cv.cols alpha_map = Rect.width region /\
    Cv.rows alpha_map = Rect.height region /\
    remove_watermark_custom cv blend self image region
    = Returns (remove_watermark_alpha_blend blend (ensure_bgr cv image)
                 alpha_map (Cv.mkPoint (Rect.x region) (Rect.y region))
                 (logo_value_ self)) /\
    add_watermark_custom cv blend self image region
    = Returns (add_watermark_alpha_blend blend (ensure_bgr cv image)
                 alpha_map (Cv.mkPoint (Rect.x region) (Rect.y region))
                 (logo_value_ self)).
Proof.
  intros (Hsc & Hsr & Hlc & Hlr) Hresize He.
  unfold remove_watermark_custom, add_watermark_custom. rewrite He.
  destruct ((Rect.width region =? 48) && (Rect.height region =? 48)) eqn:E48.
  - apply andb_true_iff in E48 as [Hw Hh].
    apply Z.eqb_eq in Hw. apply Z.eqb_eq in Hh.
    exists (alpha_map_small_ self). repeat split; try reflexivity; congruence.
  - destruct ((Rect.width region =? 96) && (Rect.height region =? 96))
      eqn:E96.
    + apply andb_true_iff in E96 as [Hw Hh].
      apply Z.eqb_eq in Hw. apply Z.eqb_eq in Hh.
      exists (alpha_map_large_ self).
      repeat split; try reflexivity; congruence.
    + exists (create_interpolated_alpha cv self (Rect.width region)
                                        (Rect.height region)).
      destruct (create_interpolated_alpha_size
                  (Rect.width region) (Rect.height region) Hresize)
        as [Hc Hr].
      repeat split; try reflexivity; assumption.
Qed.

(** X6: with standard alpha maps and no forced size, detection, removal
    and addition all work on the fallback region: the detector reports it,
    and the removal and the addition blend at its top-left corner with an
    alpha map of its size. *)
Theorem automatic_paths_share_the_fallback_region image :
  standard_alpha_maps self ->
  Cv.empty image = false ->
  let box := get_fallback_watermark_region (Cv.cols image) (Cv.rows image) in
  DetectionResult.region (detect_watermark cv to_float self image None) = box
  /\
  exists alpha_map : Cv.Mat R,
    Cv.cols alpha_map = Rect.width box /\
    Cv.rows alpha_map = Rect.height box /\
    remove_watermark cv blend self image None
    = Returns (remove_watermark_alpha_blend blend (ensure_bgr cv image)
                 alpha_map (Cv.mkPoint (Rect.x box) (Rect.y box))
                 (logo_value_ self)) /\
    add_watermark cv blend self image None
    = Returns (add_watermark_alpha_blend blend (ensure_bgr cv image)
                 alpha_map (Cv.mkPoint (Rect.x box) (Rect.y box))
                 (logo_value_ self)).
Proof.
  intros Hstd He box.
  set (size := get_watermark_size (Cv.cols image) (Cv.rows image)).
  destruct (standard_alpha_map_side self size Hstd) as [Hc Hr].
  pose proof (config_of_size_auto (Cv.cols image) (Cv.rows image)) as Hcfg.
  fold size in Hcfg.
  split.
  - destruct (detect_reports_region cv to_float self image None He)
      as [Hreg _].
    rewrite Hreg. unfold detect_region, detect_alpha_map, detect_size,
      detect_pos, detect_config. cbn. fold size. rewrite Hc, Hr, Hcfg.
    reflexivity.
  - exists (get_alpha_map self size).
    rewrite (remove_watermark_returns cv blend self image None He).
    rewrite (add_watermark_returns image None He). cbn. fold size.
    rewrite Hc, Hr, Hcfg. repeat split; reflexivity.
Qed.

(** X7: whenever the detector goes on to score, the rectangle it cuts from
    the image lies inside the image, the rectangle it cuts from the alpha
    map lies inside the alpha map and has the same positive size, and the
    reference strip of stage 3, when used, lies inside the image, ends
    where the scored rectangle begins and has its width. *)
Theorem detect_rectangles_within_bounds image force_size :
  roi_out_of_bounds self image force_size = false ->
  let roi := image_roi self image force_size in
  let aroi := alpha_roi self image force_size in
  let alpha_map := detect_alpha_map self image force_size in
  let strip := ref_roi self image force_size in
  rect_inside roi (Cv.cols image) (Cv.rows image) /\
  rect_inside aroi (Cv.cols alpha_map) (Cv.rows alpha_map) /\
  0 < Rect.width roi /\ 0 < Rect.height roi /\
  Rect.width aroi = Rect.width roi /\ Rect.height aroi = Rect.height roi /\
  (8 < ref_h image ->
   rect_inside strip (Cv.cols image) (Cv.rows image) /\
   Rect.x strip = Rect.x roi /\ Rect.width strip = Rect.width roi /\
   Rect.y strip + Rect.height strip = Rect.y roi /\
   8 < Rect.height strip).
Proof.
  unfold roi_out_of_bounds. intros Hb.
  apply orb_false_iff in Hb as [Hx Hy].
  rewrite Z.geb_leb in Hx, Hy. apply Z.leb_gt in Hx. apply Z.leb_gt in Hy.
  cbv zeta. unfold rect_inside, image_roi, alpha_roi, ref_roi, ref_h.
  unfold roi_x1, roi_y1, roi_x2, roi_y2 in *.
  cbn [Rect.x Rect.y Rect.width Rect.height].
  do 6 (split; [lia | ]).
  intros Hh. lia.
Qed.

End Agreement.

(** An 800 x 600 image. *)
Lemma add_watermark_custom_standard_sizes_witness :
  let cv := Fixture.mock_cv (1 / 2) (fun _ => 0%R) in
  let image := Fixture.bgr_image 800 600 in
  add_watermark_custom cv Fixture.mock_blend Fixture.engine image
                       (Rect.make 720 520 48 48)
    = add_watermark cv Fixture.mock_blend Fixture.engine image (Some Small)
  /\
  add_watermark_custom cv Fixture.mock_blend Fixture.engine image
                       (Rect.make 640 440 96 96)
    = add_watermark cv Fixture.mock_blend Fixture.engine image (Some Large).
Proof.
  intros cv image.
  apply (add_watermark_custom_standard_sizes
           cv Fixture.mock_blend Fixture.engine image 720 520 640 440);
    reflexivity.
Defined.

Lemma fixture_engine_standard : standard_alpha_maps Fixture.engine.
Proof. repeat split; reflexivity. Qed.

Lemma mock_resize_size ncc stddev :
  forall m w h interp,
    Cv.cols (resize (Fixture.mock_cv ncc stddev) m w h interp) = w /\
    Cv.rows (resize (Fixture.mock_cv ncc stddev) m w h interp) = h.
Proof. intros m w h interp. split; reflexivity. Qed.

(** A 70 x 30 region of an 800 x 600 image: the interpolated map is
    70 columns by 30 rows. *)
Lemma custom_alpha_map_fits_region_witness :
  let cv := Fixture.mock_cv (1 / 2) (fun _ => 0%R) in
  let image := Fixture.bgr_image 800 600 in
  exists alpha_map : Cv.Mat R,
    Cv.cols alpha_map = 70 /\ Cv.rows alpha_map = 30 /\
    remove_watermark_custom cv Fixture.mock_blend Fixture.engine image
                            (Rect.make 100 200 70 30)
    = Returns (remove_watermark_alpha_blend Fixture.mock_blend
                 (ensure_bgr cv image) alpha_map (Cv.mkPoint 100 200) 255%R)
    /\
    add_watermark_custom cv Fixture.mock_blend Fixture.engine image
                         (Rect.make 100 200 70 30)
    = Returns (add_watermark_alpha_blend Fixture.mock_blend
                 (ensure_bgr cv image) alpha_map (Cv.mkPoint 100 200) 255%R).
Proof.
  intros cv image.
  apply (custom_alpha_map_fits_region cv Fixture.mock_blend Fixture.engine
           image (Rect.make 100 200 70 30) fixture_engine_standard
           (mock_resize_size (1 / 2) (fun _ => 0%R))).
  reflexivity.
Defined.

(** A 2000 x 1500 image: the fallback region is (1840, 1340, 96, 96). *)
Lemma automatic_paths_share_the_fallback_region_witness :
  let cv := Fixture.mock_cv (1 / 2) (fun _ => 0%R) in
  let image := Fixture.bgr_image 2000 1500 in
  DetectionResult.region
    (detect_watermark cv Fixture.exact_float Fixture.engine image None)
  = Rect.make 1840 1340 96 96.
Proof.
  intros cv image.
  apply (automatic_paths_share_the_fallback_region
           cv Fixture.mock_blend Fixture.exact_float Fixture.engine image
           fixture_engine_standard).
  reflexivity.
Defined.

(** A 100 x 60 image: the candidate box starts at row -20 and is clamped
    to rows 0..28. *)
Lemma detect_rectangles_within_bounds_witness :
  let image := Fixture.bgr_image 100 60 in
  rect_inside (image_roi Fixture.engine image None) 100 60 /\
  image_roi Fixture.engine image None = Rect.make 20 0 48 28 /\
  alpha_roi Fixture.engine image None = Rect.make 0 20 48 28.
Proof.
  intros image.
  assert (Hb : roi_out_of_bounds Fixture.engine image None = false)
    by reflexivity.
  split; [| split; reflexivity].
  exact (proj1 (detect_rectangles_within_bounds Fixture.engine image None Hb)).
Defined.

(* ===================================================================== *)
(** ** The legacy detection interface *)
(* ===================================================================== *)

Section Legacy_detector_properties.

Variable cv : OpenCV.
Variable to_float : R -> R.
Variable src : AlphaSource.
Variable bg_48_png : list Z.
Variable bg_96_png : list Z.

(** X8: a call of [detect_watermark_region] that returns gives no result
    exactly on an empty image, and then leaves the engine singleton as it
    was; on a non-empty image it gives the engine's automatic detection,
    with an engine that is either the one already there or one built from
    the embedded captures, and every later call, whatever its hint, reuses
    that engine and cannot throw. *)
Theorem detect_watermark_region_singleton g image hint_rect r g' :
  detect_watermark_region cv to_float src bg_48_png bg_96_png
                          g image hint_rect = Returns (r, g') ->
  (r = None <-> Cv.empty image = true) /\
  (Cv.empty image = true -> g' = g) /\
  (Cv.empty image = false ->
   exists engine,
     g' = Some engine /\
     r = Some (detect_watermark cv to_float engine image None) /\
     (g = Some engine \/
      g = None /\
      WatermarkEngine_embedded src bg_48_png bg_96_png 255 = Returns engine)
     /\
     forall image2 hint2,
       detect_watermark_region cv to_float src bg_48_png bg_96_png
                               g' image2 hint2
       = Returns (if Cv.empty image2 then None
                  else Some (detect_watermark cv to_float engine image2 None),
                  g')).
Proof.
  unfold detect_watermark_region, get_detection_engine.
  destruct (Cv.empty image) eqn:He.
  - intros H. injection H as <- <-.
    split; [split; reflexivity | ]. split; [reflexivity | discriminate].
  - destruct g as [engine | ].
    + intros H. injection H as <- <-.
      split; [split; [discriminate | discriminate] | ].
      split; [discriminate | ]. intros _.
      exists engine. repeat split; try reflexivity; [left; reflexivity | ].
      intros image2 hint2. destruct (Cv.empty image2); reflexivity.
    + destruct (WatermarkEngine_embedded src bg_48_png bg_96_png 255)
        as [engine | what] eqn:Ector; [| discriminate].
      intros H. injection H as <- <-.
      split; [split; [discriminate | discriminate] | ].
      split; [discriminate | ]. intros _.
      exists engine. repeat split; try reflexivity;
        [right; split; reflexivity | ].
      intros image2 hint2. destruct (Cv.empty image2); reflexivity.
Qed.

End Legacy_detector_properties.

(** The first call, on a 200 x 200 image with 48 and 96 pixel captures,
    builds the engine and keeps it. *)
Lemma detect_watermark_region_singleton_witness :
  let cv := Fixture.mock_cv (1 / 2) (fun _ => 0%R) in
  exists engine,
    snd (match detect_watermark_region cv Fixture.exact_float
                 Fixture2.source [48] [96] None
                 (Fixture.bgr_image 200 200) None with
         | Returns p => p
         | Throws _ => (None, None)
         end) = Some engine.
Proof.
  intros cv.
  destruct (detect_watermark_region cv Fixture.exact_float
              Fixture2.source [48] [96] None
              (Fixture.bgr_image 200 200) None) as [[r g'] | what] eqn:E.
  - destruct (detect_watermark_region_singleton
                cv Fixture.exact_float Fixture2.source [48] [96]
                None (Fixture.bgr_image 200 200) None r g' E)
      as (_ & _ & H).
    destruct (H eq_refl) as (engine & Hg & _).
    exists engine. exact Hg.
  - discriminate E.
Defined.

(* ===================================================================== *)
(** ** [process_image] *)
(* ===================================================================== *)

Section Process_image_properties.

Variable cv : OpenCV.
Variable blend : BlendModes.
Variable to_float : R -> R.
Variables Path World : Type.
Variable files : Files Path World.
Variable format_0f : R -> string.

(** Processing and writing keeps the confidence and the skipped mark. *)
Lemma process_and_write_keeps engine w image output_path remove force_size
      result :
  let out :=
    process_and_write cv blend Path World files engine w image output_path remove force_size result in
  ProcessResult.skipped (fst out) = ProcessResult.skipped result /\
  ProcessResult.confidence (fst out) = ProcessResult.confidence result.
Proof.
  unfold process_and_write.
  destruct (if remove then _ else _) as [image' | what];
    [| split; reflexivity].
  destruct (if _ && _ then _ else _) as [w1 | what]; [| split; reflexivity].
  destruct (imwrite _ _ _ _ _) as [[ok w2] | what]; [| split; reflexivity].
  destruct ok; split; reflexivity.
Qed.

(** The engine step of [process_image] on a loaded image cannot throw. *)
Lemma engine_step_returns engine (image : Cv.Mat Z) (remove : bool)
      force_size :
  Cv.empty image = false ->
  exists image',
    (if remove then remove_watermark cv blend engine image force_size
     else add_watermark cv blend engine image force_size) = Returns image'.
Proof.
  intros He. destruct remove.
  - rewrite (remove_watermark_returns cv blend engine image force_size He).
    eexists. reflexivity.
  - rewrite (add_watermark_returns cv blend engine image force_size He).
    eexists. reflexivity.
Qed.

(** X9: a skipped image is reported as a success and the file system is
    left as it was; skipping happens only in removal mode with detection
    on, for an image the detector did not flag and whose confidence is below
    the caller's threshold.  With detection off, or when adding, nothing is
    ever skipped and the reported confidence is 0. *)
Theorem process_image_skipping w input_path output_path remove engine
        force_size use_detection detection_threshold :
  let out :=
    process_image cv blend to_float Path World files format_0f
                  w input_path output_path remove engine force_size
                  use_detection detection_threshold in
  let detection :=
    detect_watermark cv to_float engine
                     (imread_color files w input_path) force_size in
  (ProcessResult.skipped (fst out) = true ->
   ProcessResult.success (fst out) = true /\
   snd out = w /\
   use_detection = true /\ remove = true /\
   DetectionResult.detected detection = false /\
   ProcessResult.confidence (fst out)
     = DetectionResult.confidence detection /\
   (DetectionResult.confidence detection < detection_threshold)%R) /\
  (use_detection && remove = false ->
   ProcessResult.skipped (fst out) = false /\
   ProcessResult.confidence (fst out) = 0%R).
Proof.
  cbv zeta. unfold process_image.
  destruct (Cv.empty (imread_color files w input_path)) eqn:He.
  - cbn. split; [discriminate | intros _; split; reflexivity].
  - destruct (use_detection && remove) eqn:Eud.
    + apply andb_true_iff in Eud as [-> ->].
      destruct (negb _ && _) eqn:Eskip.
      * cbn. split; [| discriminate]. intros _.
        apply andb_true_iff in Eskip as [Hd Hc].
        apply negb_true_iff in Hd.
        destruct (Rlt_dec _ _) as [Hlt | ]; [| discriminate].
        repeat split; try reflexivity; assumption.
      * split; [| discriminate].
        match goal with
        | |- context [process_and_write _ _ _ _ _ ?e ?w ?i ?o ?r ?f ?res] =>
            destruct (process_and_write_keeps e w i o r f res) as [Hs _]
        end.
        rewrite Hs. cbn. discriminate.
    + match goal with
      | |- context [process_and_write _ _ _ _ _ ?e ?w ?i ?o ?r ?f ?res] =>
          destruct (process_and_write_keeps e w i o r f res) as [Hs Hc]
      end.
      rewrite Hs, Hc. cbn.
      split; [discriminate | intros _; split; reflexivity].
Qed.


End Process_image_properties.

Section Process_image_threshold.

Variable cv : OpenCV.
Variable blend : BlendModes.
Variable to_float : R -> R.
Variables Path World : Type.
Variable files : Files Path World.
Variable format_0f : R -> string.

(** In removal mode with detection on, a loaded image is skipped exactly
    when the detector did not flag it and its confidence is below the
    caller's threshold. *)
Lemma process_image_skipped_iff w input_path output_path engine force_size
      detection_threshold :
  Cv.empty (imread_color files w input_path) = false ->
  let detection :=
    detect_watermark cv to_float engine
                     (imread_color files w input_path) force_size in
  ProcessResult.skipped
    (fst (process_image cv blend to_float Path World files format_0f
            w input_path output_path true engine force_size true
            detection_threshold)) = true
  <-> DetectionResult.detected detection = false /\
      (DetectionResult.confidence detection < detection_threshold)%R.
Proof.
  intros He detection. unfold process_image. rewrite He. cbn [andb].
  fold detection.
  destruct (DetectionResult.detected detection) eqn:Hd; cbn [negb andb].
  - match goal with
    | |- context [process_and_write _ _ _ _ _ ?e ?w ?i ?o ?r ?f ?res] =>
        destruct (process_and_write_keeps cv blend Path World files
                    e w i o r f res) as [Hs _]
    end.
    rewrite Hs. cbn. split; [discriminate | intros [H _]; discriminate].
  - destruct (Rlt_dec _ _) as [Hlt | Hnlt].
    + cbn. split; [intros _; split; [reflexivity | exact Hlt] | reflexivity].
    + match goal with
      | |- context [process_and_write _ _ _ _ _ ?e ?w ?i ?o ?r ?f ?res] =>
          destruct (process_and_write_keeps cv blend Path World files
                      e w i o r f res) as [Hs _]
      end.
      rewrite Hs. cbn. split; [discriminate | intros [_ H]; contradiction].
Qed.

(** X11: for an image that passes the detector's circuit breaker, removal
    with detection on skips it exactly when its confidence is below both
    the caller's threshold and the detector's own 0.35: raising the
    threshold above 0.35 changes nothing. *)
Theorem detection_skip_effective_threshold w input_path output_path engine
        force_size detection_threshold :
  let image := imread_color files w input_path in
  let detection := detect_watermark cv to_float engine image force_size in
  Cv.empty image = false ->
  roi_out_of_bounds engine image force_size = false ->
  ~ (spatial_score cv engine image force_size < 25 / 100)%R ->
  ProcessResult.skipped
    (fst (process_image cv blend to_float Path World files format_0f
            w input_path output_path true engine force_size true
            detection_threshold)) = true
  <-> (DetectionResult.confidence detection
       < Rmin detection_threshold (to_float (35 / 100)))%R.
Proof.
  intros image detection He Hroi Hs.
  rewrite (process_image_skipped_iff w input_path output_path engine
             force_size detection_threshold He).
  fold image. fold detection. subst detection.
  rewrite (detect_watermark_fused cv to_float engine image force_size
             He Hroi Hs).
  cbn. unfold kDetectionThreshold.
  set (c := to_float (clamp (fused_confidence cv engine image force_size) 0 1)).
  set (k := to_float (35 / 100)).
  destruct (Rge_dec c k) as [Hge | Hnge]; unfold Rmin;
    destruct (Rle_dec detection_threshold k); split.
  - intros [H _]. discriminate.
  - intros H. lra.
  - intros [H _]. discriminate.
  - intros H. lra.
  - intros [_ H]. exact H.
  - intros H. split; [reflexivity | exact H].
  - intros [_ H]. lra.
  - intros H. split; [reflexivity | lra].
Qed.

(** X12: when [process_image] reports a success that is not a skip, the
    engine processed the loaded image without throwing and [cv::imwrite]
    accepted exactly that result at the output path, with the parameters
    chosen from the lower-cased extension; the file system it was written
    to is the initial one, or the one [create_directories] returned. *)
Theorem process_image_writes_engine_output w input_path output_path
        (remove : bool) engine force_size use_detection detection_threshold :
  let out :=
    process_image cv blend to_float Path World files format_0f
                  w input_path output_path remove engine force_size
                  use_detection detection_threshold in
  let image := imread_color files w input_path in
  ProcessResult.success (fst out) = true ->
  ProcessResult.skipped (fst out) = false ->
  exists image' w1,
    (if remove then remove_watermark cv blend engine image force_size
     else add_watermark cv blend engine image force_size) = Returns image' /\
    (w1 = w \/
     fs_create_directories files w (parent_path files output_path)
     = Returns w1) /\
    imwrite files w1 output_path image'
            (output_params
               (transform_tolower (path_extension files output_path)))
    = Returns (true, snd out) /\
    ProcessResult.message (fst out)
    = (if remove then "Watermark removed" else "Watermark added")%string.
Proof.
  cbv zeta.
  assert (Hpw : forall result,
             ProcessResult.success result = false ->
             let o := process_and_write cv blend Path World files engine w
                        (imread_color files w input_path) output_path remove
                        force_size result in
             ProcessResult.success (fst o) = true ->
             exists image' w1,
               (if remove
                then remove_watermark cv blend engine
                       (imread_color files w input_path) force_size
                else add_watermark cv blend engine
                       (imread_color files w input_path) force_size)
               = Returns image' /\
               (w1 = w \/
                fs_create_directories files w (parent_path files output_path)
                = Returns w1) /\
               imwrite files w1 output_path image'
                       (output_params
                          (transform_tolower
                             (path_extension files output_path)))
               = Returns (true, snd o) /\
               ProcessResult.message (fst o)
               = (if remove then "Watermark removed"
                  else "Watermark added")%string).
  { intros result Hres. cbv zeta. unfold process_and_write.
    destruct (if remove then _ else _) as [image' | what];
      [| cbn; intros H; congruence].
    destruct (negb _ && negb _).
    - destruct (fs_create_directories files w _) as [w1 | what] eqn:Edir;
        [| cbn; intros H; congruence].
      destruct (imwrite files w1 _ _ _) as [[ok w2] | what] eqn:Ew;
        [| cbn; intros H; congruence].
      destruct ok; cbn; [| intros H; congruence].
      intros _. exists image', w1.
      repeat split; try reflexivity; [right; reflexivity | exact Ew].
    - destruct (imwrite files w _ _ _) as [[ok w2] | what] eqn:Ew;
        [| cbn; intros H; congruence].
      destruct ok; cbn; [| intros H; congruence].
      intros _. exists image', w.
      repeat split; try reflexivity; [left; reflexivity | exact Ew]. }
  unfold process_image.
  destruct (Cv.empty (imread_color files w input_path));
    [cbn; discriminate | ].
  destruct (use_detection && remove).
  - destruct (negb _ && _); [cbn; intros _ H; discriminate H | ].
    intros Hs _. apply Hpw in Hs; [exact Hs | reflexivity].
  - intros Hs _. apply Hpw in Hs; [exact Hs | reflexivity].
Qed.

End Process_image_threshold.


(** The photo scores 0.5 at both NCC stages, confidence 0.4: with the
    threshold at 0.9 it is still processed. *)
Lemma detection_skip_effective_threshold_witness :
  let cv := Fixture.mock_cv (1 / 2) (fun _ => 0%R) in
  ProcessResult.skipped
    (fst (process_image cv Fixture.mock_blend Fixture.exact_float
            string Fixture3.World Fixture3.files Fixture3.format_0f
            Fixture3.one_photo "a.jpg"%string "out.png"%string true
            Fixture.engine None true (9 / 10))) = true
  <-> (DetectionResult.confidence
         (detect_watermark cv Fixture.exact_float Fixture.engine
            (imread_color Fixture3.files Fixture3.one_photo "a.jpg"%string)
            None)
       < Rmin (9 / 10) (Fixture.exact_float (35 / 100)))%R.
Proof.
  intros cv.
  apply (detection_skip_effective_threshold
           cv Fixture.mock_blend Fixture.exact_float
           string Fixture3.World Fixture3.files Fixture3.format_0f
           Fixture3.one_photo "a.jpg"%string "out.png"%string
           Fixture.engine None (9 / 10)%R).
  - reflexivity.
  - reflexivity.
  - unfold spatial_score. cbn. lra.
Defined.

(** The same run with detection off ends in a success, and the file
    written is the engine's output. *)
Lemma process_image_writes_engine_output_witness :
  let cv := Fixture.mock_cv (1 / 2) (fun _ => 0%R) in
  let out :=
    process_image cv Fixture.mock_blend Fixture.exact_float
                  string Fixture3.World Fixture3.files Fixture3.format_0f
                  Fixture3.one_photo "a.jpg"%string "out.png"%string true
                  Fixture.engine None false (25 / 100) in
  exists image' w1,
    remove_watermark cv Fixture.mock_blend Fixture.engine
      (imread_color Fixture3.files Fixture3.one_photo "a.jpg"%string) None
    = Returns image' /\
    (w1 = Fixture3.one_photo \/
     fs_create_directories Fixture3.files Fixture3.one_photo
       (parent_path Fixture3.files "out.png"%string) = Returns w1) /\
    imwrite Fixture3.files w1 "out.png"%string image'
            [(IMWRITE_PNG_COMPRESSION, 6)]
    = Returns (true, snd out) /\
    ProcessResult.message (fst out) = "Watermark removed"%string.
Proof.
  intros cv out.
  apply (process_image_writes_engine_output
           cv Fixture.mock_blend Fixture.exact_float
           string Fixture3.World Fixture3.files Fixture3.format_0f
           Fixture3.one_photo "a.jpg"%string "out.png"%string true
           Fixture.engine None false (25 / 100)%R);
    reflexivity.
Defined.

(* ===================================================================== *)
(** ** The GUI controller: batch processing *)
(* ===================================================================== *)

Section Batch_properties.

Variables Path World : Type.
Variable files : Files Path World.
Variable format_int : Z -> string.
Variable process_image_ok :
  World -> Path -> Path -> bool -> WatermarkEngine -> option WatermarkSize ->
  bool * World.
Variable m_engine : WatermarkEngine.


(** X13: the batch counters stay consistent: from a state where the
    successes and failures add up to the current index and the index is
    within the queue, every batch operation of the controller leads to
    such a state again, and the initial state is one. *)
Theorem batch_counters_stay_consistent (st : AppState.t Path) w new_files dir :
  batch_counters_consistent (AppState.batch st) ->
  batch_counters_consistent
    (AppState.batch
       (snd (fst (process_batch_next Path World files format_int
                    process_image_ok m_engine st w)))) /\
  batch_counters_consistent
    (AppState.batch (start_batch_processing Path st)) /\
  batch_counters_consistent (AppState.batch (cancel_batch Path st)) /\
  batch_counters_consistent (AppState.batch (clear_batch Path st)) /\
  batch_counters_consistent
    (AppState.batch (add_batch_files Path World files st w new_files)) /\
  batch_counters_consistent
    (AppState.batch (set_batch_output_dir Path st dir)) /\
  batch_counters_consistent (AppState.batch (AppState.initial Path)).
Proof.
  intros [Hsum Hle]. unfold batch_counters_consistent.
  split; [| split; [| split; [| split; [| split; [| split]]]]].
  - unfold process_batch_next.
    destruct (BatchState.in_progress (AppState.batch st)); cbn;
      [| split; assumption].
    destruct (BatchState.cancel_requested (AppState.batch st)); cbn;
      [split; assumption | ].
    destruct (nth_error _ _) eqn:En; [| cbn; split; assumption].
    assert (Hsome : nth_error (BatchState.files (AppState.batch st))
                      (BatchState.current_index (AppState.batch st))
                    <> None) by congruence.
    apply nth_error_Some in Hsome.
    destruct (process_image_ok _ _ _ _ _ _) as [ok w']. destruct ok; cbn; lia.
  - unfold start_batch_processing.
    destruct (BatchState.files (AppState.batch st)) eqn:Ef; cbn.
    + rewrite Ef. split; assumption.
    + lia.
  - cbn. split; assumption.
  - cbn. lia.
  - cbn. rewrite length_app. lia.
  - cbn. split; assumption.
  - cbn. lia.
Qed.



(** X15: once [cancel_batch] has been called on a running batch, the next
    [process_batch_next] processes nothing: it returns false, leaves the
    file system, the queue, the index and the counters as they were, and
    marks the batch as no longer in progress; on a batch that is not
    running it changes nothing at all. *)
Theorem cancelled_batch_stops (st : AppState.t Path) w :
  let cancelled := cancel_batch Path st in
  let out :=
    process_batch_next Path World files format_int process_image_ok
                       m_engine cancelled w in
  fst (fst out) = false /\
  snd out = w /\
  BatchState.in_progress (AppState.batch (snd (fst out))) = false /\
  BatchState.files (AppState.batch (snd (fst out)))
  = BatchState.files (AppState.batch st) /\
  BatchState.current_index (AppState.batch (snd (fst out)))
  = BatchState.current_index (AppState.batch st) /\
  BatchState.success_count (AppState.batch (snd (fst out)))
  = BatchState.success_count (AppState.batch st) /\
  BatchState.fail_count (AppState.batch (snd (fst out)))
  = BatchState.fail_count (AppState.batch st) /\
  (BatchState.in_progress (AppState.batch st) = false ->
   snd (fst out) = cancelled).
Proof.
  cbv zeta. unfold process_batch_next, cancel_batch. cbn.
  destruct (BatchState.in_progress (AppState.batch st)) eqn:Hp; cbn.
  - repeat split; try reflexivity. discriminate.
  - repeat split; intros; reflexivity.
Qed.

End Batch_properties.

(* ===================================================================== *)
(** ** The GUI controller: the current image *)
(* ===================================================================== *)

Section Controller_properties.

Variable cv : OpenCV.
Variable blend : BlendModes.
Variables Path World Backend : Type.
Variable files : Files Path World.
Variable destroy_texture : Backend -> TextureHandle.t -> Backend.
Variable format_int : Z -> string.
Variable m_engine : WatermarkEngine.

Lemma has_image_not_empty (st : AppState.t Path) :
  ImageState.has_image (AppState.image st) = true ->
  Cv.empty (ImageState.original (AppState.image st)) = false.
Proof. unfold ImageState.has_image. apply negb_true_iff. Qed.

(** [update_display_image] only chooses the display and marks the texture. *)
Lemma update_display_image_keeps (st : AppState.t Path) :
  AppState.watermark_info (update_display_image Path st)
  = AppState.watermark_info st /\
  ImageState.processed (AppState.image (update_display_image Path st))
  = ImageState.processed (AppState.image st) /\
  ImageState.original (AppState.image (update_display_image Path st))
  = ImageState.original (AppState.image st).
Proof.
  unfold update_display_image.
  destruct (negb (ImageState.has_image (AppState.image st)));
    repeat split; reflexivity.
Qed.

(** X16: [load_image] on a file that cannot be read returns false, sets
    the Error state and keeps the previous image, watermark info, batch
    queue and backend; on a readable file it returns true with the state
    Loaded, the image as original and as display, its dimensions recorded,
    no processed image, the batch queue emptied, the processing options
    kept, watermark info present and no valid preview texture. *)
Theorem load_image_outcome (st : AppState.t Path) backend w path :
  let out :=
    load_image Path World Backend files destroy_texture format_int
               st backend w path in
  let ok := fst (fst out) in
  let st' := snd (fst out) in
  let image := imread_color files w path in
  (Cv.empty image = true ->
   ok = false /\ AppState.state st' = Error /\
   AppState.image st' = AppState.image st /\
   AppState.watermark_info st' = AppState.watermark_info st /\
   AppState.batch st' = AppState.batch st /\
   snd out = backend) /\
  (Cv.empty image = false ->
   ok = true /\ AppState.state st' = Loaded /\
   ImageState.original (AppState.image st') = image /\
   ImageState.display (AppState.image st') = image /\
   ImageState.has_processed (AppState.image st') = false /\
   dimensions_recorded st' /\
   AppState.watermark_info st' <> None /\
   AppState.batch st' = BatchState.clear (AppState.batch st) /\
   AppState.process_options st' = AppState.process_options st /\
   AppState.can_process st' = true /\
   AppState.can_save st' = false /\
   TextureHandle.valid (AppState.preview_texture st') = false).
Proof.
  cbv zeta. unfold load_image.
  destruct (Cv.empty (imread_color files w path)) eqn:He.
  - split; [intros _ | discriminate]. cbn. repeat split; reflexivity.
  - split; [discriminate | intros _].
    destruct (TextureHandle.valid (AppState.preview_texture st)) eqn:Hv;
      unfold update_display_image, update_watermark_info,
        ImageState.has_image, ImageState.has_processed,
        AppState.can_save, AppState.can_process, dimensions_recorded;
      cbn -[Cv.empty]; rewrite He; cbn -[Cv.empty]; rewrite ?He;
      cbn; repeat split; try reflexivity; try discriminate; try exact Hv.
Qed.

(** X17: on a loaded image whose recorded dimensions are the image's, and
    with standard alpha maps, the watermark info that [set_force_size]
    leaves describes exactly what [process_current] then does, for every
    choice of forced size and in both modes: processing completes, the
    processed image is the blend of the original at the info's position
    with an alpha map of the info's region size, and the region starts at
    that position and has the side the info reports. *)
Theorem watermark_info_matches_processing (st : AppState.t Path) force_size :
  standard_alpha_maps m_engine ->
  ImageState.has_image (AppState.image st) = true ->
  dimensions_recorded st ->
  let st1 := set_force_size Path st force_size in
  let st2 := process_current cv blend Path m_engine st1 in
  let original := ImageState.original (AppState.image st) in
  exists info alpha_map,
    AppState.watermark_info st1 = Some info /\
    AppState.watermark_info st2 = Some info /\
    AppState.state st2 = Completed /\
    ImageState.processed (AppState.image st2)
    = (if ProcessOptions.remove_mode (AppState.process_options st)
       then remove_watermark_alpha_blend blend
       else add_watermark_alpha_blend blend)
        (ensure_bgr cv original) alpha_map (WatermarkInfo.position info)
        (logo_value_ m_engine) /\
    Cv.cols alpha_map = Rect.width (WatermarkInfo.region info) /\
    Cv.rows alpha_map = Rect.height (WatermarkInfo.region info) /\
    Rect.x (WatermarkInfo.region info) = Cv.x (WatermarkInfo.position info) /\
    Rect.y (WatermarkInfo.region info) = Cv.y (WatermarkInfo.position info) /\
    Rect.width (WatermarkInfo.region info) = WatermarkInfo.width info /\
    Rect.height (WatermarkInfo.region info) = WatermarkInfo.height info.
Proof.
  intros Hstd Hhas [Hw Hh] st1 st2 original.
  pose proof (has_image_not_empty st Hhas) as He. fold original in He.
  set (size := value_or force_size
                 (get_watermark_size (Cv.cols original) (Cv.rows original))).
  destruct (standard_alpha_map_side m_engine size Hstd) as [Hc Hr].
  assert (Hinfo : AppState.watermark_info st1
                  = Some (WatermarkInfo.make
                            size
                            (get_position (config_of_size size)
                               (Cv.cols original) (Cv.rows original))
                            (Rect.make
                               (Cv.x (get_position (config_of_size size)
                                        (Cv.cols original) (Cv.rows original)))
                               (Cv.y (get_position (config_of_size size)
                                        (Cv.cols original) (Cv.rows original)))
                               (logo_size (config_of_size size))
                               (logo_size (config_of_size size))))).
  { unfold st1. unfold set_force_size. cbn -[ImageState.has_image].
    rewrite Hhas. unfold update_watermark_info. cbn -[ImageState.has_image].
    rewrite Hhas. cbn. rewrite Hw, Hh. fold original. subst size.
    destruct force_size as [s | ]; cbn.
    - destruct s; reflexivity.
    - rewrite config_of_size_auto. reflexivity. }
  assert (Hst1 : AppState.image st1 = AppState.image st /\
                 AppState.process_options st1
                 = ProcessOptions.make
                     (ProcessOptions.remove_mode (AppState.process_options st))
                     force_size).
  { unfold st1. unfold set_force_size. cbn -[ImageState.has_image].
    rewrite Hhas. unfold update_watermark_info.
    cbn -[ImageState.has_image]. rewrite Hhas. split; reflexivity. }
  destruct Hst1 as [Himg Hopt].
  exists (WatermarkInfo.make
            size
            (get_position (config_of_size size)
               (Cv.cols original) (Cv.rows original))
            (Rect.make
               (Cv.x (get_position (config_of_size size)
                        (Cv.cols original) (Cv.rows original)))
               (Cv.y (get_position (config_of_size size)
                        (Cv.cols original) (Cv.rows original)))
               (logo_size (config_of_size size))
               (logo_size (config_of_size size)))),
    (get_alpha_map m_engine size).
  split; [exact Hinfo | ].
  assert (Hproc :
            AppState.watermark_info st2 = AppState.watermark_info st1 /\
            AppState.state st2 = Completed /\
            ImageState.processed (AppState.image st2)
            = (if ProcessOptions.remove_mode (AppState.process_options st)
               then remove_watermark_alpha_blend blend
               else add_watermark_alpha_blend blend)
                (ensure_bgr cv original) (get_alpha_map m_engine size)
                (get_position (config_of_size size)
                   (Cv.cols original) (Cv.rows original))
                (logo_value_ m_engine)).
  { unfold st2. unfold process_current. rewrite Himg, Hhas. cbn [negb].
    cbn -[remove_watermark add_watermark update_display_image].
    rewrite Hopt. cbn -[remove_watermark add_watermark update_display_image].
    rewrite !Himg. fold original.
    destruct (ProcessOptions.remove_mode (AppState.process_options st)).
    - rewrite (remove_watermark_returns cv blend m_engine original
                 force_size He).
      cbn -[update_display_image]. fold size.
      match goal with
      | |- context [update_display_image Path ?s] =>
          destruct (update_display_image_keeps s) as (-> & -> & _)
      end.
      repeat split; reflexivity.
    - rewrite (add_watermark_returns cv blend m_engine original
                 force_size He).
      cbn -[update_display_image]. fold size.
      match goal with
      | |- context [update_display_image Path ?s] =>
          destruct (update_display_image_keeps s) as (-> & -> & _)
      end.
      repeat split; reflexivity. }
  destruct Hproc as (Hwi & Hstate & Hprocessed).
  rewrite Hwi, Hinfo, Hstate, Hprocessed. cbn.
  repeat split; try reflexivity; try assumption.
  - unfold WatermarkInfo.width. cbn. destruct size; reflexivity.
  - unfold WatermarkInfo.height, WatermarkInfo.width. cbn.
    destruct size; reflexivity.
Qed.

(** X18: [process_current] does nothing without an image; with one it
    always ends in the Completed state with an empty error message: the
    Error branch is out of reach, because the engine throws only on an
    empty image.  The original is kept, the preview is switched to the
    processed image, and saving becomes possible exactly when the
    processed image is not empty. *)
Theorem process_current_outcome (st : AppState.t Path) :
  let st' := process_current cv blend Path m_engine st in
  (ImageState.has_image (AppState.image st) = false -> st' = st) /\
  (ImageState.has_image (AppState.image st) = true ->
   AppState.state st' = Completed /\
   AppState.error_message st' = ""%string /\
   ImageState.original (AppState.image st')
   = ImageState.original (AppState.image st) /\
   PreviewOptions.show_processed (AppState.preview_options st') = true /\
   ImageState.display (AppState.image st')
   = (if ImageState.has_processed (AppState.image st')
      then ImageState.processed (AppState.image st')
      else ImageState.original (AppState.image st)) /\
   AppState.can_save st' = ImageState.has_processed (AppState.image st') /\
   AppState.can_process st' = true /\
   AppState.batch st' = AppState.batch st).
Proof.
  cbv zeta. unfold process_current.
  destruct (ImageState.has_image (AppState.image st)) eqn:Hhas; cbn [negb].
  - split; [discriminate | intros _].
    pose proof (has_image_not_empty st Hhas) as He.
    cbn -[remove_watermark add_watermark update_display_image].
    destruct (engine_step_returns cv blend m_engine
                (ImageState.original (AppState.image st))
                (ProcessOptions.remove_mode (AppState.process_options st))
                (ProcessOptions.force_size (AppState.process_options st)) He)
      as [processed Hstep].
    rewrite Hstep.
    match goal with
    | |- context [update_display_image Path ?s] => set (shown := s)
    end.
    assert (Hshown : ImageState.has_image (AppState.image shown) = true).
    { unfold ImageState.has_image. cbn -[Cv.empty]. rewrite He. reflexivity. }
    unfold update_display_image. rewrite Hshown. cbn [negb].
    unfold AppState.can_save, AppState.can_process,
      ImageState.has_processed.
    cbn -[Cv.empty].
    destruct (Cv.empty processed); cbn; repeat split; reflexivity.
  - split; [intros _; reflexivity | discriminate].
Qed.

(** X19: [toggle_preview] changes nothing unless there is both an image
    and a processed image; when there are, toggling twice brings back the
    preview choice, so that the state is the one [update_display_image]
    gives. *)
Theorem toggle_preview_twice (st : AppState.t Path) :
  (ImageState.has_image (AppState.image st)
   && ImageState.has_processed (AppState.image st) = false ->
   toggle_preview Path st = st) /\
  (ImageState.has_image (AppState.image st)
   && ImageState.has_processed (AppState.image st) = true ->
   toggle_preview Path (toggle_preview Path st) = update_display_image Path st
   /\
   PreviewOptions.show_processed
     (AppState.preview_options (toggle_preview Path st))
   = negb (PreviewOptions.show_processed (AppState.preview_options st))).
Proof.
  destruct st as [s sm em img wi po pr b pt tn sa ss dpi].
  destruct pr as [sp hw sv z px py].
  destruct img as [fp orig proc disp iw ih ic].
  unfold toggle_preview, update_display_image, ImageState.has_image,
    ImageState.has_processed.
  cbn -[Cv.empty].
  destruct (Cv.empty orig) eqn:Hi; destruct (Cv.empty proc) eqn:Hp;
    cbn -[Cv.empty];
    try (split; [intros _; reflexivity | discriminate]).
  split; [discriminate | intros _].
  rewrite ?Hi, ?Hp. cbn -[Cv.empty]. rewrite ?Hi, ?Hp. cbn.
  rewrite negb_involutive.
  destruct sp; cbn; split; reflexivity.
Qed.

End Controller_properties.

(* ===================================================================== *)
(** ** The command line *)
(* ===================================================================== *)

Lemma is_flag_iff (arg : string) :
  Cli.is_flag arg = true <-> exists rest, arg = String "-"%char rest.
Proof.
  destruct arg as [| c rest]; cbn.
  - split; [discriminate | intros [rest H]; discriminate].
  - split.
    + intros H. apply Ascii.eqb_eq in H. subst c. exists rest. reflexivity.
    + intros [rest' H]. injection H as -> _. apply Ascii.eqb_refl.
Qed.

Lemma no_flag_among_iff (args : list string) :
  Cli.no_flag_among args = true
  <-> Forall (fun arg => Cli.is_flag arg = false) args.
Proof.
  induction args as [| arg rest IH]; cbn.
  - split; [constructor | reflexivity].
  - destruct (Cli.is_flag arg) eqn:Ef.
    + split; [discriminate | ]. intros H. inversion H; congruence.
    + rewrite IH. split.
      * intros H. constructor; assumption.
      * intros H. inversion H; assumption.
Qed.

(** X20: the command line is handled in simple mode exactly when the
    program name is followed by at least one argument and no argument
    begins with a dash; one argument beginning with a dash, in any
    position, sends the whole command line to the option parser, while an
    empty argument does not. *)
Theorem is_simple_mode_iff (argv : list string) :
  (Cli.is_simple_mode argv = true
   <-> (2 <= List.length argv)%nat /\
       Forall (fun arg => Cli.is_flag arg = false) (tl argv)) /\
  (forall program before rest after,
      Cli.is_simple_mode
        (program :: before ++ String "-"%char rest :: after) = false) /\
  Cli.is_flag EmptyString = false.
Proof.
  split; [| split; [| reflexivity]].
  - unfold Cli.is_simple_mode.
    destruct (Z.of_nat (List.length argv) <? 2) eqn:E.
    + apply Z.ltb_lt in E. split; [discriminate | intros [H _]; lia].
    + apply Z.ltb_ge in E. rewrite no_flag_among_iff.
      split; [intros H; split; [lia | exact H] | intros [_ H]; exact H].
  - intros program before rest after. unfold Cli.is_simple_mode.
    destruct (Z.of_nat _ <? 2); [reflexivity | ]. cbn [tl].
    induction before as [| b before IH]; cbn.
    + reflexivity.
    + destruct (Cli.is_flag b); [reflexivity | exact IH].
Qed.





Section Cli_properties.

Variables Path World : Type.
Variable files : Files Path World.
Variable path_of : string -> Path.
Variable process_image_ok :
  World -> Path -> Path -> bool -> WatermarkEngine -> option WatermarkSize ->
  bool * World.
Variable src : AlphaSource.
Variable bg_48_png : list Z.
Variable bg_96_png : list Z.

Lemma process_single_counts w input output remove engine force_size result :
  let out :=
    Cli.process_single Path World process_image_ok
                       w input output remove engine force_size result in
  Cli.success (fst out) + Cli.fail (fst out)
  = Cli.success result + Cli.fail result + 1 /\
  Cli.success result <= Cli.success (fst out) /\
  Cli.fail result <= Cli.fail (fst out).
Proof.
  unfold Cli.process_single.
  destruct (process_image_ok _ _ _ _ _ _) as [ok w']. destruct ok; cbn; lia.
Qed.





Lemma batch_fold_counts engine output remove_mode force_size entries :
  forall acc,
    let out :=
      fold_left (Cli.batch_step Path World files process_image_ok
                                engine output remove_mode force_size)
                entries acc in
    Cli.success (fst out) + Cli.fail (fst out)
    <= Cli.success (fst acc) + Cli.fail (fst acc)
       + Z.of_nat (List.length entries) /\
    Cli.success (fst acc) <= Cli.success (fst out) /\
    Cli.fail (fst acc) <= Cli.fail (fst out).
Proof.
  induction entries as [| entry rest IH]; intros acc;
    cbn [fold_left List.length].
  - cbn. lia.
  - destruct (IH (Cli.batch_step Path World files process_image_ok engine
                    output remove_mode force_size acc entry))
      as (H4 & H5 & H6).
    assert (Hstep :
              let o := Cli.batch_step Path World files process_image_ok
                         engine output remove_mode force_size acc entry in
              Cli.success (fst o) + Cli.fail (fst o)
              <= Cli.success (fst acc) + Cli.fail (fst acc) + 1 /\
              Cli.success (fst acc) <= Cli.success (fst o) /\
              Cli.fail (fst acc) <= Cli.fail (fst o)).
    { destruct acc as [result w]. unfold Cli.batch_step.
      destruct (negb (fs_is_regular_file files w entry)); [cbn; lia | ].
      destruct (negb (Cli.batch_accepts _)); [cbn; lia | ].
      match goal with
      | |- context [Cli.process_single _ _ _ ?a ?b ?c ?d ?e ?f ?g] =>
          destruct (process_single_counts a b c d e f g) as (H1 & H2 & H3)
      end.
      cbv zeta in H1, H2, H3 |- *. cbn [fst]. lia. }
    cbv zeta in Hstep |- *. rewrite Nat2Z.inj_succ. lia.
Qed.

(** X23: [run] with both --force-small and --force-large exits with code
    1 before the engine is built or any file is touched; in every case the
    exit code is 0 or 1, and 0 means that the flags were compatible, the
    engine was built and no file failed. *)
Theorem run_with_options_exit_code input_path output_path
        force_small force_large w :
  let out :=
    Cli.run_with_options Path World files path_of process_image_ok
                         src bg_48_png bg_96_png
                         input_path output_path force_small force_large w in
  let code := fst (fst out) in
  let result := snd (fst out) in
  (code = 0 \/ code = 1) /\
  (force_small && force_large = true ->
   out = (1, Cli.mkProcessResult 0 0, w)) /\
  (code = 0 ->
   force_small && force_large = false /\
   throws (WatermarkEngine_embedded src bg_48_png bg_96_png 255) = false /\
   Cli.fail result = 0).
Proof.
  cbv zeta. unfold Cli.run_with_options.
  assert (Hcode : forall result : Cli.ProcessResult,
             0 <= Cli.fail result ->
             ((if Cli.fail result >? 0 then 1 else 0) = 0 \/
              (if Cli.fail result >? 0 then 1 else 0) = 1) /\
             ((if Cli.fail result >? 0 then 1 else 0) = 0 ->
              Cli.fail result = 0)).
  { intros result Hnn. destruct (Cli.fail result >? 0) eqn:E.
    - split; [right; reflexivity | discriminate].
    - rewrite Z.gtb_ltb in E. apply Z.ltb_ge in E.
      split; [left; reflexivity | intros _; lia]. }
  destruct (force_small && force_large) eqn:Eflags.
  - cbn. split; [right; reflexivity | ].
    split; [intros _; reflexivity | discriminate].
  - destruct (WatermarkEngine_embedded src bg_48_png bg_96_png 255)
      as [engine | what]; cbn [throws].
    + destruct (fs_is_directory files w (path_of input_path)).
      * destruct (if negb (fs_exists files w (path_of output_path))
                  then _ else _) as [w1 | what].
        -- match goal with
           | |- context [fold_left (Cli.batch_step _ _ _ _ ?e ?o ?r ?f) ?l ?a] =>
               destruct (batch_fold_counts e o r f l a) as (_ & _ & Hf)
           end.
           cbv zeta in Hf.
           destruct (fold_left _ _ _) as [result w2]. cbn in Hf |- *.
           destruct (Hcode result Hf) as [H1 H2].
           split; [exact H1 | ]. split; [discriminate | ].
           intros H. repeat split; try reflexivity. exact (H2 H).
        -- cbn. split; [right; reflexivity | ].
           split; discriminate.
      * match goal with
        | |- context [Cli.process_single _ _ _ ?a ?b ?c ?d ?e ?f ?g] =>
            destruct (process_single_counts a b c d e f g) as (_ & _ & Hf)
        end.
        cbv zeta in Hf.
        destruct (Cli.process_single _ _ _ _ _ _ _ _ _ _) as [result w2].
        cbn in Hf |- *.
        destruct (Hcode result Hf) as [H1 H2].
        split; [exact H1 | ]. split; [discriminate | ].
        intros H. repeat split; try reflexivity. exact (H2 H).
    + cbn. split; [right; reflexivity | ]. split; discriminate.
Qed.

End Cli_properties.

Section Saving.

Variables Path World : Type.
Variable files : Files Path World.

(** X24: [save_image] writes nothing unless the state is Completed with a
    processed image; whenever it returns, the image, the processing state
    and the batch are as before, so a save that failed can be tried again;
    and when it returns true, [cv::imwrite] accepted exactly the processed
    image at the given path, with the parameters [process_image] would use
    for that extension. *)
Theorem save_image_outcome (st : AppState.t Path) w path :
  (AppState.can_save st = false ->
   save_image Path World files st w path = Returns (false, st, w)) /\
  (forall (ok : bool) st' w',
      save_image Path World files st w path = Returns (ok, st', w') ->
      AppState.image st' = AppState.image st /\
      AppState.state st' = AppState.state st /\
      AppState.batch st' = AppState.batch st /\
      AppState.can_save st' = AppState.can_save st /\
      (ok = true ->
       AppState.can_save st = true /\
       exists w1,
         (w1 = w \/
          fs_create_directories files w (parent_path files path)
          = Returns w1) /\
         imwrite files w1 path (ImageState.processed (AppState.image st))
                 (output_params
                    (transform_tolower (path_extension files path)))
         = Returns (true, w'))).
Proof.
  unfold save_image. split.
  - intros ->. reflexivity.
  - intros ok st' w' Hret.
    assert (Hkeep : forall status error,
               let st'' :=
                 AppState.with_status_message
                   (AppState.with_error_message st error) status in
               AppState.image st'' = AppState.image st /\
               AppState.state st'' = AppState.state st /\
               AppState.batch st'' = AppState.batch st /\
               AppState.can_save st'' = AppState.can_save st).
    { intros status error. repeat split; reflexivity. }
    assert (Hkeep' : forall status,
               let st'' := AppState.with_status_message st status in
               AppState.image st'' = AppState.image st /\
               AppState.state st'' = AppState.state st /\
               AppState.batch st'' = AppState.batch st /\
               AppState.can_save st'' = AppState.can_save st).
    { intros status. repeat split; reflexivity. }
    destruct (AppState.can_save st) eqn:Hsave; cbn [negb] in Hret.
    2:{ inversion Hret; subst.
        split; [reflexivity | ]. split; [reflexivity | ].
        split; [reflexivity | ]. split; [exact Hsave | ].
        intros Hok. discriminate Hok. }
    cbv zeta in Hret.
    destruct (negb (path_empty files (parent_path files path))
              && negb (fs_exists files w (parent_path files path))) eqn:Hdir.
    + destruct (fs_create_directories files w (parent_path files path))
        as [w1 | what] eqn:Hmk; [| discriminate].
      destruct (imwrite files w1 path _ _) as [[success w2] | what] eqn:Hwr;
        [| discriminate].
      destruct success; inversion Hret; subst.
      * destruct (Hkeep' ("Saved: "
                            ++ path_string files (path_filename files path))%string)
          as (H1 & H2 & H3 & H4).
        split; [exact H1 | ]. split; [exact H2 | ]. split; [exact H3 | ].
        split; [exact H4 | ].
        intros _. split; [reflexivity | ].
        exists w1. split; [right; reflexivity | exact Hwr].
      * destruct (Hkeep "Save failed"%string
                        ("Failed to save: " ++ path_string files path)%string)
          as (H1 & H2 & H3 & H4).
        split; [exact H1 | ]. split; [exact H2 | ]. split; [exact H3 | ].
        split; [exact H4 | ].
        intros Hok. discriminate Hok.
    + destruct (imwrite files w path _ _) as [[success w2] | what] eqn:Hwr;
        [| discriminate].
      destruct success; inversion Hret; subst.
      * destruct (Hkeep' ("Saved: "
                            ++ path_string files (path_filename files path))%string)
          as (H1 & H2 & H3 & H4).
        split; [exact H1 | ]. split; [exact H2 | ]. split; [exact H3 | ].
        split; [exact H4 | ].
        intros _. split; [reflexivity | ].
        exists w. split; [left; reflexivity | exact Hwr].
      * destruct (Hkeep "Save failed"%string
                        ("Failed to save: " ++ path_string files path)%string)
          as (H1 & H2 & H3 & H4).
        split; [exact H1 | ]. split; [exact H2 | ]. split; [exact H3 | ].
        split; [exact H4 | ].
        intros Hok. discriminate Hok.
Qed.

End Saving.

(* ===================================================================== *)
(** ** The controller and the command line on sample inputs *)
(* ===================================================================== *)

(** The queue of two files, before it is started. *)
Lemma batch_counters_stay_consistent_witness :
  batch_counters_consistent
    (AppState.batch
       (snd (fst (process_batch_next string Fixture3.World Fixture3.files
                    Fixture4.format_int Fixture4.process_image_ok
                    Fixture.engine
                    (start_batch_processing string Fixture4.queued)
                    Fixture3.one_photo)))).
Proof.
  apply (batch_counters_stay_consistent
           string Fixture3.World Fixture3.files Fixture4.format_int
           Fixture4.process_image_ok Fixture.engine
           (start_batch_processing string Fixture4.queued)
           Fixture3.one_photo [] EmptyString).
  split; cbn; lia.
Defined.


(** The loaded photo with Large forced: the info box is (40, 40, 96, 96). *)
Lemma watermark_info_matches_processing_witness :
  let cv := Fixture.mock_cv (1 / 2) (fun _ => 0%R) in
  let st1 := set_force_size string Fixture4.loaded (Some Large) in
  let st2 := process_current cv Fixture.mock_blend string Fixture.engine st1 in
  exists info alpha_map,
    AppState.watermark_info st1 = Some info /\
    AppState.watermark_info st2 = Some info /\
    AppState.state st2 = Completed /\
    ImageState.processed (AppState.image st2)
    = remove_watermark_alpha_blend Fixture.mock_blend
        (ensure_bgr cv (Fixture.bgr_image 200 200)) alpha_map
        (WatermarkInfo.position info) 255%R /\
    Cv.cols alpha_map = Rect.width (WatermarkInfo.region info) /\
    Cv.rows alpha_map = Rect.height (WatermarkInfo.region info) /\
    Rect.x (WatermarkInfo.region info) = Cv.x (WatermarkInfo.position info) /\
    Rect.y (WatermarkInfo.region info) = Cv.y (WatermarkInfo.position info) /\
    Rect.width (WatermarkInfo.region info) = WatermarkInfo.width info /\
    Rect.height (WatermarkInfo.region info) = WatermarkInfo.height info.
Proof.
  intros cv st1 st2.
  apply (watermark_info_matches_processing
           cv Fixture.mock_blend string Fixture.engine
           Fixture4.loaded (Some Large) fixture_engine_standard).
  - reflexivity.
  - split; reflexivity.
Defined.

(* ===================================================================== *)
(** ** Guided detection: the scale list, the sweep and the match rectangle *)
(* ===================================================================== *)

Lemma count_up_bounds step : 0 < step ->
  forall fuel s hi x, In x (count_up fuel s hi step) -> s <= x <= hi.
Proof.
  intros Hstep fuel. induction fuel as [| fuel IH]; intros s hi x Hin; cbn in Hin;
    [destruct Hin | ].
  destruct (s <=? hi) eqn:E; [| destruct Hin].
  apply Z.leb_le in E. destruct Hin as [<- | Hin]; [lia | ].
  apply IH in Hin. lia.
Qed.

Lemma for_range_bounds lo hi step x :
  0 < step -> In x (for_range lo hi step) -> lo <= x <= hi.
Proof. intros Hstep. unfold for_range. apply count_up_bounds. exact Hstep. Qed.

Lemma insert_scale_In x s l : In x (insert_scale s l) <-> x = s \/ In x l.
Proof.
  induction l as [| h t IH]; cbn.
  - intuition.
  - destruct (s <=? h); cbn; [intuition | ].
    rewrite IH. intuition.
Qed.

Lemma sort_scales_In x l : In x (sort_scales l) <-> In x l.
Proof.
  unfold sort_scales. induction l as [| h t IH]; cbn; [reflexivity | ].
  rewrite insert_scale_In, IH. intuition.
Qed.

Lemma insert_scale_HdRel h s t :
  h <= s -> HdRel Z.le h t -> HdRel Z.le h (insert_scale s t).
Proof.
  intros Hhs Hht. destruct t as [| h' t']; cbn.
  - constructor. exact Hhs.
  - destruct (s <=? h').
    + constructor. exact Hhs.
    + constructor. inversion Hht; assumption.
Qed.

Lemma insert_scale_Sorted s l :
  Sorted Z.le l -> Sorted Z.le (insert_scale s l).
Proof.
  intros Hl. induction Hl as [| h t Ht IH Hh]; cbn.
  - constructor; constructor.
  - destruct (s <=? h) eqn:E.
    + apply Z.leb_le in E. constructor; [constructor; assumption | ].
      constructor. exact E.
    + apply Z.leb_gt in E. constructor; [exact IH | ].
      apply insert_scale_HdRel; [lia | exact Hh].
Qed.

Lemma sort_scales_Sorted l : Sorted Z.le (sort_scales l).
Proof.
  unfold sort_scales. induction l as [| h t IH]; cbn; [constructor | ].
  apply insert_scale_Sorted. exact IH.
Qed.

Lemma add_standard_size_In lo hi l std_size x :
  In x (add_standard_size lo hi l std_size)
  -> In x l \/ (x = std_size /\ lo <= std_size <= hi).
Proof.
  unfold add_standard_size.
  destruct ((std_size >=? lo) && (std_size <=? hi)) eqn:E; [| intuition].
  apply andb_prop in E. destruct E as [E1 E2].
  rewrite Z.geb_leb in E1. apply Z.leb_le in E1. apply Z.leb_le in E2.
  destruct (existsb _ l); [intuition | ].
  intros Hin. apply in_app_or in Hin. destruct Hin as [Hin | [<- | []]];
    [left; exact Hin | right; lia].
Qed.

Lemma add_standard_size_keeps lo hi l std_size x :
  In x l -> In x (add_standard_size lo hi l std_size).
Proof.
  intros Hin. unfold add_standard_size.
  destruct ((std_size >=? lo) && (std_size <=? hi)); [| exact Hin].
  destruct (existsb _ l); [exact Hin | ].
  apply in_or_app. left. exact Hin.
Qed.

Lemma add_standard_size_near lo hi l std_size :
  lo <= std_size <= hi ->
  exists s, In s (add_standard_size lo hi l std_size)
            /\ Z.abs (s - std_size) <= 2.
Proof.
  intros Hr. unfold add_standard_size.
  assert (E : (std_size >=? lo) && (std_size <=? hi) = true).
  { apply andb_true_intro. split;
      [rewrite Z.geb_leb; apply Z.leb_le; lia | apply Z.leb_le; lia]. }
  rewrite E.
  destruct (existsb (fun s => Z.abs (s - std_size) <=? 2) l) eqn:Ex.
  - apply existsb_exists in Ex. destruct Ex as (s & Hin & Hs).
    exists s. split; [exact Hin | apply Z.leb_le; exact Hs].
  - exists std_size. split; [apply in_or_app; right; left; reflexivity | lia].
Qed.

(** X25: the coarse scale list is in ascending order and stays within the
    size range; it holds every min_size + 8k of the range, and for each of
    the standard sizes 48 and 96 that the range contains a scale at most two
    pixels away from it, which need not be the standard size itself: for
    the range 46..60 the list is 46, 54. *)
Theorem coarse_scale_list_contents (min_size max_size : Z) :
  Sorted Z.le (coarse_scale_list min_size max_size) /\
  (forall s, In s (coarse_scale_list min_size max_size)
             -> min_size <= s <= max_size) /\
  (forall k, 0 <= k -> min_size + k * 8 <= max_size ->
             In (min_size + k * 8) (coarse_scale_list min_size max_size)) /\
  (forall std_size,
      std_size = 48 \/ std_size = 96 ->
      min_size <= std_size <= max_size ->
      exists s, In s (coarse_scale_list min_size max_size)
                /\ Z.abs (s - std_size) <= 2) /\
  coarse_scale_list 46 60 = [46; 54].
Proof.
  unfold coarse_scale_list. cbn [fold_left].
  set (base := for_range min_size max_size kCoarseScaleStep).
  split; [apply sort_scales_Sorted | ].
  split.
  { intros s Hin. apply (proj1 (sort_scales_In _ _)) in Hin.
    apply add_standard_size_In in Hin. destruct Hin as [Hin | Hin]; [| lia].
    apply add_standard_size_In in Hin. destruct Hin as [Hin | Hin]; [| lia].
    apply for_range_bounds in Hin; [exact Hin | unfold kCoarseScaleStep; lia]. }
  split.
  { intros k Hk Hle. apply (proj2 (sort_scales_In _ _)).
    do 2 apply add_standard_size_keeps.
    apply (for_range_complete min_size max_size kCoarseScaleStep k);
      unfold kCoarseScaleStep; lia. }
  split; [| reflexivity].
  intros std_size [-> | ->] Hr.
  - destruct (add_standard_size_near min_size max_size base 48 Hr)
      as (s & Hin & Hs).
    exists s. split; [| exact Hs].
    apply (proj2 (sort_scales_In _ _)). apply add_standard_size_keeps. exact Hin.
  - destruct (add_standard_size_near min_size max_size
                (add_standard_size min_size max_size base 48) 96 Hr)
      as (s & Hin & Hs).
    exists s. split; [| exact Hs].
    apply (proj2 (sort_scales_In _ _)). exact Hin.
Qed.

Section Guided_sweep.

Variable cv : OpenCV.
Variable to_float : R -> R.
Variable self : WatermarkEngine.

Lemma coarse_loop_uncancelled gray_f flag :
  (forall n, cancel_requested flag n = false) ->
  forall scales n searched candidates,
    let st := coarse_loop cv self gray_f flag scales n searched candidates in
    coarse_cancelled st = false /\
    coarse_searched st = searched + Z.of_nat (List.length scales).
Proof.
  intros Hflag scales.
  induction scales as [| s rest IH]; intros n searched candidates.
  - cbn. split; [reflexivity | lia].
  - cbn -[Z.of_nat]. rewrite Hflag.
    destruct ((s >? Cv.cols gray_f) || (s >? Cv.rows gray_f)).
    + destruct (IH (S n) (searched + 1) candidates) as [Hc Hs].
      split; [exact Hc | rewrite Hs; lia].
    + match goal with
      | |- context [coarse_loop _ _ _ _ rest (S n) (searched + 1) ?c] =>
          destruct (IH (S n) (searched + 1) c) as [Hc Hs]
      end.
      split; [exact Hc | rewrite Hs; lia].
Qed.

Lemma fine_loop_uncancelled gray_f flag lo hi :
  (forall n, cancel_requested flag n = false) ->
  forall candidates n cancelled best,
    fst (fine_loop cv self gray_f flag lo hi candidates n cancelled best)
    = cancelled.
Proof.
  intros Hflag candidates.
  induction candidates as [| c rest IH]; intros n cancelled best; cbn;
    [reflexivity | ].
  rewrite Hflag. apply IH.
Qed.

(** X26: when no load of the cancellation flag sees it set (in particular
    with a null flag), the call is not marked cancelled and every scale of
    the list is counted as searched, scales that do not fit the search
    region included; the list is non-empty exactly when the search rectangle
    and its clamped version are at least 8 x 8 and the clamped size range is
    not empty. *)
Theorem guided_detect_full_sweep image search_rect flag min_size max_size :
  (forall n, cancel_requested flag n = false) ->
  let r :=
    guided_detect cv to_float self image search_rect flag min_size max_size in
  let search :=
    Rect.intersect search_rect
                   (Rect.make 0 0 (Cv.cols image) (Cv.rows image)) in
  GuidedDetectionResult.was_cancelled r = false /\
  GuidedDetectionResult.scales_searched r
  = GuidedDetectionResult.total_scales r /\
  (0 < GuidedDetectionResult.total_scales r
   <-> 8 <= Rect.width search_rect /\ 8 <= Rect.height search_rect /\
       8 <= Rect.width search /\ 8 <= Rect.height search /\
       Z.max min_size 16
       <= Z.min max_size (Z.min (Rect.width search) (Rect.height search))).
Proof.
  intros Hflag r search.
  destruct (Z_lt_dec (Rect.width search_rect) 8) as [Hw | Hw].
  { assert (Hr : r = GuidedDetectionResult.zero).
    { unfold r, guided_detect.
      assert (E : (Rect.width search_rect <? 8) = true) by (apply Z.ltb_lt; lia).
      rewrite E, orb_true_r. reflexivity. }
    rewrite Hr. cbn. repeat split; try lia. }
  destruct (Z_lt_dec (Rect.height search_rect) 8) as [Hh | Hh].
  { assert (Hr : r = GuidedDetectionResult.zero).
    { unfold r, guided_detect.
      assert (E : (Rect.height search_rect <? 8) = true)
        by (apply Z.ltb_lt; lia).
      rewrite E, orb_true_r. reflexivity. }
    rewrite Hr. cbn. repeat split; try lia. }
  destruct (Z_lt_dec (Rect.width search) 8) as [Hsw | Hsw].
  { assert (Hr : r = GuidedDetectionResult.zero).
    { unfold r, guided_detect.
      destruct (Cv.empty image || (Rect.width search_rect <? 8)
                || (Rect.height search_rect <? 8)); [reflexivity | ].
      fold search.
      assert (E : (Rect.width search <? 8) = true) by (apply Z.ltb_lt; lia).
      rewrite E. reflexivity. }
    rewrite Hr. cbn. repeat split; try lia. }
  destruct (Z_lt_dec (Rect.height search) 8) as [Hsh | Hsh].
  { assert (Hr : r = GuidedDetectionResult.zero).
    { unfold r, guided_detect.
      destruct (Cv.empty image || (Rect.width search_rect <? 8)
                || (Rect.height search_rect <? 8)); [reflexivity | ].
      fold search.
      assert (E : (Rect.height search <? 8) = true) by (apply Z.ltb_lt; lia).
      rewrite E, orb_true_r. reflexivity. }
    rewrite Hr. cbn. repeat split; try lia. }
  set (lo := Z.max min_size 16).
  set (hi := Z.min max_size (Z.min (Rect.width search) (Rect.height search))).
  destruct (Z_lt_dec hi lo) as [Hlh | Hlh].
  { assert (Hr : r = GuidedDetectionResult.zero).
    { unfold r, guided_detect.
      destruct (Cv.empty image || (Rect.width search_rect <? 8)
                || (Rect.height search_rect <? 8)); [reflexivity | ].
      fold search.
      destruct ((Rect.width search <? 8) || (Rect.height search <? 8));
        [reflexivity | ].
      fold lo. fold hi.
      assert (E : (lo >? hi) = true) by (rewrite Z.gtb_ltb; apply Z.ltb_lt; lia).
      rewrite E. reflexivity. }
    rewrite Hr. cbn. repeat split; try lia. }
  assert (He : Cv.empty image = false).
  { apply (clamped_search_in_nonempty_image image search_rect); fold search; lia. }
  pose proof (guided_detect_searching cv to_float self image search_rect flag
                min_size max_size He) as Hr.
  cbv zeta in Hr. fold search in Hr. fold lo in Hr. fold hi in Hr. fold r in Hr.
  specialize (Hr ltac:(lia) ltac:(lia) ltac:(lia) ltac:(lia) ltac:(lia)).
  set (scales := coarse_scale_list lo hi) in *.
  set (gray_f := search_gray_f cv image search) in *.
  pose proof (coarse_scale_list_nonempty lo hi ltac:(lia)) as Hne.
  fold scales in Hne.
  destruct (coarse_loop_uncancelled gray_f flag Hflag scales 0 0 [])
    as [Hc Hs].
  set (st := coarse_loop cv self gray_f flag scales 0 0 []) in *.
  pose proof (fine_loop_uncancelled gray_f flag lo hi Hflag
                (coarse_candidates st) (coarse_loads st)
                (coarse_cancelled st) no_best) as Hfine.
  rewrite Hr. clearbody st scales.
  assert (Hgoal : forall cancelled found confidence raw_ncc match_rect size,
             cancelled = false ->
             let r' :=
               GuidedDetectionResult.make
                 found confidence raw_ncc match_rect size
                 (coarse_searched st) (Z.of_nat (List.length scales))
                 cancelled in
             GuidedDetectionResult.was_cancelled r' = false /\
             GuidedDetectionResult.scales_searched r'
             = GuidedDetectionResult.total_scales r' /\
             (0 < GuidedDetectionResult.total_scales r'
              <-> 8 <= Rect.width search_rect /\ 8 <= Rect.height search_rect /\
                  8 <= Rect.width search /\ 8 <= Rect.height search /\
                  lo <= hi)).
  { intros cancelled found confidence raw_ncc match_rect size ->.
    cbn [GuidedDetectionResult.was_cancelled
           GuidedDetectionResult.scales_searched
           GuidedDetectionResult.total_scales].
    split; [reflexivity | split; [rewrite Hs; lia | ]].
    split; [intros _; lia | intros _; lia]. }
  destruct (coarse_candidates st) as [| c l].
  - apply Hgoal. exact Hc.
  - destruct (fine_loop _ _ _ _ _ _ _ _ _ _) as [cancelled best].
    cbn in Hfine. subst cancelled.
    destruct (Rgt_dec _ _); apply Hgoal; exact Hc.
Qed.

End Guided_sweep.

(** A 200 x 200 image, a 100 x 100 search rectangle, sizes 16..100 and no
    flag: all twelve scales are searched. *)
Lemma guided_detect_full_sweep_witness :
  let cv := Fixture.mock_cv (1 / 2) (fun _ => 0%R) in
  let r :=
    guided_detect cv Fixture.exact_float Fixture.engine
                  (Fixture.bgr_image 200 200) (Rect.make 10 10 100 100)
                  None 16 100 in
  GuidedDetectionResult.was_cancelled r = false /\
  GuidedDetectionResult.scales_searched r
  = GuidedDetectionResult.total_scales r /\
  0 < GuidedDetectionResult.total_scales r.
Proof.
  intros cv r.
  destruct (guided_detect_full_sweep cv Fixture.exact_float Fixture.engine
              (Fixture.bgr_image 200 200) (Rect.make 10 10 100 100)
              None 16 100 (fun _ => eq_refl)) as (Hc & Hs & Ht).
  split; [exact Hc | split; [exact Hs | ]].
  apply Ht. cbn. lia.
Defined.

Section Guided_geometry.

Variable cv : OpenCV.
Variable to_float : R -> R.
Variable self : WatermarkEngine.

Hypothesis geometry : exact_geometry cv.

Lemma search_gray_f_size image search :
  Cv.cols (search_gray_f cv image search) = Rect.width search /\
  Cv.rows (search_gray_f cv image search) = Rect.height search.
Proof.
  destruct geometry as (Hsub & Hconv & _).
  unfold search_gray_f.
  destruct (Hsub image search) as [Hc Hr].
  destruct (Cv.channels (submat cv image search) >=? 3).
  - destruct (Hconv (cvtColor cv (submat cv image search) Cv.COLOR_BGR2GRAY)
                    (1 / 255)%R) as [Hc' Hr'].
    destruct (cvtColor_size cv (submat cv image search) Cv.COLOR_BGR2GRAY)
      as [Hr'' Hc''].
    split; congruence.
  - destruct (Hconv (submat cv image search) (1 / 255)%R) as [Hc' Hr'].
    split; congruence.
Qed.

Lemma match_at_scale_fits gray_f lo hi s :
  lo <= s <= hi -> 1 <= s -> s <= Cv.cols gray_f -> s <= Cv.rows gray_f ->
  fits_region lo hi (Cv.cols gray_f) (Cv.rows gray_f)
              (match_at_scale cv self gray_f s).
Proof.
  intros Hs H1 Hc Hr.
  destruct geometry as (_ & _ & Hresize & Hmatch & Hloc).
  unfold match_at_scale, fits_region. cbn [scale position].
  set (tmpl := resize cv _ s s _).
  destruct (Hresize (alpha_map_large_ self) s s
              (if s >? Cv.cols (alpha_map_large_ self)
               then Cv.INTER_LINEAR else Cv.INTER_AREA)) as [Htc Htr].
  fold tmpl in Htc, Htr.
  destruct (Hmatch gray_f tmpl) as [Hmc Hmr].
  set (match_result := matchTemplate_CCOEFF_NORMED cv gray_f tmpl) in *.
  destruct (Hloc match_result) as [Hx Hy]; [lia | lia | ].
  lia.
Qed.

Lemma fine_step_fits gray_f lo hi best s :
  1 <= lo -> lo <= s <= hi ->
  best = no_best \/
  fits_region lo hi (Cv.cols gray_f) (Cv.rows gray_f) best ->
  fine_step cv self gray_f best s = no_best \/
  fits_region lo hi (Cv.cols gray_f) (Cv.rows gray_f)
              (fine_step cv self gray_f best s).
Proof.
  intros Hlo Hs Hb. unfold fine_step.
  destruct ((s >? Cv.cols gray_f) || (s >? Cv.rows gray_f)) eqn:E;
    [exact Hb | ].
  apply orb_false_elim in E. destruct E as [Ec Er].
  rewrite Z.gtb_ltb in Ec, Er. apply Z.ltb_ge in Ec, Er.
  destruct (Rgt_dec _ _); [| exact Hb].
  right. apply match_at_scale_fits; lia.
Qed.

Lemma fold_fine_step_fits gray_f lo hi scales :
  1 <= lo -> (forall s, In s scales -> lo <= s <= hi) ->
  forall best,
    best = no_best \/
    fits_region lo hi (Cv.cols gray_f) (Cv.rows gray_f) best ->
    fold_left (fine_step cv self gray_f) scales best = no_best \/
    fits_region lo hi (Cv.cols gray_f) (Cv.rows gray_f)
                (fold_left (fine_step cv self gray_f) scales best).
Proof.
  intros Hlo. induction scales as [| s rest IH]; intros Hin best Hb; cbn;
    [exact Hb | ].
  apply IH; [intros s' Hs'; apply Hin; right; exact Hs' | ].
  apply fine_step_fits; [exact Hlo | apply Hin; left; reflexivity | exact Hb].
Qed.

Lemma refine_fits gray_f lo hi best candidate :
  1 <= lo ->
  best = no_best \/
  fits_region lo hi (Cv.cols gray_f) (Cv.rows gray_f) best ->
  refine cv self gray_f lo hi best candidate = no_best \/
  fits_region lo hi (Cv.cols gray_f) (Cv.rows gray_f)
              (refine cv self gray_f lo hi best candidate).
Proof.
  intros Hlo Hb. unfold refine.
  apply fold_fine_step_fits; [exact Hlo | | exact Hb].
  intros s Hin. apply for_range_bounds in Hin; [lia | unfold kFineScaleStep; lia].
Qed.

Lemma fine_loop_fits gray_f flag lo hi :
  1 <= lo ->
  forall candidates n cancelled best,
    best = no_best \/
    fits_region lo hi (Cv.cols gray_f) (Cv.rows gray_f) best ->
    snd (fine_loop cv self gray_f flag lo hi candidates n cancelled best)
    = no_best \/
    fits_region lo hi (Cv.cols gray_f) (Cv.rows gray_f)
      (snd (fine_loop cv self gray_f flag lo hi candidates n cancelled best)).
Proof.
  intros Hlo candidates.
  induction candidates as [| c rest IH]; intros n cancelled best Hb; cbn;
    [exact Hb | ].
  destruct (cancel_requested flag n); [exact Hb | ].
  apply IH. apply refine_fits; assumption.
Qed.

(** X27: with OpenCV's documented matrix sizes, a match that
    [guided_detect] reports is a square whose side is the detected size,
    lies between the clamped minimum and maximum size, and fits inside the
    clamped search rectangle and so inside the image; when nothing is found
    the match rectangle, the size and the confidence are all zero. *)
Theorem guided_detect_match_geometry image search_rect flag min_size max_size :
  let r :=
    guided_detect cv to_float self image search_rect flag min_size max_size in
  let search :=
    Rect.intersect search_rect
                   (Rect.make 0 0 (Cv.cols image) (Cv.rows image)) in
  (GuidedDetectionResult.found r = false ->
   GuidedDetectionResult.match_rect r = Rect.make 0 0 0 0 /\
   GuidedDetectionResult.detected_size r = 0 /\
   GuidedDetectionResult.confidence r = 0%R) /\
  (GuidedDetectionResult.found r = true ->
   Rect.width (GuidedDetectionResult.match_rect r)
   = GuidedDetectionResult.detected_size r /\
   Rect.height (GuidedDetectionResult.match_rect r)
   = GuidedDetectionResult.detected_size r /\
   Z.max min_size 16 <= GuidedDetectionResult.detected_size r /\
   GuidedDetectionResult.detected_size r
   <= Z.min max_size (Z.min (Rect.width search) (Rect.height search)) /\
   rect_within (GuidedDetectionResult.match_rect r) search /\
   rect_inside (GuidedDetectionResult.match_rect r)
               (Cv.cols image) (Cv.rows image)).
Proof.
  intros r search.
  assert (Hzero : forall searched total cancelled,
             let r' :=
               GuidedDetectionResult.make
                 false 0%R 0%R (Rect.make 0 0 0 0) 0
                 searched total cancelled in
             (GuidedDetectionResult.found r' = false ->
              GuidedDetectionResult.match_rect r' = Rect.make 0 0 0 0 /\
              GuidedDetectionResult.detected_size r' = 0 /\
              GuidedDetectionResult.confidence r' = 0%R) /\
             (GuidedDetectionResult.found r' = true ->
              Rect.width (GuidedDetectionResult.match_rect r')
              = GuidedDetectionResult.detected_size r' /\
              Rect.height (GuidedDetectionResult.match_rect r')
              = GuidedDetectionResult.detected_size r' /\
              Z.max min_size 16 <= GuidedDetectionResult.detected_size r' /\
              GuidedDetectionResult.detected_size r'
              <= Z.min max_size
                       (Z.min (Rect.width search) (Rect.height search)) /\
              rect_within (GuidedDetectionResult.match_rect r') search /\
              rect_inside (GuidedDetectionResult.match_rect r')
                          (Cv.cols image) (Cv.rows image))).
  { intros searched total cancelled r'. split.
    - intros _. repeat split; reflexivity.
    - cbn. discriminate. }
  unfold r, guided_detect.
  destruct (Cv.empty image || (Rect.width search_rect <? 8)
            || (Rect.height search_rect <? 8)); [apply Hzero | ].
  fold search.
  destruct ((Rect.width search <? 8) || (Rect.height search <? 8)) eqn:Eg;
    [apply Hzero | ].
  apply orb_false_elim in Eg. destruct Eg as [Egw Egh].
  apply Z.ltb_ge in Egw, Egh.
  set (lo := Z.max min_size 16).
  set (hi := Z.min max_size (Z.min (Rect.width search) (Rect.height search))).
  destruct (lo >? hi); [apply Hzero | ].
  cbv zeta.
  set (gray_f := search_gray_f cv image search).
  set (st := coarse_loop cv self gray_f flag _ 0 0 []).
  destruct (coarse_candidates st) as [| c l]; [apply Hzero | ].
  pose proof (fine_loop_fits gray_f flag lo hi ltac:(unfold lo; lia)
                (c :: l) (coarse_loads st) (coarse_cancelled st) no_best
                (or_introl eq_refl)) as Hbest.
  destruct (fine_loop _ _ _ _ _ _ _ _ _ _) as [cancelled best].
  cbn [snd] in Hbest.
  destruct (Rgt_dec (adjusted_score best) (8 / 100)) as [Hgt | _];
    [| apply Hzero].
  destruct Hbest as [-> | Hfit]; [cbn in Hgt; lra | ].
  destruct (search_gray_f_size image search) as [Hgc Hgr].
  fold gray_f in Hgc, Hgr. rewrite Hgc, Hgr in Hfit.
  destruct Hfit as (Hs & Hx & Hy & Hxs & Hys).
  assert (Hin : rect_inside search (Cv.cols image) (Cv.rows image)).
  { revert Egw Egh. unfold search, Rect.intersect, rect_inside. cbn.
    destruct (_ || _); cbn; lia. }
  unfold rect_inside in Hin.
  split; [discriminate | ]. intros _.
  cbn [GuidedDetectionResult.match_rect GuidedDetectionResult.detected_size
       Rect.width Rect.height Rect.x Rect.y].
  unfold rect_within, rect_inside.
  cbn [Rect.width Rect.height Rect.x Rect.y].
  repeat split; lia.
Qed.

End Guided_geometry.

Lemma fixture_exact_geometry ncc stddev :
  exact_geometry (Fixture.mock_cv ncc stddev).
Proof.
  unfold exact_geometry. cbn.
  repeat split; try reflexivity; lia.
Qed.

(** With every match scoring 1/2 and the size range 96..96, the search of a
    100 x 100 rectangle at (10, 10) finds the 96 x 96 square at (10, 10). *)
Lemma fixture_guided_found :
  let cv := Fixture.mock_cv (1 / 2) (fun _ => 0%R) in
  let r :=
    guided_detect cv Fixture.exact_float Fixture.engine
                  (Fixture.bgr_image 200 200) (Rect.make 10 10 100 100)
                  None 96 96 in
  GuidedDetectionResult.found r = true /\
  GuidedDetectionResult.match_rect r = Rect.make 10 10 96 96.
Proof.
  intros cv r.
  unfold r.
  rewrite guided_detect_searching;
    [ | reflexivity | cbn; lia | cbn; lia | cbn; lia | cbn; lia | cbn; lia ].
  cbv zeta.
  set (search := Rect.intersect _ _).
  assert (Hsearch : search = Rect.make 10 10 100 100) by reflexivity.
  rewrite Hsearch. clear search Hsearch.
  change (Z.max 96 16) with 96.
  change (Z.min 96 (Z.min (Rect.width (Rect.make 10 10 100 100))
                          (Rect.height (Rect.make 10 10 100 100)))) with 96.
  change (coarse_scale_list 96 96) with [96].
  set (gray_f := search_gray_f cv _ _).
  assert (Hc : Cv.cols gray_f = 100) by reflexivity.
  assert (Hr : Cv.rows gray_f = 100) by reflexivity.
  set (c := match_at_scale cv Fixture.engine gray_f 96).
  assert (Hraw : raw_score c = (1 / 2)%R) by reflexivity.
  assert (Hpos : position c = Cv.mkPoint 0 0) by reflexivity.
  assert (Hsc : scale c = 96) by reflexivity.
  assert (Hadj : (adjusted_score c > 8 / 100)%R).
  { change (adjusted_score c) with (size_adjusted_score (1 / 2) 96).
    rewrite size_adjusted_score_96. lra. }
  assert (Ec : match_at_scale cv Fixture.engine gray_f 96 = c) by reflexivity.
  clearbody c. clearbody gray_f.
  assert (Hcoarse : coarse_loop cv Fixture.engine gray_f None [96] 0 0 []
                    = mkCoarseState false 1 [c] 1).
  { cbn [coarse_loop cancel_requested]. rewrite Hc, Hr.
    change ((96 >? 100) || (96 >? 100)) with false. cbv iota.
    rewrite Ec.
    destruct (Rgt_dec (adjusted_score c) (8 / 100)); [| contradiction].
    reflexivity. }
  rewrite Hcoarse. cbn [coarse_candidates coarse_loads coarse_cancelled].
  assert (Hfine : fine_loop cv Fixture.engine gray_f None 96 96 [c] 1 false
                            no_best = (false, c)).
  { cbn [fine_loop cancel_requested]. unfold refine. rewrite Hsc.
    change (for_range (Z.max 96 (96 - kFineScaleRange))
                      (Z.min 96 (96 + kFineScaleRange)) kFineScaleStep)
      with [96].
    cbn [fold_left]. unfold fine_step. rewrite Hc, Hr.
    change ((96 >? 100) || (96 >? 100)) with false. cbv iota.
    rewrite Ec.
    destruct (Rgt_dec (adjusted_score c) (adjusted_score no_best)) as [_ | Hn];
      [reflexivity | ].
    exfalso. apply Hn. cbn [adjusted_score no_best]. lra. }
  rewrite Hfine.
  destruct (Rgt_dec (adjusted_score c) (8 / 100)); [| contradiction].
  cbn [GuidedDetectionResult.found GuidedDetectionResult.match_rect].
  rewrite Hpos, Hsc. split; reflexivity.
Qed.

(** The match found on the sample search lies inside the 200 x 200 image. *)
Lemma guided_detect_match_geometry_witness :
  let cv := Fixture.mock_cv (1 / 2) (fun _ => 0%R) in
  let r :=
    guided_detect cv Fixture.exact_float Fixture.engine
                  (Fixture.bgr_image 200 200) (Rect.make 10 10 100 100)
                  None 96 96 in
  rect_inside (GuidedDetectionResult.match_rect r) 200 200 /\
  GuidedDetectionResult.detected_size r = 96.
Proof.
  intros cv r.
  destruct (guided_detect_match_geometry
              cv Fixture.exact_float Fixture.engine
              (fixture_exact_geometry (1 / 2) (fun _ => 0%R))
              (Fixture.bgr_image 200 200) (Rect.make 10 10 100 100)
              None 96 96) as [_ Hfound].
  destruct (Hfound (proj1 fixture_guided_found))
    as (_ & _ & Hlo & Hhi & _ & Hin).
  split; [exact Hin | ].
  unfold r.
  set (hi := Z.min 96 _) in Hhi.
  assert (Hh : hi = 96) by reflexivity.
  change (Z.max 96 16) with 96 in Hlo. lia.
Defined.


(* ===================================================================== *)
(** ** Guided detection: ranking and selection by the adjusted score *)
(* ===================================================================== *)

Lemma outranks_refl a : outranks a a.
Proof. unfold outranks. lra. Qed.

Lemma outranks_trans {a b c} : outranks a b -> outranks b c -> outranks a c.
Proof. unfold outranks. lra. Qed.

Lemma sorted_head_outranks {h t} :
  Sorted outranks (h :: t) -> Forall (outranks h) t.
Proof.
  apply Sorted_extends. intros a b c. apply outranks_trans.
Qed.

Lemma last_In (l : list Candidate) d : l <> [] -> In (last l d) l.
Proof.
  induction l as [| a t IH]; intros Hne; [contradiction | ].
  destruct t as [| b t']; [left; reflexivity | ].
  right. apply IH. discriminate.
Qed.

(** In a ranked list the last candidate is outranked by all. *)
Lemma sorted_last_least l d :
  Sorted outranks l -> forall c, In c l -> outranks c (last l d).
Proof.
  induction l as [| a t IH]; intros Hs c Hin; [destruct Hin | ].
  destruct t as [| b t'].
  - destruct Hin as [<- | []]. apply outranks_refl.
  - change (last (a :: b :: t') d) with (last (b :: t') d).
    destruct Hin as [<- | Hin].
    + pose proof (sorted_head_outranks Hs) as Hall.
      rewrite Forall_forall in Hall. apply Hall.
      apply last_In. discriminate.
    + apply IH; [inversion Hs; assumption | exact Hin].
Qed.

Lemma In_removelast_keeps (x : Candidate) l : In x (removelast l) -> In x l.
Proof.
  induction l as [| a t IH]; cbn; [intros [] | ].
  destruct t as [| b t']; [intros [] | ].
  intros [<- | Hin]; [left; reflexivity | right; apply IH; exact Hin].
Qed.

Lemma In_removelast_or_last (x : Candidate) l d :
  In x l -> In x (removelast l) \/ x = last l d.
Proof.
  induction l as [| a t IH]; intros Hin; [destruct Hin | ].
  destruct t as [| b t'].
  - destruct Hin as [<- | []]. right. reflexivity.
  - change (last (a :: b :: t') d) with (last (b :: t') d).
    change (removelast (a :: b :: t')) with (a :: removelast (b :: t')).
    destruct Hin as [<- | Hin]; [left; left; reflexivity | ].
    destruct (IH Hin) as [H | H]; [left; right; exact H | right; exact H].
Qed.

Lemma insert_candidate_In x c l :
  In x (insert_candidate c l) <-> x = c \/ In x l.
Proof.
  induction l as [| h t IH]; cbn.
  - intuition.
  - destruct (Rgt_dec (adjusted_score h) (adjusted_score c)); cbn;
      [rewrite IH | ]; intuition.
Qed.

Lemma sort_candidates_In x l : In x (sort_candidates l) <-> In x l.
Proof.
  unfold sort_candidates. induction l as [| h t IH]; cbn; [reflexivity | ].
  rewrite insert_candidate_In, IH. intuition.
Qed.

Lemma top_k_of_ext {seen seen' : Candidate -> Prop} {l} :
  (forall x, seen x <-> seen' x) -> top_k_of seen l -> top_k_of seen' l.
Proof.
  intros Hext (Hs & Hlen & Hin & Hall).
  split; [exact Hs | split; [exact Hlen | split]].
  - intros c Hc. apply Hext. apply Hin. exact Hc.
  - intros x Hx. apply Hall. apply Hext. exact Hx.
Qed.

Lemma top_k_of_nil : top_k_of (fun _ => False) [].
Proof.
  split; [constructor | split; [cbn; unfold kTopK; lia | split]].
  - intros c [].
  - intros x [].
Qed.

(** One insertion keeps the five best by adjusted score: the newcomer
    enters unless the list is full and its last member is ranked no lower,
    and the member it evicts is outranked by all that stay. *)
Lemma insert_top_k_top_k_of {seen} c {l} :
  top_k_of seen l ->
  top_k_of (fun x => seen x \/ x = c) (insert_top_k c l).
Proof.
  intros (Hs & Hlen & Hin & Hall).
  unfold insert_top_k.
  destruct (Z.of_nat (List.length l) <? kTopK) eqn:E.
  - apply Z.ltb_lt in E.
    split; [apply sort_candidates_Sorted | ].
    split; [rewrite sort_candidates_length, length_app; cbn; lia | ].
    split.
    + intros x Hx. apply (proj1 (sort_candidates_In _ _)) in Hx.
      apply in_app_or in Hx. destruct Hx as [Hx | [<- | []]];
        [left; apply Hin; exact Hx | right; reflexivity].
    + intros x [Hx | ->].
      * destruct (Hall x Hx) as [Hxl | [Hfull _]]; [| lia].
        left. apply (proj2 (sort_candidates_In _ _)). apply in_or_app. left. exact Hxl.
      * left. apply (proj2 (sort_candidates_In _ _)). apply in_or_app. right. left.
        reflexivity.
  - apply Z.ltb_ge in E.
    assert (Hfull : Z.of_nat (List.length l) = kTopK) by lia.
    assert (Hne : l <> []).
    { intros ->. cbn in Hfull. unfold kTopK in Hfull. lia. }
    assert (Hleast : forall e, In e l -> outranks e (last l c)).
    { apply sorted_last_least. exact Hs. }
    destruct (Rgt_dec (adjusted_score c) (adjusted_score (last l c)))
      as [Hgt | Hngt].
    + assert (Hnew : forall e, In e (sort_candidates (set_back l c)) ->
                               e = c \/ In e (removelast l)).
      { intros e He. apply (proj1 (sort_candidates_In _ _)) in He. unfold set_back in He.
        apply in_app_or in He. destruct He as [He | [<- | []]];
          [right; exact He | left; reflexivity]. }
      assert (Hnew_rank : forall e, In e (sort_candidates (set_back l c)) ->
                                    outranks e (last l c)).
      { intros e He. destruct (Hnew e He) as [-> | He'].
        - unfold outranks. lra.
        - apply Hleast. apply In_removelast_keeps. exact He'. }
      split; [apply sort_candidates_Sorted | ].
      split; [rewrite sort_candidates_length, set_back_length by exact Hne;
              exact Hlen | ].
      split.
      * intros x Hx. destruct (Hnew x Hx) as [-> | Hx'];
          [right; reflexivity | ].
        left. apply Hin. apply In_removelast_keeps. exact Hx'.
      * intros x Hx.
        assert (Hout : outranks (last l c) x ->
                       In x (sort_candidates (set_back l c)) \/
                       Z.of_nat (List.length (sort_candidates (set_back l c)))
                       = kTopK /\
                       Forall (fun e => outranks e x)
                              (sort_candidates (set_back l c))).
        { intros Hlx. right.
          split; [rewrite sort_candidates_length, set_back_length by exact Hne;
                  exact Hfull | ].
          apply Forall_forall. intros e He.
          apply (outranks_trans (Hnew_rank e He) Hlx). }
        destruct Hx as [Hx | ->].
        -- destruct (Hall x Hx) as [Hxl | [_ Hrank]].
           ++ destruct (In_removelast_or_last x l c Hxl) as [Hx' | ->].
              ** left. apply (proj2 (sort_candidates_In _ _)). unfold set_back.
                 apply in_or_app. left. exact Hx'.
              ** apply Hout. apply outranks_refl.
           ++ apply Hout. rewrite Forall_forall in Hrank. apply Hrank.
              apply last_In. exact Hne.
        -- left. apply (proj2 (sort_candidates_In _ _)). unfold set_back.
           apply in_or_app. right. left. reflexivity.
    + split; [exact Hs | split; [exact Hlen | split]].
      * intros x Hx. left. apply Hin. exact Hx.
      * intros x [Hx | ->]; [apply Hall; exact Hx | ].
        right. split; [exact Hfull | ].
        apply Forall_forall. intros e He.
        pose proof (Hleast e He) as Hel. unfold outranks in *. lra.
Qed.

Section Selection.

Variable cv : OpenCV.
Variable to_float : R -> R.
Variable self : WatermarkEngine.

Lemma template_fits_guard gray_f s :
  (s >? Cv.cols gray_f) || (s >? Cv.rows gray_f) = false
  <-> template_fits gray_f s.
Proof.
  unfold template_fits. rewrite orb_false_iff, !Z.gtb_ltb, !Z.ltb_ge.
  reflexivity.
Qed.

(** The coarse phase keeps, of the matches at the scales examined so far
    that fit and pass the floor, the five best by adjusted score. *)
Lemma coarse_loop_top_k_of gray_f flag :
  forall scales n searched candidates seen0,
    top_k_of seen0 candidates ->
    let st :=
      coarse_loop cv self gray_f flag scales n searched candidates in
    exists k : nat,
      (k <= List.length scales)%nat /\
      coarse_searched st = searched + Z.of_nat k /\
      top_k_of (fun x => seen0 x \/
                         coarse_seen cv self gray_f (firstn k scales) x)
               (coarse_candidates st).
Proof.
  intros scales.
  induction scales as [| s rest IH]; intros n searched candidates seen0 Htop.
  - exists 0%nat. cbn. split; [lia | split; [lia | ]].
    apply (top_k_of_ext (seen := seen0)); [| exact Htop].
    intros x. split; [intros H; left; exact H | ].
    intros [H | (_ & s & [] & _)]. exact H.
  - cbn [coarse_loop].
    destruct (cancel_requested flag n).
    { exists 0%nat. cbn. split; [lia | split; [lia | ]].
      apply (top_k_of_ext (seen := seen0)); [| exact Htop].
      intros x. split; [intros H; left; exact H | ].
      intros [H | (_ & s' & [] & _)]. exact H. }
    destruct ((s >? Cv.cols gray_f) || (s >? Cv.rows gray_f)) eqn:Efit.
    + destruct (IH (S n) (searched + 1) candidates seen0 Htop)
        as (k & Hk & Hsearched & Htop').
      exists (S k). split; [cbn; lia | split; [rewrite Hsearched; lia | ]].
      apply (top_k_of_ext
               (seen := fun x => seen0 x \/
                                 coarse_seen cv self gray_f (firstn k rest) x));
        [| exact Htop'].
      intros x. cbn [firstn]. unfold coarse_seen.
      split.
      * intros [H | (Hfloor & s' & Hin & Hfits & Hx)]; [left; exact H | ].
        right. split; [exact Hfloor | ].
        exists s'. split; [right; exact Hin | split; assumption].
      * intros [H | (Hfloor & s' & [<- | Hin] & Hfits & Hx)];
          [left; exact H | | ].
        -- apply template_fits_guard in Hfits. congruence.
        -- right. split; [exact Hfloor | ].
           exists s'. split; [exact Hin | split; assumption].
    + apply template_fits_guard in Efit.
      set (c := match_at_scale cv self gray_f s).
      destruct (Rgt_dec (adjusted_score c) (8 / 100)) as [Hgt | Hngt].
      * destruct (IH (S n) (searched + 1) (insert_top_k c candidates)
                     (fun x => seen0 x \/ x = c)
                     (insert_top_k_top_k_of c Htop))
          as (k & Hk & Hsearched & Htop').
        exists (S k). split; [cbn; lia | split; [rewrite Hsearched; lia | ]].
        apply (top_k_of_ext
                 (seen := fun x => (seen0 x \/ x = c) \/
                                   coarse_seen cv self gray_f
                                               (firstn k rest) x));
          [| exact Htop'].
        intros x. cbn [firstn]. unfold coarse_seen.
        split.
        -- intros [[H | ->] | (Hfloor & s' & Hin & Hfits & Hx)].
           ++ left. exact H.
           ++ right. split; [exact Hgt | ].
              exists s. split; [left; reflexivity | split;
                                 [exact Efit | reflexivity]].
           ++ right. split; [exact Hfloor | ].
              exists s'. split; [right; exact Hin | split; assumption].
        -- intros [H | (Hfloor & s' & [<- | Hin] & Hfits & Hx)].
           ++ left. left. exact H.
           ++ left. right. exact Hx.
           ++ right. split; [exact Hfloor | ].
              exists s'. split; [exact Hin | split; assumption].
      * destruct (IH (S n) (searched + 1) candidates seen0 Htop)
          as (k & Hk & Hsearched & Htop').
        exists (S k). split; [cbn; lia | split; [rewrite Hsearched; lia | ]].
        apply (top_k_of_ext
                 (seen := fun x => seen0 x \/
                                   coarse_seen cv self gray_f
                                               (firstn k rest) x));
          [| exact Htop'].
        intros x. cbn [firstn]. unfold coarse_seen.
        split.
        -- intros [H | (Hfloor & s' & Hin & Hfits & Hx)]; [left; exact H | ].
           right. split; [exact Hfloor | ].
           exists s'. split; [right; exact Hin | split; assumption].
        -- intros [H | (Hfloor & s' & [<- | Hin] & Hfits & Hx)];
             [left; exact H | | ].
           ++ exfalso. apply Hngt. subst x. exact Hfloor.
           ++ right. split; [exact Hfloor | ].
              exists s'. split; [exact Hin | split; assumption].
Qed.

Lemma coarse_loop_ranked gray_f flag scales :
  let st := coarse_loop cv self gray_f flag scales 0 0 [] in
  top_k_of (coarse_seen cv self gray_f
              (firstn (Z.to_nat (coarse_searched st)) scales))
           (coarse_candidates st).
Proof.
  intros st.
  destruct (coarse_loop_top_k_of gray_f flag scales 0 0 [] (fun _ => False)
              top_k_of_nil)
    as (k & Hk & Hsearched & Htop).
  fold st in Hsearched, Htop.
  assert (Ek : Z.to_nat (coarse_searched st) = k) by lia.
  rewrite Ek.
  apply (top_k_of_ext
           (seen := fun x => False \/
                             coarse_seen cv self gray_f (firstn k scales) x));
    [| exact Htop].
  intros x. split; [intros [[] | H]; exact H | intros H; right; exact H].
Qed.

(** One step of the fine phase keeps the better of [best] and the match at
    [s], by adjusted score. *)
Lemma fine_step_max gray_f best s :
  let best' := fine_step cv self gray_f best s in
  outranks best' best /\
  (template_fits gray_f s ->
   outranks best' (match_at_scale cv self gray_f s)) /\
  (best' = best \/
   template_fits gray_f s /\ best' = match_at_scale cv self gray_f s).
Proof.
  unfold fine_step.
  destruct ((s >? Cv.cols gray_f) || (s >? Cv.rows gray_f)) eqn:Efit.
  - split; [apply outranks_refl | split; [| left; reflexivity]].
    intros Hfits. apply template_fits_guard in Hfits. congruence.
  - apply template_fits_guard in Efit.
    destruct (Rgt_dec _ _) as [Hgt | Hngt].
    + split; [unfold outranks; lra | split].
      * intros _. apply outranks_refl.
      * right. split; [exact Efit | reflexivity].
    + split; [apply outranks_refl | split; [| left; reflexivity]].
      intros _. unfold outranks. lra.
Qed.

Lemma fold_fine_step_max gray_f scales :
  forall best,
    let best' := fold_left (fine_step cv self gray_f) scales best in
    outranks best' best /\
    (forall s, In s scales -> template_fits gray_f s ->
               outranks best' (match_at_scale cv self gray_f s)) /\
    (best' = best \/
     exists s, In s scales /\ template_fits gray_f s /\
               best' = match_at_scale cv self gray_f s).
Proof.
  induction scales as [| s rest IH]; intros best; cbn [fold_left].
  - split; [apply outranks_refl | split; [intros s [] | left; reflexivity]].
  - destruct (fine_step_max gray_f best s) as (H1 & H2 & H3).
    destruct (IH (fine_step cv self gray_f best s)) as (I1 & I2 & I3).
    split; [exact (outranks_trans I1 H1) | split].
    + intros s' [<- | Hin] Hfits.
      * exact (outranks_trans I1 (H2 Hfits)).
      * apply I2; assumption.
    + destruct I3 as [I3 | (s' & Hin & Hfits & I3)].
      * rewrite I3. destruct H3 as [H3 | [Hfits H3]]; [left; exact H3 | ].
        right. exists s. split; [left; reflexivity | split; assumption].
      * right. exists s'. split; [right; exact Hin | split; assumption].
Qed.

(** Whatever the cancellation flag does, the fine phase returns either its
    initial [best] or a match at one of the fine scales of a candidate. *)
Lemma fine_loop_provenance gray_f flag lo hi :
  forall candidates n cancelled best,
    let best' :=
      snd (fine_loop cv self gray_f flag lo hi candidates n cancelled best) in
    outranks best' best /\
    (best' = best \/
     exists c s, In c candidates /\ In s (fine_scales lo hi c) /\
                 template_fits gray_f s /\
                 best' = match_at_scale cv self gray_f s).
Proof.
  intros candidates.
  induction candidates as [| c rest IH]; intros n cancelled best;
    cbn [fine_loop].
  - cbn [snd]. split; [apply outranks_refl | left; reflexivity].
  - destruct (cancel_requested flag n).
    { cbn [snd]. split; [apply outranks_refl | left; reflexivity]. }
    destruct (fold_fine_step_max gray_f (fine_scales lo hi c) best)
      as (H1 & _ & H3).
    change (fold_left (fine_step cv self gray_f) (fine_scales lo hi c) best)
      with (refine cv self gray_f lo hi best c) in H1, H3.
    destruct (IH (S n) cancelled (refine cv self gray_f lo hi best c))
      as (I1 & I3).
    split; [exact (outranks_trans I1 H1) | ].
    destruct I3 as [I3 | (c' & s & Hc & Hs & Hfits & I3)].
    + rewrite I3. destruct H3 as [H3 | (s & Hs & Hfits & H3)];
        [left; exact H3 | ].
      right. exists c, s.
      split; [left; reflexivity | split; [exact Hs | split; assumption]].
    + right. exists c', s.
      split; [right; exact Hc | split; [exact Hs | split; assumption]].
Qed.

(** When no load sees the flag set, the [best] the fine phase returns is
    ranked no lower than the match at any fine scale of any candidate. *)
Lemma fine_loop_max gray_f flag lo hi :
  (forall i, cancel_requested flag i = false) ->
  forall candidates n cancelled best c s,
    In c candidates -> In s (fine_scales lo hi c) ->
    template_fits gray_f s ->
    outranks
      (snd (fine_loop cv self gray_f flag lo hi candidates n cancelled best))
      (match_at_scale cv self gray_f s).
Proof.
  intros Hflag candidates.
  induction candidates as [| c0 rest IH];
    intros n cancelled best c s Hc Hs Hfits; [destruct Hc | ].
  cbn [fine_loop]. rewrite Hflag.
  destruct Hc as [<- | Hc].
  - destruct (fold_fine_step_max gray_f (fine_scales lo hi c0) best)
      as (_ & H2 & _).
    change (fold_left (fine_step cv self gray_f) (fine_scales lo hi c0) best)
      with (refine cv self gray_f lo hi best c0) in H2.
    destruct (fine_loop_provenance gray_f flag lo hi rest (S n) cancelled
                (refine cv self gray_f lo hi best c0)) as (I1 & _).
    exact (outranks_trans I1 (H2 s Hs Hfits)).
  - apply (IH (S n) cancelled _ c s); assumption.
Qed.

(** What a search that is not cancelled reports: a match is found exactly
    when the match at some fine scale of some ranked candidate passes the
    floor on its adjusted score, and the match reported is then one whose
    adjusted score no other of them exceeds. *)
Lemma guided_detect_selects image search_rect flag min_size max_size :
  let search :=
    Rect.intersect search_rect
                   (Rect.make 0 0 (Cv.cols image) (Cv.rows image)) in
  let lo := Z.max min_size 16 in
  let hi := Z.min max_size (Z.min (Rect.width search) (Rect.height search)) in
  let gray_f := search_gray_f cv image search in
  let candidates :=
    coarse_candidates
      (coarse_loop cv self gray_f flag (coarse_scale_list lo hi) 0 0 []) in
  let r :=
    guided_detect cv to_float self image search_rect flag min_size max_size in
  8 <= Rect.width search_rect -> 8 <= Rect.height search_rect ->
  8 <= Rect.width search -> 8 <= Rect.height search -> lo <= hi ->
  (forall i, cancel_requested flag i = false) ->
  (GuidedDetectionResult.found r = true
   <-> exists c s,
         In c candidates /\ In s (fine_scales lo hi c) /\
         template_fits gray_f s /\
         above_floor (match_at_scale cv self gray_f s)) /\
  (GuidedDetectionResult.found r = true ->
   exists c s,
     In c candidates /\ In s (fine_scales lo hi c) /\
     template_fits gray_f s /\
     (forall c' s',
         In c' candidates -> In s' (fine_scales lo hi c') ->
         template_fits gray_f s' ->
         outranks (match_at_scale cv self gray_f s)
                  (match_at_scale cv self gray_f s')) /\
     GuidedDetectionResult.confidence r
     = to_float (adjusted_score (match_at_scale cv self gray_f s)) /\
     GuidedDetectionResult.raw_ncc r
     = to_float (raw_score (match_at_scale cv self gray_f s)) /\
     GuidedDetectionResult.detected_size r = s /\
     GuidedDetectionResult.match_rect r
     = Rect.make
         (Rect.x search
          + Cv.x (position (match_at_scale cv self gray_f s)))
         (Rect.y search
          + Cv.y (position (match_at_scale cv self gray_f s)))
         s s).
Proof.
  intros search lo hi gray_f candidates r Hw Hh Hsw Hsh Hlh Hflag.
  assert (He : Cv.empty image = false).
  { apply (clamped_search_in_nonempty_image image search_rect);
      fold search; lia. }
  pose proof (guided_detect_searching cv to_float self image search_rect flag
                min_size max_size He Hw Hh Hsw Hsh Hlh) as Hr.
  cbv zeta in Hr. fold search in Hr. fold lo in Hr. fold hi in Hr.
  fold gray_f in Hr. fold candidates in Hr. fold r in Hr.
  set (st := coarse_loop cv self gray_f flag (coarse_scale_list lo hi) 0 0 [])
    in *.
  pose proof (fine_loop_provenance gray_f flag lo hi candidates
                (coarse_loads st) (coarse_cancelled st) no_best)
    as (_ & Hprov).
  pose proof (fine_loop_max gray_f flag lo hi Hflag candidates
                (coarse_loads st) (coarse_cancelled st) no_best) as Hmax.
  clearbody r. subst r. clearbody st.
  destruct candidates as [| c0 l] eqn:Ecand.
  { cbn [GuidedDetectionResult.found]. split.
    - split; [discriminate | ]. intros (c & s & [] & _).
    - discriminate. }
  rewrite <- Ecand in *. clear Ecand.
  destruct (fine_loop cv self gray_f flag lo hi candidates (coarse_loads st)
                      (coarse_cancelled st) no_best) as [cancelled best].
  cbn [snd] in Hprov, Hmax.
  assert (Hcase : candidates <> [] -> True) by (intros _; exact I).
  destruct candidates as [| c1 l1] eqn:Ecand; [destruct Hprov as [-> | (c & s & [] & _)] | ].
  { destruct (Rgt_dec (adjusted_score no_best) (8 / 100)) as [Hgt | _];
      [cbn in Hgt; lra | ].
    cbn [GuidedDetectionResult.found]. split.
    - split; [discriminate | ]. intros (c & s & [] & _).
    - discriminate. }
  rewrite <- Ecand in *.
  destruct (Rgt_dec (adjusted_score best) (8 / 100)) as [Hgt | Hngt].
  - destruct Hprov as [-> | (c & s & Hc & Hs & Hfits & ->)];
      [cbn in Hgt; lra | ].
    rewrite Ecand.
    cbn [GuidedDetectionResult.found GuidedDetectionResult.confidence
         GuidedDetectionResult.raw_ncc GuidedDetectionResult.detected_size
         GuidedDetectionResult.match_rect].
    rewrite <- Ecand.
    split.
    + split; [intros _ | reflexivity].
      exists c, s. split; [exact Hc | split; [exact Hs | split;
        [exact Hfits | exact Hgt]]].
    + intros _. exists c, s.
      split; [exact Hc | split; [exact Hs | split; [exact Hfits | ]]].
      split; [intros c' s' Hc' Hs' Hfits'; apply (Hmax c' s'); assumption | ].
      repeat split; reflexivity.
  - rewrite Ecand. cbn [GuidedDetectionResult.found]. rewrite <- Ecand.
    split; [| discriminate].
    split; [discriminate | ].
    intros (c & s & Hc & Hs & Hfits & Hfloor).
    exfalso. apply Hngt.
    pose proof (Hmax c s Hc Hs Hfits) as Hrank.
    unfold outranks, above_floor in *. lra.
Qed.

(** The claim's example at the level of the result: when the 96 x 96
    template scores raw 0.30, the 24 x 24 template raw 0.58 and every other
    scale stays below 0.30 after adjustment, a search over 16..hi with
    hi >= 96 reports the 96 x 96 match. *)
Lemma guided_detect_prefers_96 image search_rect flag min_size max_size :
  let search :=
    Rect.intersect search_rect
                   (Rect.make 0 0 (Cv.cols image) (Cv.rows image)) in
  let hi := Z.min max_size (Z.min (Rect.width search) (Rect.height search)) in
  let gray_f := search_gray_f cv image search in
  let r :=
    guided_detect cv to_float self image search_rect flag min_size max_size in
  8 <= Rect.width search_rect -> 8 <= Rect.height search_rect ->
  8 <= Rect.width search -> 8 <= Rect.height search ->
  min_size <= 16 -> 96 <= hi ->
  (forall i, cancel_requested flag i = false) ->
  template_fits gray_f 96 ->
  raw_score (match_at_scale cv self gray_f 96) = (30 / 100)%R ->
  raw_score (match_at_scale cv self gray_f 24) = (58 / 100)%R ->
  (forall s, s <> 96 -> s <> 24 ->
             (adjusted_score (match_at_scale cv self gray_f s) < 30 / 100)%R) ->
  In 24 (coarse_scale_list 16 hi) /\
  In 96 (coarse_scale_list 16 hi) /\
  (raw_score (match_at_scale cv self gray_f 24)
   > raw_score (match_at_scale cv self gray_f 96))%R /\
  GuidedDetectionResult.found r = true /\
  GuidedDetectionResult.detected_size r = 96 /\
  GuidedDetectionResult.confidence r = to_float (30 / 100)%R /\
  GuidedDetectionResult.raw_ncc r = to_float (30 / 100)%R /\
  Rect.width (GuidedDetectionResult.match_rect r) = 96 /\
  Rect.height (GuidedDetectionResult.match_rect r) = 96.
Proof.
  intros search hi gray_f r Hw Hh Hsw Hsh Hmin Hhi Hflag Hfits96 H96 H24
         Hother.
  assert (Hlo : Z.max min_size 16 = 16) by lia.
  assert (Hadj96 : adjusted_score (match_at_scale cv self gray_f 96)
                   = (30 / 100)%R).
  { destruct (match_at_scale_size_adjusted cv self gray_f 96) as [Hsa Hsc].
    unfold size_adjusted in Hsa. rewrite Hsa, Hsc, H96.
    apply size_adjusted_score_96. }
  assert (Hadj24 : adjusted_score (match_at_scale cv self gray_f 24)
                   = (29 / 100)%R).
  { destruct (match_at_scale_size_adjusted cv self gray_f 24) as [Hsa Hsc].
    unfold size_adjusted in Hsa. rewrite Hsa, Hsc, H24.
    rewrite size_adjusted_score_24. lra. }
  assert (Hlower : forall s, s <> 96 ->
             (adjusted_score (match_at_scale cv self gray_f s) < 30 / 100)%R).
  { intros s Hs. destruct (Z.eq_dec s 24) as [-> | Hs24];
      [rewrite Hadj24; lra | apply Hother; assumption]. }
  assert (Hin : forall k, 0 <= k -> 16 + k * 8 <= hi ->
                          In (16 + k * 8) (coarse_scale_list 16 hi)).
  { intros k Hk Hle. unfold coarse_scale_list. cbn [fold_left].
    apply (proj2 (sort_scales_In _ _)).
    do 2 apply add_standard_size_keeps.
    apply (for_range_complete 16 hi kCoarseScaleStep k);
      unfold kCoarseScaleStep; lia. }
  assert (Hin24 : In 24 (coarse_scale_list 16 hi)).
  { apply (Hin 1); lia. }
  assert (Hin96 : In 96 (coarse_scale_list 16 hi)).
  { apply (Hin 10); lia. }
  pose proof (guided_detect_selects image search_rect flag min_size max_size)
    as Hsel.
  cbv zeta in Hsel. fold search in Hsel. rewrite Hlo in Hsel.
  fold hi in Hsel. fold gray_f in Hsel. fold r in Hsel.
  specialize (Hsel Hw Hh Hsw Hsh ltac:(lia) Hflag).
  set (st := coarse_loop cv self gray_f flag (coarse_scale_list 16 hi) 0 0 [])
    in *.
  (* the 96 x 96 match is among the ranked candidates *)
  pose proof (coarse_loop_ranked gray_f flag (coarse_scale_list 16 hi))
    as Htop.
  cbv zeta in Htop. fold st in Htop.
  destruct (coarse_loop_uncancelled cv self gray_f flag Hflag
              (coarse_scale_list 16 hi) 0 0 []) as [_ Hsearched].
  fold st in Hsearched.
  assert (Ek : Z.to_nat (coarse_searched st)
               = List.length (coarse_scale_list 16 hi)) by lia.
  rewrite Ek, firstn_all in Htop.
  destruct Htop as (_ & _ & Hseen & Hcomplete).
  set (c96 := match_at_scale cv self gray_f 96) in *.
  assert (Hc96 : In c96 (coarse_candidates st)).
  { destruct (Hcomplete c96) as [Hc | [Hfull Hrank]]; [| exact Hc | ].
    - split; [unfold above_floor; rewrite Hadj96; lra | ].
      exists 96. split; [exact Hin96 | split; [exact Hfits96 | reflexivity]].
    - destruct (coarse_candidates st) as [| c0 l] eqn:Ecand;
        [cbn in Hfull; unfold kTopK in Hfull; lia | ].
      inversion Hrank as [| ? ? Hc0 _]; subst.
      destruct (Hseen c0 (or_introl eq_refl)) as (_ & s0 & _ & _ & E0).
      destruct (Z.eq_dec s0 96) as [-> | Hne].
      + left. exact E0.
      + exfalso. pose proof (Hlower s0 Hne) as Hlt.
        rewrite <- E0 in Hlt. unfold outranks in Hc0.
        rewrite Hadj96 in Hc0. lra. }
  assert (Hfine96 : In 96 (fine_scales 16 hi c96)).
  { unfold fine_scales.
    change (scale c96) with 96. unfold kFineScaleRange, kFineScaleStep.
    assert (E : Z.max 16 (96 - 10) = 86) by lia. rewrite E.
    pose proof (for_range_complete 86 (Z.min hi (96 + 10)) 2 5
                  ltac:(lia) ltac:(lia) ltac:(lia)) as H.
    change (86 + 5 * 2) with 96 in H. exact H. }
  destruct Hsel as [Hfound Hbest].
  assert (Hf : GuidedDetectionResult.found r = true).
  { apply Hfound. exists c96, 96.
    split; [exact Hc96 | split; [exact Hfine96 | split; [exact Hfits96 | ]]].
    unfold above_floor. fold c96. rewrite Hadj96. lra. }
  destruct (Hbest Hf)
    as (c & s & Hc & Hs & Hfits & Hmax & Hconf & Hraw & Hsize & Hrect).
  assert (Es : s = 96).
  { destruct (Z.eq_dec s 96) as [E | Hne]; [exact E | exfalso].
    pose proof (Hmax c96 96 Hc96 Hfine96 Hfits96) as Hrank.
    pose proof (Hlower s Hne) as Hlt.
    unfold outranks in Hrank. fold c96 in Hrank. rewrite Hadj96 in Hrank.
    lra. }
  rewrite Es in Hconf, Hraw, Hsize, Hrect. subst c96.
  rewrite Hadj96 in Hconf. rewrite H96 in Hraw.
  split; [exact Hin24 | split; [exact Hin96 | ]].
  split; [rewrite H24, H96; lra | ].
  split; [exact Hf | split; [exact Hsize | split; [exact Hconf | ]]].
  split; [exact Hraw | ].
  rewrite Hrect. split; reflexivity.
Qed.

End Selection.

(** C3: in [guided_detect] a raw NCC score obtained at template scale s
    enters every comparison as adjusted = raw_ncc * min(1, sqrt(s / 96)).
    Every match carries that value.  The coarse phase applies its 0.08
    floor to it and keeps the five best by it: a match that passed the floor
    and is not kept is outranked by all five.  The fine phase returns a
    match that no match at any fine scale of any candidate exceeds in it,
    and the result is thresholded on it and reports it as the confidence.
    So when the 96 x 96 template scores raw 0.30 (adjusted 0.30) and the
    24 x 24 template raw 0.58 (adjusted 0.29), the search reports the
    96 x 96 match, and of the two records the 96 x 96 one is ranked first in
    whichever order they are inserted. *)
Theorem guided_detect_size_adjusted_ranking :
  forall (cv : OpenCV) (to_float : R -> R) (self : WatermarkEngine),
    (forall raw s,
        size_adjusted_score raw s
        = (raw * Rmin 1 (sqrt (IZR s / 96)))%R) /\
    (forall gray_f s,
        let tmpl :=
          resize cv (alpha_map_large_ self) s s
                 (if s >? Cv.cols (alpha_map_large_ self)
                  then Cv.INTER_LINEAR else Cv.INTER_AREA) in
        let mm :=
          minMaxLoc cv (matchTemplate_CCOEFF_NORMED cv gray_f tmpl) in
        match_at_scale cv self gray_f s
        = mkCandidate (max_loc mm) s (max_val mm)
                      (max_val mm * Rmin 1 (sqrt (IZR s / 96)))%R) /\
    (forall gray_f flag scales,
        let st := coarse_loop cv self gray_f flag scales 0 0 [] in
        top_k_of (coarse_seen cv self gray_f
                    (firstn (Z.to_nat (coarse_searched st)) scales))
                 (coarse_candidates st) /\
        Forall size_adjusted (coarse_candidates st) /\
        Forall above_floor (coarse_candidates st) /\
        Z.of_nat (List.length (coarse_candidates st)) <= 5) /\
    (forall gray_f flag lo hi candidates n cancelled,
        let best :=
          snd (fine_loop cv self gray_f flag lo hi candidates n cancelled
                         no_best) in
        (best = no_best \/
         exists c s, In c candidates /\ In s (fine_scales lo hi c) /\
                     template_fits gray_f s /\
                     best = match_at_scale cv self gray_f s) /\
        ((forall i, cancel_requested flag i = false) ->
         forall c s,
           In c candidates -> In s (fine_scales lo hi c) ->
           template_fits gray_f s ->
           outranks best (match_at_scale cv self gray_f s))) /\
    (forall image search_rect flag min_size max_size,
        let search :=
          Rect.intersect search_rect
                         (Rect.make 0 0 (Cv.cols image) (Cv.rows image)) in
        let lo := Z.max min_size 16 in
        let hi :=
          Z.min max_size (Z.min (Rect.width search) (Rect.height search)) in
        let gray_f := search_gray_f cv image search in
        let candidates :=
          coarse_candidates
            (coarse_loop cv self gray_f flag (coarse_scale_list lo hi)
                         0 0 []) in
        let r :=
          guided_detect cv to_float self image search_rect flag
                        min_size max_size in
        (GuidedDetectionResult.found r = false \/
         exists best : Candidate,
           size_adjusted best /\ above_floor best /\
           GuidedDetectionResult.found r = true /\
           GuidedDetectionResult.confidence r
           = to_float (adjusted_score best) /\
           GuidedDetectionResult.raw_ncc r = to_float (raw_score best) /\
           GuidedDetectionResult.detected_size r = scale best) /\
        (8 <= Rect.width search_rect -> 8 <= Rect.height search_rect ->
         8 <= Rect.width search -> 8 <= Rect.height search -> lo <= hi ->
         (forall i, cancel_requested flag i = false) ->
         (GuidedDetectionResult.found r = true
          <-> exists c s,
                In c candidates /\ In s (fine_scales lo hi c) /\
                template_fits gray_f s /\
                above_floor (match_at_scale cv self gray_f s)) /\
         (GuidedDetectionResult.found r = true ->
          exists c s,
            In c candidates /\ In s (fine_scales lo hi c) /\
            template_fits gray_f s /\
            (forall c' s',
                In c' candidates -> In s' (fine_scales lo hi c') ->
                template_fits gray_f s' ->
                outranks (match_at_scale cv self gray_f s)
                         (match_at_scale cv self gray_f s')) /\
            GuidedDetectionResult.confidence r
            = to_float (adjusted_score (match_at_scale cv self gray_f s)) /\
            GuidedDetectionResult.raw_ncc r
            = to_float (raw_score (match_at_scale cv self gray_f s)) /\
            GuidedDetectionResult.detected_size r = s /\
            GuidedDetectionResult.match_rect r
            = Rect.make
                (Rect.x search
                 + Cv.x (position (match_at_scale cv self gray_f s)))
                (Rect.y search
                 + Cv.y (position (match_at_scale cv self gray_f s)))
                s s)) /\
        (8 <= Rect.width search_rect -> 8 <= Rect.height search_rect ->
         8 <= Rect.width search -> 8 <= Rect.height search ->
         min_size <= 16 -> 96 <= hi ->
         (forall i, cancel_requested flag i = false) ->
         template_fits gray_f 96 ->
         raw_score (match_at_scale cv self gray_f 96) = (30 / 100)%R ->
         raw_score (match_at_scale cv self gray_f 24) = (58 / 100)%R ->
         (forall s, s <> 96 -> s <> 24 ->
                    (adjusted_score (match_at_scale cv self gray_f s)
                     < 30 / 100)%R) ->
         In 24 (coarse_scale_list 16 hi) /\
         In 96 (coarse_scale_list 16 hi) /\
         (raw_score (match_at_scale cv self gray_f 24)
          > raw_score (match_at_scale cv self gray_f 96))%R /\
         GuidedDetectionResult.found r = true /\
         GuidedDetectionResult.detected_size r = 96 /\
         GuidedDetectionResult.confidence r = to_float (30 / 100)%R /\
         GuidedDetectionResult.raw_ncc r = to_float (30 / 100)%R /\
         Rect.width (GuidedDetectionResult.match_rect r) = 96 /\
         Rect.height (GuidedDetectionResult.match_rect r) = 96)) /\
    (forall p96 p24,
        let c96 :=
          mkCandidate p96 96 (30 / 100) (size_adjusted_score (30 / 100) 96) in
        let c24 :=
          mkCandidate p24 24 (58 / 100) (size_adjusted_score (58 / 100) 24) in
        adjusted_score c96 = (30 / 100)%R /\
        adjusted_score c24 = (29 / 100)%R /\
        insert_top_k c24 (insert_top_k c96 []) = [c96; c24] /\
        insert_top_k c96 (insert_top_k c24 []) = [c96; c24]).
Proof.
  intros cv to_float self.
  split.
  { intros raw s. unfold size_adjusted_score, kReferenceSize.
    rewrite Rmin_comm. reflexivity. }
  split.
  { intros gray_f s. cbv zeta. unfold match_at_scale, size_adjusted_score,
      kReferenceSize. rewrite Rmin_comm. reflexivity. }
  split.
  { intros gray_f flag scales st. split; [apply coarse_loop_ranked | ].
    split; [| split].
    - apply coarse_loop_Forall; [| constructor].
      intros s _. apply match_at_scale_size_adjusted.
    - apply coarse_loop_Forall; [| constructor].
      intros s H. exact H.
    - apply (coarse_loop_top_k cv self gray_f flag scales 0 0 []).
      cbn. unfold kTopK. lia. }
  split.
  { intros gray_f flag lo hi candidates n cancelled best. split.
    - apply (fine_loop_provenance cv self gray_f flag lo hi candidates n
               cancelled no_best).
    - intros Hflag c s Hc Hs Hfits.
      apply (fine_loop_max cv self gray_f flag lo hi Hflag candidates n
               cancelled no_best c s); assumption. }
  split.
  { intros image search_rect flag min_size max_size search lo hi gray_f
           candidates r.
    split; [apply guided_detect_reports | ].
    split.
    - intros Hw Hh Hsw Hsh Hlh Hflag.
      apply (guided_detect_selects cv to_float self image search_rect flag
               min_size max_size); assumption.
    - intros Hw Hh Hsw Hsh Hmin Hhi Hflag Hfits H96 H24 Hother.
      apply (guided_detect_prefers_96 cv to_float self image search_rect flag
               min_size max_size); assumption. }
  intros p96 p24 c96 c24.
  assert (H96 : adjusted_score c96 = (30 / 100)%R).
  { cbn. apply size_adjusted_score_96. }
  assert (H24 : adjusted_score c24 = (29 / 100)%R).
  { cbn. rewrite size_adjusted_score_24. lra. }
  split; [exact H96 | split; [exact H24 | ]].
  split.
  - cbn in H96, H24. unfold insert_top_k. cbn.
    destruct (Rgt_dec _ _) as [H | H]; try reflexivity;
      exfalso; rewrite H96, H24 in H; lra.
  - cbn in H96, H24. unfold insert_top_k. cbn.
    destruct (Rgt_dec _ _) as [H | H]; try reflexivity;
      exfalso; rewrite H96, H24 in H; lra.
Qed.

(** Raw 0.30 with the 96 x 96 template and 0.58 with the 24 x 24 one: the
    search of a 200 x 200 image over the sizes 16..200 reports the 96 x 96
    match, with confidence 0.30. *)
Lemma guided_detect_size_adjusted_ranking_witness :
  let cv := Fixture.mock_cv_by_scale Fixture.ncc_96_vs_24 in
  let r :=
    guided_detect cv Fixture.exact_float Fixture.engine
                  (Fixture.bgr_image 200 200) (Rect.make 0 0 200 200)
                  None 16 200 in
  GuidedDetectionResult.found r = true /\
  GuidedDetectionResult.detected_size r = 96 /\
  GuidedDetectionResult.confidence r = (30 / 100)%R /\
  GuidedDetectionResult.raw_ncc r = (30 / 100)%R.
Proof.
  intros cv r.
  destruct (guided_detect_size_adjusted_ranking
              cv Fixture.exact_float Fixture.engine)
    as (_ & _ & _ & _ & Hresult & _).
  destruct (Hresult (Fixture.bgr_image 200 200) (Rect.make 0 0 200 200)
                    None 16 200) as (_ & _ & Hexample).
  cbv zeta in Hexample.
  destruct Hexample as (_ & _ & _ & Hfound & Hsize & Hconf & Hraw & _).
  - vm_compute. discriminate.
  - vm_compute. discriminate.
  - vm_compute. discriminate.
  - vm_compute. discriminate.
  - lia.
  - vm_compute. discriminate.
  - intros i. reflexivity.
  - split; vm_compute; discriminate.
  - reflexivity.
  - reflexivity.
  - intros s Hs96 Hs24.
    change (adjusted_score
              (match_at_scale cv Fixture.engine
                 (search_gray_f cv (Fixture.bgr_image 200 200)
                    (Rect.intersect (Rect.make 0 0 200 200)
                       (Rect.make 0 0 (Cv.cols (Fixture.bgr_image 200 200))
                                  (Cv.rows (Fixture.bgr_image 200 200)))))
                 s))
      with (size_adjusted_score (Fixture.ncc_96_vs_24 s) s).
    unfold Fixture.ncc_96_vs_24.
    destruct (s =? 96) eqn:E96; [apply Z.eqb_eq in E96; contradiction | ].
    destruct (s =? 24) eqn:E24; [apply Z.eqb_eq in E24; contradiction | ].
    unfold size_adjusted_score. rewrite Rmult_0_l. lra.
  - split; [exact Hfound | split; [exact Hsize | split]].
    + exact Hconf.
    + exact Hraw.
Defined.
